(** * Epubizon: document handlers and chapter-list virtualisation

    A shallow embedding of the document-handler layer of the Epubizon
    reader: [src/epub-handler.js] (module [Epub]), [src/pdf-handler.js]
    (module [Pdf]) and the navigation part of [src/renderer.js]
    (module [App]).

    Conventions.
    - JavaScript numbers that hold indices, page numbers and lengths are
      integers in the source and are modelled as [Z]; the one place where
      a fractional factor shows up ([estimateTotalPages]) is modelled in
      [Q], which is exact for the doubles involved (a length times 1.5).
    - JavaScript strings are modelled as [string]; the markup functions
      work code unit by code unit and are stated for code units below 256.
    - [Map] caches are [gmap Z string], the [Set] of blob URLs is a
      [gset string].
    - Calls into epub.js, pdf.js and the DOM are outcomes supplied by the
      caller of the model (an oracle argument), never computed here. *)

From Stdlib Require Import ZArith QArith Qminmax Lia Ascii String DecimalString.
From stdpp Require Import gmap strings list.

Local Open Scope Z_scope.

(** ** Shared data model *)

(** A chapter record.  The EPUB adapter fills [href], [id], [pageCount]
    and [loaded]; the PDF adapter fills [pageStart] and [pageEnd].  A field
    the object literal does not mention is [None] ([undefined]). *)
Record Chapter := mkChapter {
  title     : string;
  href      : option string;
  chapterId : option string;
  pageCount : option Z;
  loaded    : option bool;
  pageStart : option Z;
  pageEnd   : option Z
}.

(** The descriptor returned by [loadBook].  [isLargeFile] is [None] when
    the returned object has no such property. *)
Record BookData := mkBookData {
  bdChapters    : list Chapter;
  bdTotalPages  : Q;
  bdIsLargeFile : option bool
}.

(** Decimal rendering of an integer inside a template literal. *)
Definition showZ (n : Z) : string := NilEmpty.string_of_int (Z.to_int n).

Definition len {A} (l : list A) : Z := Z.of_nat (length l).

(** The browser-side resources the adapters act on: object URLs that are
    live ([URL.createObjectURL] adds, [URL.revokeObjectURL] removes) and the
    library documents on which [destroy()] has been called, latest first. *)
Record Browser := mkBrowser {
  liveUrls   : gset string;
  closedDocs : list nat
}.

Definition revokeObjectURL (url : string) (w : Browser) : Browser :=
  {| liveUrls := liveUrls w ∖ {[url]}; closedDocs := closedDocs w |}.

Definition libDestroy (doc : nat) (w : Browser) : Browser :=
  {| liveUrls := liveUrls w; closedDocs := doc :: closedDocs w |}.

(** What a call that may [throw] produces. *)
Inductive Outcome (A : Type) :=
  | Ok (a : A)
  | Throw (message : string).
Arguments Ok {A} a.
Arguments Throw {A} message.

(** ** JavaScript string primitives used by the adapters *)
Module JsString.

Definition code (c : ascii) : N := N_of_ascii c.

(** Case folding of the [i] flag, which on code units below 256 and an
    ASCII pattern only identifies [A-Z] with [a-z]. *)
Definition lower (c : ascii) : ascii :=
  if ((65 <=? code c) && (code c <=? 90))%N then ascii_of_N (code c + 32) else c.

(** Code units the pattern [.] refuses (no [s] flag): LF and CR. *)
Definition isLineTerminator (c : ascii) : bool :=
  ((code c =? 10) || (code c =? 13))%N.

(** Code units matched by [\s] and removed by [trim()]: TAB, LF, VT, FF,
    CR, space and the no-break space. *)
Definition isSpace (c : ascii) : bool :=
  ((9 <=? code c) && (code c <=? 13) || (code c =? 32) || (code c =? 160))%N.

Fixpoint allChars (p : ascii -> bool) (s : string) : bool :=
  match s with
  | EmptyString => true
  | String c s' => p c && allChars p s'
  end.

Fixpoint mapChars (f : ascii -> ascii) (s : string) : string :=
  match s with
  | EmptyString => EmptyString
  | String c s' => String (f c) (mapChars f s')
  end.

(** [s.includes(needle)] *)
Fixpoint includes (needle s : string) : bool :=
  String.prefix needle s ||
  match s with
  | EmptyString => false
  | String _ s' => includes needle s'
  end.

Fixpoint trimStart (s : string) : string :=
  match s with
  | EmptyString => EmptyString
  | String c s' => if isSpace c then trimStart s' else s
  end.

Fixpoint trimEnd (s : string) : string :=
  match s with
  | EmptyString => EmptyString
  | String c s' =>
      match trimEnd s' with
      | EmptyString => if isSpace c then EmptyString else String c EmptyString
      | r => String c r
      end
  end.

(** [s.trim()] *)
Definition trim (s : string) : string := trimEnd (trimStart s).

(** [s.replace(/\s+/g, ' ')]; [inRun] tells that the previous code unit
    belonged to the run of white space being replaced. *)
Fixpoint collapseSpaces (inRun : bool) (s : string) : string :=
  match s with
  | EmptyString => EmptyString
  | String c s' =>
      if isSpace c
      then (if inRun then collapseSpaces true s' else String " " (collapseSpaces true s'))
      else String c (collapseSpaces false s')
  end.

Fixpoint runLength (c : ascii) (s : string) : nat :=
  match s with
  | EmptyString => O
  | String d s' => if Ascii.eqb c d then S (runLength c s') else O
  end.

(** [s.replace(/(.)\1{3,}/g, '$1')]: a code unit followed by at least
    three copies of itself is kept once and the copies are skipped. *)
Fixpoint squeezeRuns (skip : nat) (s : string) : string :=
  match s with
  | EmptyString => EmptyString
  | String c s' =>
      match skip with
      | S k => squeezeRuns k s'
      | O =>
          if isLineTerminator c then String c (squeezeRuns O s')
          else
            let r := runLength c s' in
            if (3 <=? r)%nat then String c (squeezeRuns r s') else String c (squeezeRuns O s')
      end
  end.

(** *** The pattern [<tag[^>]*>.*?</tag>] with flags [gi]

    Each function returns the text that follows the part it matched, or
    [None] when the part cannot match at the start of its argument. *)

(** A literal, compared case-insensitively. *)
Fixpoint literal (p s : string) : option string :=
  match p, s with
  | EmptyString, _ => Some s
  | String _ _, EmptyString => None
  | String a p', String b s' =>
      if Ascii.eqb (lower a) (lower b) then literal p' s' else None
  end.

(** [[^>]*>]: the negated class cannot step over a [>], so the greedy star
    stops at the first one and backtracking finds no other match. *)
Fixpoint attrsThenGt (s : string) : option string :=
  match s with
  | EmptyString => None
  | String c s' => if Ascii.eqb c ">" then Some s' else attrsThenGt s'
  end.

(** [.*?closer]: the lazy star tries the closing tag first and otherwise
    steps over one code unit that is not a line terminator. *)
Fixpoint lazyThen (closer s : string) : option string :=
  match literal closer s with
  | Some r => Some r
  | None =>
      match s with
      | EmptyString => None
      | String c s' => if isLineTerminator c then None else lazyThen closer s'
      end
  end.

Definition openTag (tag : string) : string := "<" +:+ tag.
Definition closeTag (tag : string) : string := "</" +:+ tag +:+ ">".

Definition matchElement (tag s : string) : option string :=
  r1 ← literal (openTag tag) s;
  r2 ← attrsThenGt r1;
  lazyThen (closeTag tag) r2.

(** Number of code units of the match at the start of [s]. *)
Definition matchLength (tag s : string) : option nat :=
  r ← matchElement tag s; Some (String.length s - String.length r)%nat.

(** [s.replace(/<tag[^>]*>.*?<\/tag>/gi, '')].  [skip] is the number of
    code units that remain of the match being removed (the distance to the
    regular expression's [lastIndex]). *)
Fixpoint removeFrom (tag : string) (skip : nat) (s : string) : string :=
  match s with
  | EmptyString => EmptyString
  | String c s' =>
      match skip with
      | S k => removeFrom tag k s'
      | O =>
          match matchLength tag s with
          | Some (S k) => removeFrom tag k s'
          | _ => String c (removeFrom tag O s')
          end
      end
  end.

Definition removeElements (tag s : string) : string := removeFrom tag O s.

(** *** Searching and slicing *)

(** [toLowerCase] on one code unit below 256: [A-Z] and the Latin-1
    capitals (192 to 222 without the multiplication sign 215) move up by
    32; nothing in that range changes the length of a string. *)
Definition toLowerChar (c : ascii) : ascii :=
  if ((65 <=? code c) && (code c <=? 90)
      || (192 <=? code c) && (code c <=? 222) && negb (code c =? 215))%N
  then ascii_of_N (code c + 32) else c.

(** [s.toLowerCase()] *)
Definition toLowerCase (s : string) : string := mapChars toLowerChar s.

(** [s.indexOf(needle)], [None] standing for -1. *)
Fixpoint indexOf (needle s : string) : option nat :=
  if String.prefix needle s then Some O
  else
    match s with
    | EmptyString => None
    | String _ s' => S <$> indexOf needle s'
    end.

Fixpoint dropChars (n : nat) (s : string) : string :=
  match n, s with
  | O, _ => s
  | S _, EmptyString => EmptyString
  | S n', String _ s' => dropChars n' s'
  end.

Fixpoint takeChars (n : nat) (s : string) : string :=
  match n, s with
  | O, _ => EmptyString
  | S _, EmptyString => EmptyString
  | S n', String c s' => String c (takeChars n' s')
  end.

(** [s.substring(a, b)] for indices that are not negative: both are
    clamped to the length and swapped when out of order. *)
Definition substring (a b : nat) (s : string) : string :=
  let a' := Nat.min a (String.length s) in
  let b' := Nat.min b (String.length s) in
  takeChars (Nat.max a' b' - Nat.min a' b') (dropChars (Nat.min a' b') s).

(** [s.lastIndexOf('/') + 1]: the length of [s] up to and including its
    last slash, [0] without a slash. *)
Fixpoint afterLastSlash (s : string) : nat :=
  match s with
  | EmptyString => O
  | String c s' =>
      match afterLastSlash s' with
      | O => if Ascii.eqb c "/" then 1%nat else O
      | S k => S (S k)
      end
  end.

(** [s.split('/').pop()] *)
Definition basename (s : string) : string := dropChars (afterLastSlash s) s.

(** The code units of a string, as a list. *)
Definition chars (s : string) : list ascii := list_ascii_of_string s.

End JsString.

(** ** Excerpts of search hits

    [extractExcerpt] has the same text in [src/epub-handler.js] (lines
    828-840) and in [src/pdf-handler.js] (lines 337-349).  String
    positions are natural numbers.  The source looks the query up in
    [text.toLowerCase()] and cuts the excerpt out of [text] at the index it
    found there.  On the strings of this model, code units below 256,
    [toLowerCase] maps unit by unit and the two indices agree; a code unit
    that [toLowerCase] lengthens (U+0130) shifts the index, and nothing
    here is stated for such texts. *)
Module Excerpt.
Import JsString.

Definition extractExcerpt (text query : string) (contextLength : nat) : string :=
  match indexOf (toLowerCase query) (toLowerCase text) with
  | None => EmptyString
  | Some index =>
      let start := (index - contextLength)%nat in
      let end_ := Nat.min (String.length text) (index + String.length query + contextLength) in
      let excerpt := substring start end_ text in
      let excerpt := if (0 <? start)%nat then "..." +:+ excerpt else excerpt in
      if (end_ <? String.length text)%nat then excerpt +:+ "..." else excerpt
  end.

(** The default value of the third parameter. *)
Definition defaultContext : nat := 100.

End Excerpt.

(** ** The EPUB adapter, [src/epub-handler.js] *)
Module Epub.
Import JsString.

(** The fields of an [EpubHandler] that its constructor sets.  [book] is
    the epub.js object, known here by an identifier only.  The
    [_manifestDebugDone] latch of [debugManifestImages], which only guards
    a log line, is left out. *)
Record EpubHandler := mkEpubHandler {
  book              : option nat;
  rendition         : option nat;
  chapters          : list Chapter;
  currentLocation   : option string;
  textContent       : gmap Z string;
  imageBlobUrls     : gset string
}.

Definition constructor : EpubHandler :=
  {| book := None; rendition := None; chapters := []; currentLocation := None;
     textContent := ∅; imageBlobUrls := ∅ |}.

(** An adapter together with the browser resources it acts on. *)
Definition State : Type := Browser * EpubHandler.

(** *** Loading *)

Record TocEntry := mkTocEntry {
  tocLabel : option string;
  tocHref  : option string;
  tocId    : option string
}.

Record SpineItem := mkSpineItem {
  itemHref : string;
  itemId   : option string
}.

(** What epub.js answers for [book.loaded.navigation] and
    [book.loaded.spine]; [None] for the spine is a rejected promise. *)
Inductive NavOutcome :=
  | NavLoaded (toc : list TocEntry) (spineItems : option (list SpineItem))
  | NavRejected.

(** What happens up to line 27 of [loadBook]. *)
Inductive LoadOutcome :=
  | LibraryFailed
  | OpenFailed (bookId : nat)
  | Opened (bookId : nat) (nav : NavOutcome).

(** [value || fallback] on a string that may be absent. *)
Definition orDefault (value : option string) (fallback : string) : string :=
  match value with
  | Some EmptyString | None => fallback
  | Some v => v
  end.

Definition lazyChapter (t : string) (h : option string) (i : string) : Chapter :=
  {| title := t; href := h; chapterId := Some i; pageCount := None;
     loaded := Some false; pageStart := None; pageEnd := None |}.

Definition tocChapter (index : nat) (chapter : TocEntry) : Chapter :=
  lazyChapter (orDefault (tocLabel chapter) ("Chapter " +:+ showZ (Z.of_nat index + 1)))
              (tocHref chapter)
              (orDefault (tocId chapter) ("chapter-" +:+ showZ (Z.of_nat index))).

Definition spineChapter (index : nat) (item : SpineItem) : Chapter :=
  lazyChapter (if includes "chapter" (itemHref item) || includes "ch" (itemHref item)
               then "Chapter " +:+ showZ (Z.of_nat index + 1)
               else "Section " +:+ showZ (Z.of_nat index + 1))
              (Some (itemHref item))
              (orDefault (itemId item) ("section-" +:+ showZ (Z.of_nat index))).

Definition setChapters (cs : list Chapter) (h : EpubHandler) : EpubHandler :=
  {| book := book h; rendition := rendition h; chapters := cs;
     currentLocation := currentLocation h; textContent := textContent h;
     imageBlobUrls := imageBlobUrls h |}.

Definition setBook (b : option nat) (h : EpubHandler) : EpubHandler :=
  {| book := b; rendition := rendition h; chapters := chapters h;
     currentLocation := currentLocation h; textContent := textContent h;
     imageBlobUrls := imageBlobUrls h |}.

(** [extractChaptersLazy], lines 215-257. *)
Definition extractChaptersLazy (nav : NavOutcome) (h : EpubHandler) : EpubHandler :=
  match book h with
  | None => h
  | Some _ =>
      match nav with
      | NavLoaded ((_ :: _) as toc) _ => setChapters (imap tocChapter toc) h
      | NavLoaded [] (Some spineItems) =>
          let maxChapters := Nat.min (length spineItems) 200 in
          setChapters (imap spineChapter (take maxChapters spineItems)) h
      | NavLoaded [] None | NavRejected =>
          setChapters [lazyChapter "Chapter 1" (Some "") "chapter-0"] h
      end
  end.

(** [estimateTotalPages], lines 259-280.  No statement of the [try] block
    can throw, so the handler of line 276 is not modelled. *)
Definition estimateTotalPages (h : EpubHandler) : Q :=
  let n := len (chapters h) in
  if negb (bool_decide (is_Some (book h))) || (n =? 0) then 1%Q
  else
    let baseEstimate := (inject_Z n * 2)%Q in
    if 100 <? n then Qmax baseEstimate (inject_Z n * (3 # 2))%Q
    else if 50 <? n then Qmax baseEstimate (inject_Z n * 2)%Q
    else Qmax baseEstimate (inject_Z n * 3)%Q.

Definition mockChapter (t h : string) (pages : Z) : Chapter :=
  {| title := t; href := Some h; chapterId := None; pageCount := Some pages;
     loaded := None; pageStart := None; pageEnd := None |}.

Definition mockChapters : list Chapter :=
  [ mockChapter "Chapter 1: Introduction" "chapter1.xhtml" 15;
    mockChapter "Chapter 2: Getting Started" "chapter2.xhtml" 20;
    mockChapter "Chapter 3: Advanced Topics" "chapter3.xhtml" 25;
    mockChapter "Chapter 4: Examples" "chapter4.xhtml" 18;
    mockChapter "Chapter 5: Conclusion" "chapter5.xhtml" 12 ].

(** [mockLoadBook], lines 161-183 (the delay is not modelled). *)
Definition mockLoadBook (h : EpubHandler) : BookData * EpubHandler :=
  let h' := setChapters mockChapters h in
  ({| bdChapters := chapters h';
      bdTotalPages :=
        inject_Z (foldl (fun total chapter => total + default 0 (pageCount chapter)) 0 (chapters h'));
      bdIsLargeFile := None |}, h').

(** [loadBook], lines 12-58; the metadata of the descriptor is left out. *)
Definition loadBook (o : LoadOutcome) (h : EpubHandler) : BookData * EpubHandler :=
  match o with
  | LibraryFailed => mockLoadBook h
  | OpenFailed b => mockLoadBook (setBook (Some b) h)
  | Opened b nav =>
      let h' := extractChaptersLazy nav (setBook (Some b) h) in
      let estimatedPages := estimateTotalPages h' in
      ({| bdChapters := chapters h';
          bdTotalPages := estimatedPages;
          bdIsLargeFile :=
            Some ((50 <? len (chapters h')) || negb (Qle_bool estimatedPages 500)) |}, h')
  end.

(** *** Markup shown for a chapter *)

(** [cleanHtmlContentBasic], lines 698-705. *)
Definition cleanHtmlContentBasic (htmlContent : string) : string :=
  trim (removeElements "head" (removeElements "style" (removeElements "script" htmlContent))).

(** What the DOM does in lines 357-372 of [processHtmlContent]:
    [DomSerialised innerHTML created] is the markup read back from the
    container after the images were processed, with the blob URLs
    [loadImageFromEpub] created for them; [DomThrows] is an exception
    raised before any image is processed. *)
Inductive DomOutcome :=
  | DomSerialised (innerHTML : string) (created : list string)
  | DomThrows.

(** [URL.createObjectURL] followed by [this.imageBlobUrls.add]. *)
Definition trackBlobUrl (url : string) (st : State) : State :=
  let (w, h) := st in
  ({| liveUrls := liveUrls w ∪ {[url]}; closedDocs := closedDocs w |},
   {| book := book h; rendition := rendition h; chapters := chapters h;
      currentLocation := currentLocation h; textContent := textContent h;
      imageBlobUrls := imageBlobUrls h ∪ {[url]} |}).

(** [processHtmlContent], lines 354-383. *)
Definition processHtmlContent (dom : DomOutcome) (htmlContent : string) (st : State)
  : string * State :=
  match dom with
  | DomSerialised innerHTML created =>
      (trim (removeElements "head" (removeElements "script" innerHTML)),
       foldl (fun st url => trackBlobUrl url st) st created)
  | DomThrows => (cleanHtmlContentBasic htmlContent, st)
  end.

(** What the manifest and the loop over the [img] tags do in lines
    646-690 of [processImagesFromManifest], for an adapter that holds a
    book: [ManifestThrows] is a manifest that does not load, which ends in
    the handler of line 692; [ImagesReplaced content created] is a loop that
    ends with [content] as the processed markup after registering the
    object URLs [created]. *)
Inductive ManifestOutcome :=
  | ImagesReplaced (content : string) (created : list string)
  | ManifestThrows.

(** [processImagesFromManifest], lines 641-696.  A match of the pattern of
    line 659 starts with [<img], in either case, so markup without it
    gives the loop no turn and comes back as it was given. *)
Definition processImagesFromManifest (m : ManifestOutcome) (htmlContent : string) (st : State)
  : string * State :=
  match book (snd st), m with
  | None, _ => (htmlContent, st)
  | Some _, ManifestThrows => (htmlContent, st)
  | Some _, ImagesReplaced content created =>
      if includes "<img" (toLowerCase htmlContent)
      then (content, foldl (fun st url => trackBlobUrl url st) st created)
      else (htmlContent, st)
  end.

(** [processHtmlContentWithDirectLoad], lines 621-639.  Neither callee
    throws, so the handler of line 635 is never entered. *)
Definition processHtmlContentWithDirectLoad
    (dom : DomOutcome) (m : ManifestOutcome) (htmlContent : string) (st : State)
  : string * State :=
  let (normalResult, st') := processHtmlContent dom htmlContent st in
  if negb (includes "blob:" normalResult) && negb (includes "data:image" normalResult)
  then processImagesFromManifest m htmlContent st'
  else (normalResult, st').

(** *** Text extraction *)

(** What epub.js and the DOM do for one chapter inside the [try] of lines
    745-794.  [Extracted text] stands for a run that reaches line 781 with
    [text] as the chapter's text content; [ExtractionFailed] for a run
    without spine item or one that ends in the handler of line 792.  In the
    source the variable read at line 781 is declared by [let] inside the
    inner [try] block of line 752, so a run that gets there raises a
    [ReferenceError] and ends in that handler as well; the model keeps both
    outcomes, and what is proved holds for either. *)
Inductive ExtractOutcome :=
  | Extracted (text : string)
  | ExtractionFailed.

Definition mockText (t : string) : string :=
  t +:+ "

This is the text content of " +:+ t +:+ " extracted from the EPUB file. In a real implementation, this would contain the actual chapter text for summary generation.

The chapter contains detailed information about the topic, with multiple sections and subsections. It includes examples, explanations, and practical guidance for readers.

This represents the actual textual content that would be used to generate meaningful summaries using AI.".

Definition cacheText (key : Z) (text : string) (h : EpubHandler) : EpubHandler :=
  {| book := book h; rendition := rendition h; chapters := chapters h;
     currentLocation := currentLocation h; textContent := <[key := text]> (textContent h);
     imageBlobUrls := imageBlobUrls h |}.

Definition truthy (value : option string) : bool :=
  match value with
  | Some EmptyString | None => false
  | Some _ => true
  end.

(** [getChapterText], lines 731-807.  After [/\s+/g] has run no line feed
    is left, so the replacement of [/\n\s*\n/g] changes nothing. *)
Definition getChapterText (lib : ExtractOutcome) (chapterIndex : Z) (h : EpubHandler)
  : Outcome string * EpubHandler :=
  if (chapterIndex <? 0) || (len (chapters h) <=? chapterIndex)
  then (Throw "Invalid chapter index", h)
  else
    match textContent h !! chapterIndex with
    | Some cached => (Ok cached, h)
    | None =>
        match chapters h !! Z.to_nat chapterIndex with
        | None => (Throw "TypeError", h)
        | Some chapter =>
            match lib with
            | Extracted text =>
                if bool_decide (is_Some (book h)) && truthy (href chapter)
                then
                  let cleanedText := trim (collapseSpaces false text) in
                  let fullText := title chapter +:+ "

" +:+ cleanedText in
                  (Ok fullText, cacheText chapterIndex fullText h)
                else (Ok (mockText (title chapter)),
                      cacheText chapterIndex (mockText (title chapter)) h)
            | ExtractionFailed =>
                (Ok (mockText (title chapter)),
                 cacheText chapterIndex (mockText (title chapter)) h)
            end
        end
    end.

(** *** Teardown *)

(** [destroy], lines 851-866.  [URL.revokeObjectURL] and the library's
    [book.destroy()] are taken to return. *)
Definition destroy (st : State) : State :=
  let (w, h) := st in
  let w1 := set_fold revokeObjectURL w (imageBlobUrls h) in
  let w2 := match book h with
            | Some b => libDestroy b w1
            | None => w1
            end in
  (w2, {| book := None; rendition := None; chapters := []; currentLocation := None;
          textContent := ∅; imageBlobUrls := ∅ |}).

(** *** Search *)

Record ChapterHit := mkChapterHit {
  hitChapter : Z;
  hitTitle   : string;
  hitExcerpt : string
}.

(** The loop of [search], lines 814-823, from chapter [i] on; [lib i] is
    what the library would answer for chapter [i], [fuel] bounds the number
    of iterations. *)
Fixpoint searchFrom (lib : Z -> ExtractOutcome) (query : string) (fuel : nat) (i : Z)
    (h : EpubHandler) : Outcome (list ChapterHit) * EpubHandler :=
  match fuel with
  | O => (Ok [], h)
  | S fuel' =>
      if i <? len (chapters h) then
        match getChapterText (lib i) i h with
        | (Throw message, h1) => (Throw message, h1)
        | (Ok chapterText, h1) =>
            let hit :=
              if includes (toLowerCase query) (toLowerCase chapterText)
              then [ {| hitChapter := i;
                        hitTitle := default EmptyString (title <$> chapters h1 !! Z.to_nat i);
                        hitExcerpt := Excerpt.extractExcerpt chapterText query Excerpt.defaultContext |} ]
              else [] in
            match searchFrom lib query fuel' (i + 1) h1 with
            | (Ok rest, h2) => (Ok (hit ++ rest), h2)
            | (Throw message, h2) => (Throw message, h2)
            end
        end
      else (Ok [], h)
  end.

(** [search], lines 809-826. *)
Definition search (lib : Z -> ExtractOutcome) (query : string) (h : EpubHandler)
  : Outcome (list ChapterHit) * EpubHandler :=
  searchFrom lib query (length (chapters h)) 0 h.

(** *** Candidate paths of an image *)

(** [s.replace(/^\.\.\/+/, '')] on a string that starts with [../] *)
Fixpoint dropSlashes (s : string) : string :=
  match s with
  | String c s' => if Ascii.eqb c "/" then dropSlashes s' else s
  | EmptyString => EmptyString
  end.

Definition stripParent (s : string) : string :=
  if String.prefix "../" s then dropSlashes (dropChars 2 s) else s.

(** [[...new Set(paths)]]: the first occurrence of every path, in order. *)
Definition firstOccurrences (paths : list string) : list string :=
  foldl (fun seen path => if bool_decide (path ∈ seen) then seen else seen ++ [path]) [] paths.

Definition imageDirs : list string :=
  [ "images/"; "Images/"; "IMAGE/"; "img/";
    "OEBPS/images/"; "OEBPS/Images/"; "OEBPS/IMAGE/";
    "Text/images/"; "Text/Images/"; "text/images/";
    "content/images/"; "content/Images/" ].

Definition allDirs : list string :=
  [ "images/"; "Images/"; "IMAGE/"; "img/"; "graphics/"; "Graphics/"; "media/";
    "OEBPS/images/"; "OEBPS/Images/"; "OEBPS/IMAGE/"; "OEBPS/img/";
    "Text/images/"; "Text/Images/"; "text/images/";
    "content/images/"; "content/Images/" ].

(** The paths pushed by lines 497-546 of [resolveImagePaths], before the
    duplicates go; [sectionHref] is [section.href], [None] without section. *)
Definition candidatePaths (imagePath : string) (sectionHref : option string) : list string :=
  let fromSection :=
    if truthy sectionHref then
      let href := default EmptyString sectionHref in
      let sectionDir := substring 0 (afterLastSlash href) href in
      (if negb (String.prefix "../" imagePath) && negb (String.prefix "/" imagePath)
          && negb (String.prefix "http" imagePath)
       then [sectionDir +:+ imagePath] else []) ++
      (if String.prefix "../" imagePath
       then [stripParent imagePath; sectionDir +:+ stripParent imagePath] else [])
    else [] in
  let imageBasename := basename imagePath in
  let imageDir :=
    if includes "/" imagePath then substring 0 (afterLastSlash imagePath) imagePath
    else EmptyString in
  let fromDirs :=
    if includes "image" (toLowerCase imageDir)
    then (fun dir => dir +:+ imageBasename) <$> imageDirs
    else (fun dir => dir +:+ imageBasename)
           <$> filter (fun dir => dir <> EmptyString) (allDirs ++ [imageDir]) in
  [imagePath] ++ fromSection ++ fromDirs.

(** [resolveImagePaths], lines 493-550. *)
Definition resolveImagePaths (imagePath : string) (sectionHref : option string) : list string :=
  firstOccurrences (candidatePaths imagePath sectionHref).

(** *** Images of the manifest *)

(** An entry of the manifest: [item.type], when there is one, and
    [item.href].  A manifest is the list of its entries in the order of
    [Object.entries]. *)
Record ManifestItem := mkManifestItem {
  itemType     : option string;
  manifestHref : string
}.

(** [item.type && item.type.startsWith('image/')] *)
Definition isImageItem (item : ManifestItem) : bool :=
  match itemType item with
  | Some t => String.prefix "image/" t
  | None => false
  end.

(** The first entry of the manifest that [test] accepts. *)
Fixpoint firstItem (test : ManifestItem -> bool) (manifest : list ManifestItem)
  : option ManifestItem :=
  match manifest with
  | [] => None
  | item :: rest => if test item then Some item else firstItem test rest
  end.

(** [findImageInManifest], lines 577-605, for a manifest that loaded. *)
Definition findImageInManifest (manifest : list ManifestItem) (imagePath : string)
  : option string :=
  let imageBasename := toLowerCase (basename imagePath) in
  match firstItem (fun item => isImageItem item
                     && String.eqb (toLowerCase (basename (manifestHref item))) imageBasename)
                  manifest with
  | Some item => Some (manifestHref item)
  | None =>
      match firstItem (fun item => isImageItem item
                         && includes imageBasename (toLowerCase (manifestHref item)))
                      manifest with
      | Some item => Some (manifestHref item)
      | None => None
      end
  end.

End Epub.

(** ** The PDF adapter, [src/pdf-handler.js] *)
Module Pdf.
Import JsString.

Record PageInfo := mkPageInfo {
  pageNumber : Z;
  width      : Q;
  height     : Q
}.

(** The fields of a [PdfHandler].  [pdfDocument] is the pdf.js document,
    known by an identifier; [pdfjsLib] tells whether the library object has
    been stored. *)
Record PdfHandler := mkPdfHandler {
  pdfDocument : option nat;
  totalPages  : Z;
  pages       : list PageInfo;
  textContent : gmap Z string;
  pdfjsLib    : bool
}.

Definition constructor : PdfHandler :=
  {| pdfDocument := None; totalPages := 0; pages := []; textContent := ∅;
     pdfjsLib := false |}.

Definition State : Type := Browser * PdfHandler.

(** *** Synthetic chapters *)

Definition pdfChapter (t : string) (startPage endPage : Z) : Chapter :=
  {| title := t; href := None; chapterId := None; pageCount := None; loaded := None;
     pageStart := Some startPage; pageEnd := Some endPage |}.

Definition chaptersPerSection (total : Z) : Z := Z.max 1 (total / 7).

(** The body of the loop of [createChaptersFromPages] for one value of [i]. *)
Definition sectionAt (total i : Z) : Chapter :=
  let startPage := i + 1 in
  let endPage := Z.min (i + chaptersPerSection total) total in
  let chapterNum := i / chaptersPerSection total + 1 in
  pdfChapter (if startPage =? 1 then "Introduction"
              else if endPage =? total then "Conclusion"
              else "Chapter " +:+ showZ chapterNum)
             startPage endPage.

(** The loop [for (let i = ...; i < total; i += chaptersPerSection)];
    [fuel] bounds the number of iterations. *)
Fixpoint sectionsFrom (fuel : nat) (total i : Z) : list Chapter :=
  match fuel with
  | O => []
  | S fuel' =>
      if i <? total
      then sectionAt total i :: sectionsFrom fuel' total (i + chaptersPerSection total)
      else []
  end.

(** [createChaptersFromPages], lines 104-124.  The step is at least one, so
    [total] iterations are enough (lemma [sectionsFrom_fuel]). *)
Definition createChaptersFromPages (h : PdfHandler) : list Chapter :=
  sectionsFrom (Z.to_nat (totalPages h)) (totalPages h) 0.

(** *** Loading *)

(** What happens up to line 23 of [loadBook]. *)
Inductive LoadOutcome :=
  | LibraryFailed
  | OpenRejected
  | Opened (doc : nat) (numPages : Z).

(** [Array.from({length: n}, (_, i) => ({pageNumber: i + 1, ...}))] *)
Definition blankPages (n : Z) : list PageInfo :=
  (fun i => {| pageNumber := i + 1; width := 612; height := 792 |}) <$> seqZ 0 n.

Definition mockPdfChapters : list Chapter :=
  [ pdfChapter "Table of Contents" 1 2;
    pdfChapter "Introduction" 3 8;
    pdfChapter "Chapter 1: Fundamentals" 9 18;
    pdfChapter "Chapter 2: Advanced Concepts" 19 28;
    pdfChapter "Chapter 3: Practical Applications" 29 38;
    pdfChapter "Chapter 4: Case Studies" 39 43;
    pdfChapter "Conclusion" 44 45 ].

(** [mockLoadPdf], lines 127-161 (the delay is not modelled). *)
Definition mockLoadPdf (h : PdfHandler) : BookData * PdfHandler :=
  let h' := {| pdfDocument := pdfDocument h; totalPages := 45; pages := blankPages 45;
               textContent := textContent h; pdfjsLib := pdfjsLib h |} in
  ({| bdChapters := mockPdfChapters; bdTotalPages := inject_Z (totalPages h');
      bdIsLargeFile := None |}, h').

(** [loadBook], lines 11-49; the metadata of the descriptor is left out. *)
Definition loadBook (o : LoadOutcome) (h : PdfHandler) : BookData * PdfHandler :=
  match o with
  | LibraryFailed => mockLoadPdf h
  | OpenRejected =>
      mockLoadPdf {| pdfDocument := pdfDocument h; totalPages := totalPages h;
                     pages := pages h; textContent := textContent h; pdfjsLib := true |}
  | Opened doc numPages =>
      let h' := {| pdfDocument := Some doc; totalPages := numPages;
                   pages := blankPages numPages; textContent := textContent h;
                   pdfjsLib := true |} in
      ({| bdChapters := createChaptersFromPages h'; bdTotalPages := inject_Z (totalPages h');
          bdIsLargeFile := None |}, h')
  end.

(** *** Rendering *)

(** The two template literals a page is rendered to: the canvas of the
    real path and the placeholder of [mockRenderPage]. *)
Inductive PageMarkup :=
  | CanvasMarkup (outerHTML : string)
  | MockMarkup (pageNumber totalPages : Z).

(** What pdf.js does inside the [try] of lines 168-203. *)
Inductive RenderOutcome :=
  | Drawn (viewportWidth viewportHeight : Q) (outerHTML : string)
  | DrawFailed.

Definition hasEngine (h : PdfHandler) : bool :=
  bool_decide (is_Some (pdfDocument h)) && pdfjsLib h.

Definition setPages (ps : list PageInfo) (h : PdfHandler) : PdfHandler :=
  {| pdfDocument := pdfDocument h; totalPages := totalPages h; pages := ps;
     textContent := textContent h; pdfjsLib := pdfjsLib h |}.

(** [renderPage], lines 163-207. *)
Definition renderPage (lib : RenderOutcome) (pageNumber : Z) (h : PdfHandler)
  : Outcome PageMarkup * PdfHandler :=
  if (pageNumber <? 1) || (totalPages h <? pageNumber)
  then (Throw "Invalid page number", h)
  else
    match lib with
    | Drawn w ht canvas =>
        if hasEngine h
        then (Ok (CanvasMarkup canvas),
              setPages (alter (fun p => {| pageNumber := Pdf.pageNumber p; width := w; height := ht |})
                              (Z.to_nat (pageNumber - 1)) (pages h)) h)
        else (Ok (MockMarkup pageNumber (totalPages h)), h)
    | DrawFailed => (Ok (MockMarkup pageNumber (totalPages h)), h)
    end.

(** *** Text extraction *)

(** What pdf.js does inside the [try] of lines 274-297: the [str] of the
    text items of the page, or a rejection. *)
Inductive TextOutcome :=
  | TextItems (items : list string)
  | TextRejected.

Fixpoint join (sep : string) (parts : list string) : string :=
  match parts with
  | [] => EmptyString
  | [x] => x
  | x :: rest => x +:+ sep +:+ join sep rest
  end.

Definition nonBlank (str : string) : bool :=
  negb (String.eqb (trim str) EmptyString).

(** [mockExtractPageText], lines 305-319. *)
Definition mockExtractPageText (pageNumber : Z) : string :=
  "Page " +:+ showZ pageNumber +:+ " Content

This is the extracted text content from page " +:+ showZ pageNumber +:+ " of the PDF document. In a real implementation, this would contain the actual text extracted from the PDF using PDF.js text extraction capabilities.

This mock text represents what would typically be found on a PDF page, including headings, paragraphs, and structured content that could be used for generating summaries or performing searches.

The content includes detailed information about the topic covered on this page, with explanations, examples, and references that would be valuable for AI-powered summary generation.

" +:+ "Section " +:+ showZ ((pageNumber + 4) / 5) +:+ "." +:+
  showZ (if pageNumber mod 5 =? 0 then 5 else pageNumber mod 5) +:+ ": Advanced Topics

This section covers advanced concepts and practical applications related to the main topic. It provides in-depth analysis and real-world examples that help readers understand complex concepts.

The information presented here builds upon previous chapters and provides foundational knowledge for subsequent sections of the document.".

Definition cacheText (key : Z) (text : string) (h : PdfHandler) : PdfHandler :=
  {| pdfDocument := pdfDocument h; totalPages := totalPages h; pages := pages h;
     textContent := <[key := text]> (textContent h); pdfjsLib := pdfjsLib h |}.

(** [getPageText], lines 264-303. *)
Definition getPageText (lib : TextOutcome) (pageNumber : Z) (h : PdfHandler)
  : Outcome string * PdfHandler :=
  if (pageNumber <? 1) || (totalPages h <? pageNumber)
  then (Throw "Invalid page number", h)
  else
    match textContent h !! pageNumber with
    | Some cached => (Ok cached, h)
    | None =>
        match lib with
        | TextItems items =>
            if hasEngine h
            then
              let rawText := join " " (filter (fun str => nonBlank str = true) items) in
              let cleanedText := trim (squeezeRuns O (collapseSpaces false rawText)) in
              (Ok cleanedText, cacheText pageNumber cleanedText h)
            else (Ok (mockExtractPageText pageNumber),
                  cacheText pageNumber (mockExtractPageText pageNumber) h)
        | TextRejected =>
            (Ok (mockExtractPageText pageNumber),
             cacheText pageNumber (mockExtractPageText pageNumber) h)
        end
    end.

(** *** Teardown *)

(** [destroy], lines 400-408.  The library's [pdfDocument.destroy()] is
    taken to return. *)
Definition destroy (st : State) : State :=
  let (w, h) := st in
  (match pdfDocument h with
   | Some doc => libDestroy doc w
   | None => w
   end,
   {| pdfDocument := None; totalPages := 0; pages := []; textContent := ∅;
      pdfjsLib := pdfjsLib h |}).

(** *** Search *)

Record PageHit := mkPageHit {
  hitPage    : Z;
  hitExcerpt : string
}.

(** The loop of [search], lines 324-332, from page [pageNum] on; [lib n]
    is what the library would answer for page [n], [fuel] bounds the number
    of iterations. *)
Fixpoint searchFrom (lib : Z -> TextOutcome) (query : string) (fuel : nat) (pageNum : Z)
    (h : PdfHandler) : Outcome (list PageHit) * PdfHandler :=
  match fuel with
  | O => (Ok [], h)
  | S fuel' =>
      if pageNum <=? totalPages h then
        match getPageText (lib pageNum) pageNum h with
        | (Throw message, h1) => (Throw message, h1)
        | (Ok pageText, h1) =>
            let hit :=
              if includes (toLowerCase query) (toLowerCase pageText)
              then [ {| hitPage := pageNum;
                        hitExcerpt := Excerpt.extractExcerpt pageText query Excerpt.defaultContext |} ]
              else [] in
            match searchFrom lib query fuel' (pageNum + 1) h1 with
            | (Ok rest, h2) => (Ok (hit ++ rest), h2)
            | (Throw message, h2) => (Throw message, h2)
            end
        end
      else (Ok [], h)
  end.

(** [search], lines 321-335. *)
Definition search (lib : Z -> TextOutcome) (query : string) (h : PdfHandler)
  : Outcome (list PageHit) * PdfHandler :=
  searchFrom lib query (Z.to_nat (totalPages h)) 1 h.

(** [getTotalPages], lines 396-398. *)
Definition getTotalPages (h : PdfHandler) : Z := totalPages h.

End Pdf.

(** ** The application controller, [src/renderer.js] *)
Module App.

Record FileData := mkFileData {
  name      : string;
  extension : string
}.

(** Calls the controller makes on adapter objects, each object known by
    the identifier it received at its [new]. *)
Inductive Call :=
  | NewEpubHandler (obj : nat)
  | NewPdfHandler (obj : nat)
  | DestroyCall (obj : nat)
  | LoadBookCall (obj : nat)
  | RenderChapterCall (obj : nat) (chapterIndex : Z)
  | RenderPageCall (obj : nat) (pageNumber : Z).

(** The children of the [chaptersList] element.  A jump item carries the
    arguments its [onclick] passes to [showChapterRange]. *)
Inductive ListItem :=
  | JumpStart (text : string) (onclick : Z * Z)
  | JumpEnd (text : string) (onclick : Z * Z)
  | ChapterItem (index : Z) (active : bool) (text : string)
  | Counter (text : string).

(** What [documentContainer.innerHTML] is set to: the chapter markup
    inside its [epub-content] wrapper, or the page markup as it is. *)
Inductive Container :=
  | EpubContent (content : string)
  | PageContent (content : string).

(** The fields of [EpubizonApp] used for navigation, the two DOM elements
    it writes, and two book-keeping fields: [calls], the adapter calls made
    so far in order, and [nextObject], the identifier of the next [new]. *)
Record App := mkApp {
  currentBook       : option FileData;
  currentChapter    : Z;
  currentPage       : Z;
  totalPages        : Q;
  chapters          : list Chapter;
  isLargeFile       : option bool;
  epubHandler       : option nat;
  pdfHandler        : option nat;
  chaptersList      : list ListItem;
  documentContainer : option Container;
  calls             : list Call;
  nextObject        : nat
}.

Definition constructor : App :=
  {| currentBook := None; currentChapter := 0; currentPage := 0; totalPages := 0;
     chapters := []; isLargeFile := None; epubHandler := None; pdfHandler := None;
     chaptersList := []; documentContainer := None; calls := []; nextObject := O |}.

(** A method either runs to its end or leaves through an exception; in
    both cases the fields keep what was assigned up to that point. *)
Inductive Result :=
  | Done (app : App)
  | Raised (app : App).

Definition stateOf (r : Result) : App :=
  match r with
  | Done app | Raised app => app
  end.

(** What an awaited [renderChapter] / [renderPage] gives back. *)
Inductive Rendering :=
  | Painted (content : string)
  | RenderThrew.

Definition record (c : Call) (app : App) : App :=
  {| currentBook := currentBook app; currentChapter := currentChapter app;
     currentPage := currentPage app; totalPages := totalPages app;
     chapters := chapters app; isLargeFile := isLargeFile app;
     epubHandler := epubHandler app; pdfHandler := pdfHandler app;
     chaptersList := chaptersList app; documentContainer := documentContainer app;
     calls := calls app ++ [c]; nextObject := nextObject app |}.

Definition setPosition (chapter page : Z) (app : App) : App :=
  {| currentBook := currentBook app; currentChapter := chapter;
     currentPage := page; totalPages := totalPages app;
     chapters := chapters app; isLargeFile := isLargeFile app;
     epubHandler := epubHandler app; pdfHandler := pdfHandler app;
     chaptersList := chaptersList app; documentContainer := documentContainer app;
     calls := calls app; nextObject := nextObject app |}.

Definition setChaptersList (items : list ListItem) (app : App) : App :=
  {| currentBook := currentBook app; currentChapter := currentChapter app;
     currentPage := currentPage app; totalPages := totalPages app;
     chapters := chapters app; isLargeFile := isLargeFile app;
     epubHandler := epubHandler app; pdfHandler := pdfHandler app;
     chaptersList := items; documentContainer := documentContainer app;
     calls := calls app; nextObject := nextObject app |}.

Definition setContainer (content : Container) (app : App) : App :=
  {| currentBook := currentBook app; currentChapter := currentChapter app;
     currentPage := currentPage app; totalPages := totalPages app;
     chapters := chapters app; isLargeFile := isLargeFile app;
     epubHandler := epubHandler app; pdfHandler := pdfHandler app;
     chaptersList := chaptersList app; documentContainer := Some content;
     calls := calls app; nextObject := nextObject app |}.

(** [this.chapters[index]] *)
Definition chapterAt (app : App) (index : Z) : option Chapter :=
  if index <? 0 then None else chapters app !! Z.to_nat index.

(** *** Rendering the current unit *)

(** [renderCurrentChapter], lines 154-160. *)
Definition renderCurrentChapter (r : Rendering) (app : App) : Result :=
  match epubHandler app, chapterAt app (currentChapter app) with
  | Some handler, Some _ =>
      let app' := record (RenderChapterCall handler (currentChapter app)) app in
      match r with
      | Painted content =>
          Done (setContainer (EpubContent content) app')
      | RenderThrew => Raised app'
      end
  | _, _ => Done app
  end.

(** [renderCurrentPage], lines 162-168. *)
Definition renderCurrentPage (r : Rendering) (app : App) : Result :=
  match pdfHandler app with
  | Some handler =>
      let app' := record (RenderPageCall handler (currentPage app)) app in
      match r with
      | Painted content => Done (setContainer (PageContent content) app')
      | RenderThrew => Raised app'
      end
  | None => Done app
  end.

(** [renderCurrentContent], lines 332-338. *)
Definition renderCurrentContent (r : Rendering) (app : App) : Result :=
  match currentBook app with
  | None => Raised app
  | Some file =>
      if String.eqb (extension file) ".epub" then renderCurrentChapter r app
      else if String.eqb (extension file) ".pdf" then renderCurrentPage r app
      else Done app
  end.

(** *** The chapter list *)

(** [chapter.title || `Chapter ${index + 1}`] *)
Definition itemText (app : App) (index : Z) : string :=
  match chapterAt app index with
  | Some chapter =>
      match title chapter with
      | EmptyString => "Chapter " +:+ showZ (index + 1)
      | t => t
      end
  | None => "Chapter " +:+ showZ (index + 1)
  end.

Definition chapterItem (app : App) (index : Z) : ListItem :=
  ChapterItem index (index =? currentChapter app) (itemText app index).

Definition beforeText (n : Z) : string := "... (" +:+ showZ n +:+ " chapters before)".
Definition afterText (n : Z) : string := "... (" +:+ showZ n +:+ " chapters after)".

(** The condition of line 196. *)
Definition virtualized (app : App) : bool :=
  default false (isLargeFile app) && (100 <? len (chapters app)).

(** [updateChaptersList], lines 191-243: the new children of the list. *)
Definition updateChaptersList (app : App) : list ListItem :=
  let n := len (chapters app) in
  if virtualized app then
    let maxVisible := 50 in
    let start := Z.max 0 (currentChapter app - 25) in
    let end_ := Z.min n (start + maxVisible) in
    (if 0 <? start then [JumpStart (beforeText start) (0, 50)] else []) ++
    (chapterItem app <$> seqZ start (end_ - start)) ++
    (if end_ <? n then [JumpEnd (afterText (n - end_)) (end_, Z.min n (end_ + 50))] else []) ++
    [Counter ("Showing " +:+ showZ (end_ - start) +:+ " of " +:+ showZ n +:+ " chapters")]
  else
    chapterItem app <$> seqZ 0 n.

(** [showChapterRange], lines 245-274.  With a negative [start] and a loop
    that runs, [this.chapters[start]] is [undefined] and line 263 raises a
    [TypeError]. *)
Definition showChapterRange (start end_ : Z) (app : App) : Outcome (list ListItem) :=
  let n := len (chapters app) in
  if (start <? 0) && (start <? end_) && (start <? n) then Throw "TypeError"
  else
    Ok ((if 0 <? start then [JumpStart (beforeText start) (Z.max 0 (start - 50), start)] else []) ++
        (chapterItem app <$> seqZ start (Z.min end_ n - start)) ++
        (if end_ <? n then [JumpEnd (afterText (n - end_)) (end_, Z.min n (end_ + 50))] else [])).

(** Clicking an item of the list: a jump item calls [showChapterRange]. *)
Definition activate (item : ListItem) (app : App) : option (Outcome (list ListItem)) :=
  match item with
  | JumpStart _ (a, b) | JumpEnd _ (a, b) => Some (showChapterRange a b app)
  | _ => None
  end.

(** The chapter indices listed, in order: the displayed window. *)
Definition window (items : list ListItem) : list Z :=
  omap (fun item => match item with ChapterItem i _ _ => Some i | _ => None end) items.

(** The window displayed after a click on [item], when the click calls
    [showChapterRange] and that call returns. *)
Definition clickWindow (item : option ListItem) (app : App) : option (list Z) :=
  match item ≫= (fun i => activate i app) with
  | Some (Ok items) => Some (window items)
  | _ => None
  end.

(** The leading and the trailing affordance of a list, when present. *)
Definition leading (items : list ListItem) : option ListItem :=
  head (omap (fun item => match item with JumpStart _ _ => Some item | _ => None end) items).

Definition trailing (items : list ListItem) : option ListItem :=
  head (omap (fun item => match item with JumpEnd _ _ => Some item | _ => None end) items).

(** *** Opening a file *)

(** [loadEpub], lines 102-136, with [bookData] the descriptor the awaited
    [loadBook] returned.  [window.EpubHandler] is taken to be defined. *)
Definition loadEpub (bookData : BookData) (r : Rendering) (app : App) : Result :=
  let app1 := match epubHandler app with
              | Some old => record (DestroyCall old) app
              | None => app
              end in
  let handler := nextObject app1 in
  let app2 := record (LoadBookCall handler) (record (NewEpubHandler handler) app1) in
  renderCurrentChapter r
    {| currentBook := currentBook app2; currentChapter := 0; currentPage := 1;
       totalPages := bdTotalPages bookData; chapters := bdChapters bookData;
       isLargeFile := bdIsLargeFile bookData;
       epubHandler := Some handler; pdfHandler := pdfHandler app2;
       chaptersList := chaptersList app2; documentContainer := documentContainer app2;
       calls := calls app2; nextObject := S handler |}.

(** [loadPdf], lines 138-152.  The array [bookData.chapters] is truthy
    whatever its length, so the alternative of line 143 is never taken. *)
Definition loadPdf (bookData : BookData) (r : Rendering) (app : App) : Result :=
  let handler := nextObject app in
  let app2 := record (LoadBookCall handler) (record (NewPdfHandler handler) app) in
  renderCurrentPage r
    {| currentBook := currentBook app2; currentChapter := 0; currentPage := 1;
       totalPages := bdTotalPages bookData; chapters := bdChapters bookData;
       isLargeFile := isLargeFile app2;
       epubHandler := epubHandler app2; pdfHandler := Some handler;
       chaptersList := chaptersList app2; documentContainer := documentContainer app2;
       calls := calls app2; nextObject := S handler |}.

Definition setCurrentBook (file : FileData) (app : App) : App :=
  {| currentBook := Some file; currentChapter := currentChapter app;
     currentPage := currentPage app; totalPages := totalPages app;
     chapters := chapters app; isLargeFile := isLargeFile app;
     epubHandler := epubHandler app; pdfHandler := pdfHandler app;
     chaptersList := chaptersList app; documentContainer := documentContainer app;
     calls := calls app; nextObject := nextObject app |}.

(** [updateUI], lines 170-189, as far as the chapter list goes. *)
Definition updateUI (app : App) : App := setChaptersList (updateChaptersList app) app.

(** [openFile], lines 71-100, for a file the dialog returned.  The handler
    of line 95 reports the error and leaves the fields as they are. *)
Definition openFile (file : FileData) (bookData : BookData) (r : Rendering) (app : App) : App :=
  let app1 := setCurrentBook file app in
  let loaded :=
    if String.eqb (extension file) ".epub" then loadEpub bookData r app1
    else if String.eqb (extension file) ".pdf" then loadPdf bookData r app1
    else Raised app1 in
  match loaded with
  | Done app2 => updateUI app2
  | Raised app2 => app2
  end.

(** The adapter that serves the current document. *)
Definition activeHandler (app : App) : option nat :=
  match currentBook app with
  | None => None
  | Some file =>
      if String.eqb (extension file) ".epub" then epubHandler app
      else if String.eqb (extension file) ".pdf" then pdfHandler app
      else None
  end.

(** *** Navigation *)

(** [goToChapter], lines 317-330.  [pageStart] is tested for truthiness:
    an absent one and zero leave [currentPage] alone. *)
Definition goToChapter (r : Rendering) (chapterIndex : Z) (app : App) : Result :=
  if (0 <=? chapterIndex) && (chapterIndex <? len (chapters app)) then
    let app1 := setPosition chapterIndex (currentPage app) app in
    let app2 :=
      match chapterAt app1 chapterIndex with
      | Some chapter =>
          match pageStart chapter with
          | Some p => if p =? 0 then app1 else setPosition chapterIndex p app1
          | None => app1
          end
      | None => app1
      end in
    match renderCurrentContent r app2 with
    | Done app3 => Done (setChaptersList (updateChaptersList app3) app3)
    | Raised app3 => Raised app3
    end
  else Done app.

(** *** Paging and stepping through chapters *)

(** [this.currentPage < this.totalPages] *)
Definition beforeLastPage (app : App) : bool :=
  negb (Qle_bool (totalPages app) (inject_Z (currentPage app))).

(** [previousPage], lines 287-293; [updateNavigation] writes two labels
    and two button states, which are not modelled. *)
Definition previousPage (r : Rendering) (app : App) : Result :=
  if 1 <? currentPage app
  then renderCurrentContent r (setPosition (currentChapter app) (currentPage app - 1) app)
  else Done app.

(** [nextPage], lines 295-301. *)
Definition nextPage (r : Rendering) (app : App) : Result :=
  if beforeLastPage app
  then renderCurrentContent r (setPosition (currentChapter app) (currentPage app + 1) app)
  else Done app.

(** [previousChapter], lines 303-308. *)
Definition previousChapter (r : Rendering) (app : App) : Result :=
  if 0 <? currentChapter app
  then goToChapter r (currentChapter app - 1)
         (setPosition (currentChapter app - 1) (currentPage app) app)
  else Done app.

(** [nextChapter], lines 310-315. *)
Definition nextChapter (r : Rendering) (app : App) : Result :=
  if currentChapter app <? len (chapters app) - 1
  then goToChapter r (currentChapter app + 1)
         (setPosition (currentChapter app + 1) (currentPage app) app)
  else Done app.

(** One step of navigation from the user interface, with what the
    rendering it starts gives back. *)
Inductive NavStep :=
  | StepPreviousPage (r : Rendering)
  | StepNextPage (r : Rendering)
  | StepPreviousChapter (r : Rendering)
  | StepNextChapter (r : Rendering)
  | StepGoToChapter (r : Rendering) (chapterIndex : Z).

Definition navigate (step : NavStep) (app : App) : App :=
  stateOf
    match step with
    | StepPreviousPage r => previousPage r app
    | StepNextPage r => nextPage r app
    | StepPreviousChapter r => previousChapter r app
    | StepNextChapter r => nextChapter r app
    | StepGoToChapter r i => goToChapter r i app
    end.

End App.

(** ** The main process, [src/main.js]: settings and summaries *)
Module Main.
Import JsString.

(** [userSettings], an object used as a map from property names to
    strings. *)
Definition initialSettings : gmap string string := {[ "openaiApiKey" := EmptyString ]}.

(** The handler of [save-settings]: [{ ...userSettings, ...settings }]. *)
Definition saveSettings (settings userSettings : gmap string string) : gmap string string :=
  settings ∪ userSettings.

(** The handler of [get-settings]. *)
Definition getSettings (userSettings : gmap string string) : gmap string string :=
  userSettings.

(** What the OpenAI package does once the key has passed the check: it
    cannot be loaded, the completion returns with or without content, or
    the request throws an error with an optional [code] and a [message]. *)
Inductive ApiOutcome :=
  | PackageMissing
  | Completed (content : option string)
  | ApiError (errorCode : option string) (message : string).

(** The object the handler of [generate-summary] resolves to. *)
Inductive SummaryResult :=
  | Success (summary : string)
  | Failure (error : string).

(** The [catch] block of the handler: the message shown for an error. *)
Definition errorMessage (errorCode : option string) (message : string) : string :=
  if bool_decide (errorCode = Some "invalid_api_key")
  then "Invalid OpenAI API key. Please check your API key in Settings."
  else if bool_decide (errorCode = Some "insufficient_quota")
  then "OpenAI API quota exceeded. Please check your OpenAI account billing."
  else if includes "network" message || includes "fetch" message
  then "Network error. Please check your internet connection."
  else message.

(** The handler of [generate-summary]; [apiKey] is [None] when the
    request carries none. *)
Definition generateSummary (api : ApiOutcome) (text : string) (apiKey : option string)
  : SummaryResult :=
  match apiKey with
  | None => Failure (errorMessage None "OpenAI API key is required")
  | Some key =>
      if String.eqb key EmptyString || String.eqb (trim key) EmptyString
      then Failure (errorMessage None "OpenAI API key is required")
      else
        match api with
        | PackageMissing =>
            Failure (errorMessage None
              "OpenAI package is required for AI-powered summaries. Please ensure it is installed.")
        | Completed (Some (String c rest)) => Success (String c rest)
        | Completed _ => Success "No summary generated"
        | ApiError errorCode message => Failure (errorMessage errorCode message)
        end
  end.

End Main.

(** ** Settings and summaries in the renderer, [src/renderer.js] *)
Module Session.
Import JsString.

(** Messages shown through [alert]. *)
Inductive Alert :=
  | Message (text : string)
  | ErrorAlert (text : string).

(** The application with what the settings and summary code uses:
    [this.settings], the value of the key input of the settings dialog,
    whether the dialog and the summary panel are hidden, and two
    book-keeping fields: the requests sent to [generate-summary] and the
    alerts shown, in order. *)
Record Session := mkSession {
  app            : App.App;
  settings       : gmap string string;
  keyInput       : string;
  settingsHidden : bool;
  summaryHidden  : bool;
  requests       : list (string * option string);
  alerts         : list Alert
}.

Definition withModal (hidden : bool) (s : Session) : Session :=
  {| app := app s; settings := settings s; keyInput := keyInput s;
     settingsHidden := hidden; summaryHidden := summaryHidden s;
     requests := requests s; alerts := alerts s |}.

Definition withPanel (hidden : bool) (s : Session) : Session :=
  {| app := app s; settings := settings s; keyInput := keyInput s;
     settingsHidden := settingsHidden s; summaryHidden := hidden;
     requests := requests s; alerts := alerts s |}.

Definition alert (a : Alert) (s : Session) : Session :=
  {| app := app s; settings := settings s; keyInput := keyInput s;
     settingsHidden := settingsHidden s; summaryHidden := summaryHidden s;
     requests := requests s; alerts := alerts s ++ [a] |}.

(** [this.settings.openaiApiKey || ''] *)
Definition storedKey (s : Session) : string :=
  default EmptyString (settings s !! "openaiApiKey").

(** [openSettings], lines 341-344. *)
Definition openSettings (s : Session) : Session :=
  {| app := app s; settings := settings s; keyInput := storedKey s;
     settingsHidden := false; summaryHidden := summaryHidden s;
     requests := requests s; alerts := alerts s |}.

(** [closeSettings], lines 346-348, and [closeSummary], lines 419-421. *)
Definition closeSettings (s : Session) : Session := withModal true s.
Definition closeSummary (s : Session) : Session := withPanel true s.

(** [saveSettings], lines 350-363, against the settings of the main
    process; [ipcOk] tells whether the call to [save-settings] returns. *)
Definition saveSettings (ipcOk : bool) (st : Session * gmap string string)
  : Session * gmap string string :=
  let (s, userSettings) := st in
  let apiKey := trim (keyInput s) in
  let s1 := {| app := app s; settings := <["openaiApiKey" := apiKey]> (settings s);
               keyInput := keyInput s; settingsHidden := settingsHidden s;
               summaryHidden := summaryHidden s; requests := requests s;
               alerts := alerts s |} in
  if ipcOk
  then (alert (Message "Settings saved successfully!") (closeSettings s1),
        Main.saveSettings (settings s1) userSettings)
  else (alert (ErrorAlert "Failed to save settings") s1, userSettings).

(** [loadSettings], lines 20-27; [None] is a call that fails. *)
Definition loadSettings (answer : option (gmap string string)) (s : Session) : Session :=
  {| app := app s; settings := default ∅ answer; keyInput := keyInput s;
     settingsHidden := settingsHidden s; summaryHidden := summaryHidden s;
     requests := requests s; alerts := alerts s |}.

(** The text [generateSummary] asks the adapter for (lines 389-396): what
    the awaited [getChapterText] / [getPageText] gave, used when the
    document is an EPUB or a PDF with its adapter in place. *)
Definition chapterContent (text : Outcome string) (s : Session) : Outcome string :=
  match App.currentBook (app s) with
  | None => Ok EmptyString
  | Some file =>
      if String.eqb (App.extension file) ".epub" && bool_decide (is_Some (App.epubHandler (app s)))
      then text
      else if String.eqb (App.extension file) ".pdf"
              && bool_decide (is_Some (App.pdfHandler (app s)))
      then text
      else Ok EmptyString
  end.

(** [generateSummary], lines 366-417, up to the request; what is shown in
    the panel afterwards is not modelled. *)
Definition generateSummary (text : Outcome string) (s : Session) : Session :=
  match settings s !! "openaiApiKey" with
  | None | Some EmptyString =>
      openSettings (alert (Message "Please set your OpenAI API key in Settings first.") s)
  | Some key =>
      if bool_decide (App.currentBook (app s) = None) || (len (App.chapters (app s)) =? 0)
      then alert (ErrorAlert "No book loaded or no chapters available") s
      else
        let s1 := withPanel false s in
        match chapterContent text s1 with
        | Throw _ => s1
        | Ok content =>
            {| app := app s1; settings := settings s1; keyInput := keyInput s1;
               settingsHidden := settingsHidden s1; summaryHidden := summaryHidden s1;
               requests := requests s1 ++ [(content, Some key)]; alerts := alerts s1 |}
        end
  end.

End Session.

(** ** The keyboard handler, [keyboard-handler.js] *)
Module Keyboard.

(** The properties of a keyboard event the handler reads. *)
Record KeyEvent := mkKeyEvent {
  code     : string;
  key      : string;
  ctrlKey  : bool;
  metaKey  : bool;
  shiftKey : bool
}.

(** [document.activeElement], as far as the handler looks at it: its
    [tagName] and whether its [contentEditable] is the string [true]. *)
Record Focus := mkFocus {
  tagName         : string;
  contentEditable : bool
}.

(** The method of the application a key press ends in. *)
Inductive Command :=
  | PreviousPage
  | NextPage
  | NextChapter
  | PreviousChapter
  | GenerateSummary
  | CloseSettings
  | CloseSummary
  | OpenFile.

Definition handledKeys : list string :=
  ["ArrowLeft"; "ArrowRight"; "ArrowUp"; "ArrowDown"; "KeyS"; "Escape"; "Enter"; "Space"].

(** [shouldHandleKey], lines 25-54. *)
Definition shouldHandleKey (focus : option Focus) (event : KeyEvent) (s : Session.Session)
  : bool :=
  match focus with
  | Some f =>
      if String.eqb (tagName f) "INPUT" || String.eqb (tagName f) "TEXTAREA"
         || contentEditable f
      then false
      else
        if negb (Session.settingsHidden s) && negb (String.eqb (key event) "Escape")
        then false
        else bool_decide (code event ∈ handledKeys) || bool_decide (key event ∈ handledKeys)
  | None =>
      if negb (Session.settingsHidden s) && negb (String.eqb (key event) "Escape")
      then false
      else bool_decide (code event ∈ handledKeys) || bool_decide (key event ∈ handledKeys)
  end.

(** [isModalOpen], lines 172-175. *)
Definition isModalOpen (s : Session.Session) : bool :=
  negb (Session.settingsHidden s) || negb (Session.summaryHidden s).

Definition hasBook (s : Session.Session) : bool :=
  bool_decide (is_Some (App.currentBook (Session.app s))).

(** [handleKeyPress], lines 56-98, with the handlers it calls (lines
    100-170): the method of the application that ends up called, if any. *)
Definition handleKeyPress (event : KeyEvent) (s : Session.Session) : option Command :=
  let selector := match code event with
                  | EmptyString => key event
                  | c => c
                  end in
  if String.eqb selector "ArrowLeft" then (if hasBook s then Some PreviousPage else None)
  else if String.eqb selector "ArrowRight" then (if hasBook s then Some NextPage else None)
  else if String.eqb selector "ArrowUp" then (if hasBook s then Some NextChapter else None)
  else if String.eqb selector "ArrowDown" then (if hasBook s then Some PreviousChapter else None)
  else if String.eqb selector "KeyS" then
    (if negb (ctrlKey event) && negb (metaKey event) && hasBook s && negb (isModalOpen s)
     then Some GenerateSummary else None)
  else if String.eqb selector "Escape" then
    (if negb (Session.settingsHidden s) then Some CloseSettings
     else if negb (Session.summaryHidden s) then Some CloseSummary
     else None)
  else if String.eqb selector "Enter" then
    (if (ctrlKey event || metaKey event) && negb (isModalOpen s) then Some OpenFile else None)
  else if String.eqb selector "Space" then
    (if negb (isModalOpen s) && hasBook s
     then Some (if shiftKey event then PreviousPage else NextPage)
     else None)
  else None.

(** The [keydown] listener, lines 9-15: whether the default action is
    prevented, and the method called. *)
Definition keydown (focus : option Focus) (event : KeyEvent) (s : Session.Session)
  : bool * option Command :=
  if shouldHandleKey focus event s then (true, handleKeyPress event s) else (false, None).

End Keyboard.

(** ** Reference definitions used in the statements *)
Module Reference.

(** The step factor as the specification words it: 3 below 50 chapters,
    2 from 50 to 100, 1.5 above 100. *)
Definition specFactor (n : Z) : Q :=
  if n <? 50 then 3%Q else if n <=? 100 then 2%Q else (3 # 2)%Q.

(** The step factor the three branches of [estimateTotalPages] use. *)
Definition branchFactor (n : Z) : Q :=
  if 100 <? n then (3 # 2)%Q else if 50 <? n then 2%Q else 3%Q.

(** An adapter as [loadBook] leaves it for a book whose table of contents
    has [n] entries. *)
Definition epubWithToc (n : nat) : Epub.EpubHandler :=
  snd (Epub.loadBook
         (Epub.Opened 1 (Epub.NavLoaded
            (replicate n {| Epub.tocLabel := Some "Part"; Epub.tocHref := Some "part.xhtml";
                            Epub.tocId := None |}) None))
         Epub.constructor).

(** [tiles first last cs]: the page ranges of [cs], in order, are
    non-empty, start at [first], each begin one page after the previous
    one ends, and the last one ends at [last]. *)
Fixpoint tiles (first last : Z) (cs : list Chapter) : Prop :=
  match cs with
  | [] => first = last + 1
  | c :: rest =>
      exists b, pageStart c = Some first /\ pageEnd c = Some b /\ first <= b /\
                tiles (b + 1) last rest
  end.

(** Number of pages of a chapter's range. *)
Definition rangeSize (c : Chapter) : Z :=
  default 0 (pageEnd c) - default 0 (pageStart c) + 1.

(** [sized size cs]: every range but the last has [size] pages, the last
    has at most [size]. *)
Fixpoint sized (size : Z) (cs : list Chapter) : Prop :=
  match cs with
  | [] => True
  | [c] => rangeSize c <= size
  | c :: rest => rangeSize c = size /\ sized size rest
  end.

(** A PDF adapter on a document of [n] pages. *)
Definition pdfWithPages (n : Z) : Pdf.PdfHandler :=
  snd (Pdf.loadBook (Pdf.Opened 1 n) Pdf.constructor).

(** *** Elements in markup *)

(** Equality of two strings up to the case of ASCII letters. *)
Definition ciEq (a b : string) : Prop :=
  JsString.mapChars JsString.lower a = JsString.mapChars JsString.lower b.

Definition noGt (s : string) : bool :=
  JsString.allChars (fun c => negb (Ascii.eqb c ">")) s.

Definition oneLine (s : string) : bool :=
  JsString.allChars (fun c => negb (JsString.isLineTerminator c)) s.

Definition blank (s : string) : bool := JsString.allChars JsString.isSpace s.

(** An element named [tag]: an opening tag with any attributes, any
    content, and the closing tag. *)
Inductive Element (tag : string) : string -> Prop :=
  | element (opener attrs body closer : string) :
      ciEq opener (JsString.openTag tag) -> noGt attrs = true ->
      ciEq closer (JsString.closeTag tag) ->
      Element tag (opener +:+ attrs +:+ ">" +:+ body +:+ closer).

(** An element whose content holds no line terminator. *)
Inductive OneLineElement (tag : string) : string -> Prop :=
  | oneLineElement (opener attrs body closer : string) :
      ciEq opener (JsString.openTag tag) -> noGt attrs = true -> oneLine body = true ->
      ciEq closer (JsString.closeTag tag) ->
      OneLineElement tag (opener +:+ attrs +:+ ">" +:+ body +:+ closer).


(** [Cut tag s out]: [out] is [s] read from left to right with elements
    named [tag] cut out.  What is cut where an element starts is that
    element up to its first closing tag, and nothing more; where an element
    starts whose content holds no line terminator, it is cut; every other
    code unit is kept, in order. *)
Inductive Cut (tag : string) : string -> string -> Prop :=
  | cut_end : Cut tag EmptyString EmptyString
  | cut_keep (c : ascii) (s out : string) :
      (forall el rest, OneLineElement tag el -> String c s <> el +:+ rest) ->
      Cut tag s out -> Cut tag (String c s) (String c out)
  | cut_drop (el s out : string) :
      Element tag el ->
      (forall el' rest, Element tag el' -> el +:+ s = el' +:+ rest ->
                        (String.length el <= String.length el')%nat) ->
      Cut tag s out -> Cut tag (el +:+ s) out.

(** One [Cut] per tag, in the order of the list. *)
Fixpoint CutEach (tags : list string) (s out : string) : Prop :=
  match tags with
  | [] => s = out
  | tag :: rest => exists mid, Cut tag s mid /\ CutEach rest mid out
  end.

(** [out] is [s] without the white space at its two ends: what is taken
    off is white space, and [out] neither begins nor ends with a
    white-space code unit. *)
Definition Trimmed (s out : string) : Prop :=
  exists before after,
    s = before +:+ out +:+ after /\ blank before = true /\ blank after = true /\
    (forall c rest, out = String c rest -> JsString.isSpace c = false) /\
    (forall front c, out = front +:+ String c EmptyString -> JsString.isSpace c = false).




(** A fresh EPUB adapter in a browser without resources. *)
Definition freshEpub : Epub.State :=
  ({| liveUrls := ∅; closedDocs := [] |}, Epub.constructor).

(** Page numbers are 1-based: a chapter that carries a [pageStart]
    carries one that is at least 1. *)
Definition pageStartValid (c : Chapter) : Prop :=
  match pageStart c with
  | Some p => 1 <= p
  | None => True
  end.

#[global] Instance pageStartValid_dec (c : Chapter) : Decision (pageStartValid c).
Proof. unfold pageStartValid. destruct (pageStart c); apply _. Defined.

(** Two PDF files opened one after the other from a fresh application,
    and an EPUB with 300 table-of-contents entries opened and moved to
    chapter 150. *)
Definition pdfDescriptor (n : Z) : BookData :=
  fst (Pdf.loadBook (Pdf.Opened 1 n) Pdf.constructor).

Definition epubDescriptor (n : nat) : BookData :=
  fst (Epub.loadBook
         (Epub.Opened 1 (Epub.NavLoaded
            (replicate n {| Epub.tocLabel := Some "Part"; Epub.tocHref := Some "part.xhtml";
                            Epub.tocId := None |}) None))
         Epub.constructor).

Definition afterFirstPdf : App.App :=
  App.openFile {| App.name := "first.pdf"; App.extension := ".pdf" |}
               (pdfDescriptor 45) (App.Painted "page") App.constructor.

Definition afterSecondPdf : App.App :=
  App.openFile {| App.name := "second.pdf"; App.extension := ".pdf" |}
               (pdfDescriptor 12) (App.Painted "page") afterFirstPdf.

Definition afterEpubThenPdf : App.App :=
  App.openFile {| App.name := "second.pdf"; App.extension := ".pdf" |}
               (pdfDescriptor 12) (App.Painted "page")
               (App.openFile {| App.name := "first.epub"; App.extension := ".epub" |}
                             (epubDescriptor 5) (App.Painted "chapter") App.constructor).

Definition afterTwoEpubs : App.App :=
  App.openFile {| App.name := "second.epub"; App.extension := ".epub" |}
               (epubDescriptor 3) (App.Painted "chapter")
               (App.openFile {| App.name := "first.epub"; App.extension := ".epub" |}
                             (epubDescriptor 5) (App.Painted "chapter") App.constructor).

Definition longEpubAt150 : App.App :=
  App.stateOf
    (App.goToChapter (App.Painted "chapter") 150
       (App.openFile {| App.name := "long.epub"; App.extension := ".epub" |}
                     (epubDescriptor 300) (App.Painted "chapter") App.constructor)).

End Reference.

(** ** Further definitions used in the statements *)
Module Props.

(** *** Normalised text *)

Definition startsWithSpace (s : string) : bool :=
  match s with
  | String c _ => JsString.isSpace c
  | EmptyString => false
  end.

Fixpoint endsWithSpace (s : string) : bool :=
  match s with
  | EmptyString => false
  | String c EmptyString => JsString.isSpace c
  | String _ rest => endsWithSpace rest
  end.

(** No two white-space code units stand side by side. *)
Fixpoint noDoubleSpace (s : string) : bool :=
  match s with
  | EmptyString => true
  | String a rest => negb (JsString.isSpace a && startsWithSpace rest) && noDoubleSpace rest
  end.

(** Every white-space code unit is the space character. *)
Definition onlyPlainSpaces (s : string) : bool :=
  JsString.allChars (fun c => negb (JsString.isSpace c) || Ascii.eqb c " ") s.

(** White space occurs only as single spaces between other code units. *)
Definition normalised (s : string) : bool :=
  onlyPlainSpaces s && noDoubleSpace s && negb (startsWithSpace s) && negb (endsWithSpace s).

(** *** Search results read off the cache *)

(** The hit of page [n], if its cached text holds the query. *)
Definition pageHit (query : string) (cache : gmap Z string) (n : Z) : option Pdf.PageHit :=
  match cache !! n with
  | Some pageText =>
      if JsString.includes (JsString.toLowerCase query) (JsString.toLowerCase pageText)
      then Some {| Pdf.hitPage := n;
                   Pdf.hitExcerpt :=
                     Excerpt.extractExcerpt pageText query Excerpt.defaultContext |}
      else None
  | None => None
  end.

Definition pageHits (query : string) (cache : gmap Z string) (total : Z) : list Pdf.PageHit :=
  omap (pageHit query cache) (seqZ 1 total).

Definition chapterHit (query : string) (cs : list Chapter) (cache : gmap Z string) (i : Z)
  : option Epub.ChapterHit :=
  match cache !! i with
  | Some chapterText =>
      if JsString.includes (JsString.toLowerCase query) (JsString.toLowerCase chapterText)
      then Some {| Epub.hitChapter := i;
                   Epub.hitTitle := default EmptyString (title <$> cs !! Z.to_nat i);
                   Epub.hitExcerpt :=
                     Excerpt.extractExcerpt chapterText query Excerpt.defaultContext |}
      else None
  | None => None
  end.

Definition chapterHits (query : string) (cs : list Chapter) (cache : gmap Z string)
  : list Epub.ChapterHit :=
  omap (chapterHit query cs cache) (seqZ 0 (len cs)).

(** Every key of [keys] has an entry in the cache. *)
Definition allCached (cache : gmap Z string) (keys : list Z) : Prop :=
  Forall (fun k => is_Some (cache !! k)) keys.

(** *** The chapter list *)

(** The chapter indices of the items marked [active]. *)
Definition activeItems (items : list App.ListItem) : list Z :=
  omap (fun item => match item with
                    | App.ChapterItem i true _ => Some i
                    | _ => None
                    end) items.

(** *** Navigation state *)

(** A chapter's [pageStart], when it has one, is a page of the document. *)
Definition pageStartWithin (total : Z) (c : Chapter) : Prop :=
  match pageStart c with
  | Some p => 1 <= p <= total
  | None => True
  end.

(** The invariant of the navigation state for a document of [total]
    pages: the page count is that integer, the current page is one of its
    pages, the current chapter is a chapter of the list, and every
    [pageStart] is a page of the document. *)
Definition navReady (total : Z) (app : App.App) : Prop :=
  (App.totalPages app == inject_Z total)%Q /\
  1 <= App.currentPage app <= total /\
  0 <= App.currentChapter app < len (App.chapters app) /\
  Forall (pageStartWithin total) (App.chapters app).

(** A rendering call asks for a page of the document, or for a chapter of
    the list. *)
Definition callInRange (total : Z) (app : App.App) (c : App.Call) : Prop :=
  match c with
  | App.RenderPageCall _ p => 1 <= p <= total
  | App.RenderChapterCall _ i => 0 <= i < len (App.chapters app)
  | _ => True
  end.

(** What one step of navigation from [app] to [app'] keeps and adds. *)
Definition stepOutcome (total : Z) (app app' : App.App) : Prop :=
  navReady total app' /\
  App.chapters app' = App.chapters app /\
  App.totalPages app' = App.totalPages app /\
  exists new, App.calls app' = App.calls app ++ new /\ Forall (callInRange total app) new.

(** A sequence of navigation steps, first to last. *)
Definition navigateAll (steps : list App.NavStep) (app : App.App) : App.App :=
  foldl (fun a step => App.navigate step a) app steps.

(** *** Keyboard commands *)

(** The focus is in a field the user types in. *)
Definition typing (focus : Keyboard.Focus) : Prop :=
  Keyboard.tagName focus = "INPUT" \/ Keyboard.tagName focus = "TEXTAREA"
  \/ Keyboard.contentEditable focus = true.

Definition notTyping (focus : option Keyboard.Focus) : Prop :=
  match focus with
  | Some f => ~ typing f
  | None => True
  end.

(** What must hold of the event and the session for a key press to end in
    a given method. *)
Definition commandAllowed (event : Keyboard.KeyEvent) (s : Session.Session)
    (cmd : Keyboard.Command) : Prop :=
  match cmd with
  | Keyboard.PreviousPage | Keyboard.NextPage
  | Keyboard.NextChapter | Keyboard.PreviousChapter => Keyboard.hasBook s = true
  | Keyboard.GenerateSummary =>
      Keyboard.hasBook s = true /\ Keyboard.ctrlKey event = false /\
      Keyboard.metaKey event = false /\
      Session.settingsHidden s = true /\ Session.summaryHidden s = true
  | Keyboard.CloseSettings => Session.settingsHidden s = false
  | Keyboard.CloseSummary =>
      Session.settingsHidden s = true /\ Session.summaryHidden s = false
  | Keyboard.OpenFile =>
      Keyboard.ctrlKey event || Keyboard.metaKey event = true /\
      Session.settingsHidden s = true /\ Session.summaryHidden s = true
  end.

(** *** API keys *)

(** No key, or one of white space only. *)
Definition blankKey (apiKey : option string) : Prop :=
  match apiKey with
  | None => True
  | Some key => JsString.trim key = EmptyString
  end.

End Props.

(** * Properties *)

(** ** Page estimate of the EPUB adapter *)
Section EstimateTotalPages.
Import Epub Reference.

Lemma len_nonneg {A} (l : list A) : 0 <= len l.
Proof. unfold len. lia. Qed.

Lemma len_zero_nil {A} (l : list A) : len l = 0 -> l = [].
Proof. unfold len. destruct l; simpl; [reflexivity | lia]. Qed.

Lemma estimate_unfold (h : EpubHandler) :
  is_Some (book h) -> chapters h <> [] ->
  estimateTotalPages h =
    Qmax (inject_Z (len (chapters h)) * 2) (inject_Z (len (chapters h)) * branchFactor (len (chapters h))).
Proof.
  intros Hbook Hne. unfold estimateTotalPages, branchFactor.
  rewrite bool_decide_eq_true_2 by exact Hbook. simpl negb. cbv zeta.
  destruct (len (chapters h) =? 0) eqn:E.
  - apply Z.eqb_eq, len_zero_nil in E. contradiction.
  - simpl. destruct (100 <? len (chapters h)); [reflexivity |].
    destruct (50 <? len (chapters h)); reflexivity.
Qed.

(** C1 (as worded, refuted): with 150 chapters the estimate is 300, not
    150 x 1.5 = 225. *)
Lemma estimateTotalPages_not_spec_factor :
  is_Some (book (epubWithToc 150)) /\ chapters (epubWithToc 150) <> [] /\
  len (chapters (epubWithToc 150)) = 150 /\
  estimateTotalPages (epubWithToc 150) == 300 /\
  ~ estimateTotalPages (epubWithToc 150) ==
      inject_Z (len (chapters (epubWithToc 150))) * specFactor (len (chapters (epubWithToc 150))).
Proof.
  split; [eexists; reflexivity |].
  split; [discriminate |].
  split; [vm_compute; reflexivity |].
  split; [vm_compute; reflexivity |].
  intros H. vm_compute in H. discriminate H.
Qed.

(** C1 (amended): for a loaded EPUB with a non-empty chapter list the
    estimate is the larger of twice the chapter count and the chapter count
    times the branch factor (3 up to 50 chapters, 2 from 51 to 100, 1.5
    above 100); hence three times the count up to 50 chapters and twice
    the count above. *)
Theorem estimateTotalPages_base_or_step (h : EpubHandler) :
  is_Some (book h) -> chapters h <> [] ->
  let n := len (chapters h) in
  estimateTotalPages h == Qmax (inject_Z n * 2) (inject_Z n * branchFactor n) /\
  (n <= 50 -> estimateTotalPages h == inject_Z n * 3) /\
  (50 < n -> estimateTotalPages h == inject_Z n * 2).
Proof.
  intros Hbook Hne n. rewrite (estimate_unfold h Hbook Hne). fold n.
  pose proof (len_nonneg (chapters h)) as Hn. fold n in Hn.
  split; [reflexivity |]. unfold branchFactor. split; intros Hle.
  - destruct (100 <? n) eqn:E1; [apply Z.ltb_lt in E1; lia |].
    destruct (50 <? n) eqn:E2; [apply Z.ltb_lt in E2; lia |].
    apply Q.max_r. unfold Qle. simpl. lia.
  - destruct (100 <? n) eqn:E1.
    + apply Q.max_l. unfold Qle. simpl. lia.
    + destruct (50 <? n) eqn:E2; [| apply Z.ltb_ge in E2; lia].
      apply Q.max_l. apply Qle_refl.
Qed.

Lemma estimateTotalPages_base_or_step_witness :
  is_Some (book (epubWithToc 60)) /\ chapters (epubWithToc 60) <> [] /\
  estimateTotalPages (epubWithToc 60) == inject_Z 60 * 2.
Proof.
  assert (Hb : is_Some (book (epubWithToc 60))) by (eexists; reflexivity).
  assert (Hc : chapters (epubWithToc 60) <> []) by discriminate.
  split; [exact Hb |]. split; [exact Hc |].
  apply (proj2 (proj2 (estimateTotalPages_base_or_step (epubWithToc 60) Hb Hc))).
  vm_compute. reflexivity.
Defined.

Example estimate_10_chapters : estimateTotalPages (epubWithToc 10) == 30.
Proof. vm_compute. reflexivity. Qed.

Example estimate_50_chapters : estimateTotalPages (epubWithToc 50) == 150.
Proof. vm_compute. reflexivity. Qed.

Example estimate_60_chapters : estimateTotalPages (epubWithToc 60) == 120.
Proof. vm_compute. reflexivity. Qed.

Example estimate_without_book : estimateTotalPages (snd (mockLoadBook constructor)) == 1.
Proof. vm_compute. reflexivity. Qed.

End EstimateTotalPages.

(** ** Synthetic chapters of the PDF adapter *)
Section CreateChaptersFromPages.
Import Pdf Reference.

Variable total : Z.
Let size := chaptersPerSection total.

Lemma size_pos : 1 <= size.
Proof. unfold size, chaptersPerSection. lia. Qed.

Lemma sectionsFrom_done fuel i : total <= i -> sectionsFrom fuel total i = [].
Proof.
  intros Hi. destruct fuel; [reflexivity |]. simpl.
  destruct (i <? total) eqn:E; [apply Z.ltb_lt in E; lia | reflexivity].
Qed.

Lemma sectionsFrom_step fuel i :
  i < total ->
  sectionsFrom (S fuel) total i = sectionAt total i :: sectionsFrom fuel total (i + size).
Proof.
  intros Hi. simpl. destruct (i <? total) eqn:E; [reflexivity | apply Z.ltb_ge in E; lia].
Qed.

(** Once the fuel covers the pages that are left, more fuel changes
    nothing: the loop has stopped on its own condition. *)
Lemma sectionsFrom_fuel fuel extra i :
  total - i <= Z.of_nat fuel ->
  sectionsFrom (fuel + extra) total i = sectionsFrom fuel total i.
Proof.
  pose proof size_pos as Hs. revert i.
  induction fuel as [| fuel IH]; intros i Hf.
  - rewrite (sectionsFrom_done (0 + extra) i) by lia. reflexivity.
  - destruct (Z_lt_dec i total) as [Hi | Hi].
    + change (S fuel + extra)%nat with (S (fuel + extra)).
      rewrite !sectionsFrom_step by exact Hi. f_equal. apply IH. fold size. lia.
    + rewrite !sectionsFrom_done by lia. reflexivity.
Qed.

Lemma sectionsFrom_nil_inv fuel i :
  total - i <= Z.of_nat fuel -> sectionsFrom fuel total i = [] -> total <= i.
Proof.
  intros Hf H. destruct fuel; [lia |].
  destruct (Z_lt_dec i total) as [Hi | Hi]; [| lia].
  rewrite sectionsFrom_step in H by exact Hi. discriminate.
Qed.

Lemma sectionsFrom_tiles fuel i :
  0 <= i -> total - i <= Z.of_nat fuel ->
  tiles (Z.min i total + 1) total (sectionsFrom fuel total i).
Proof.
  pose proof size_pos as Hs. revert i.
  induction fuel as [| fuel IH]; intros i Hi Hf.
  - simpl. lia.
  - destruct (Z_lt_dec i total) as [Hlt | Hge].
    + rewrite sectionsFrom_step by exact Hlt. simpl. fold size.
      exists (Z.min (i + size) total).
      replace (Z.min i total + 1) with (i + 1) by lia.
      split; [reflexivity |]. split; [reflexivity |]. split; [lia |].
      apply IH; lia.
    + rewrite sectionsFrom_done by lia. simpl. lia.
Qed.

Lemma rangeSize_sectionAt i : rangeSize (sectionAt total i) = Z.min (i + size) total - i.
Proof. unfold rangeSize, sectionAt. simpl. fold size. lia. Qed.

Lemma sectionsFrom_sized fuel i :
  total - i <= Z.of_nat fuel -> sized size (sectionsFrom fuel total i).
Proof.
  pose proof size_pos as Hs. revert i.
  induction fuel as [| fuel IH]; intros i Hf; [exact I |].
  destruct (Z_lt_dec i total) as [Hlt | Hge].
  - rewrite sectionsFrom_step by exact Hlt.
    assert (Hrest : total - (i + size) <= Z.of_nat fuel) by lia.
    specialize (IH (i + size) Hrest).
    destruct (sectionsFrom fuel total (i + size)) as [| c rest] eqn:E.
    + simpl. rewrite rangeSize_sectionAt. lia.
    + assert (i + size < total).
      { destruct (Z_lt_dec (i + size) total) as [? | Hn]; [assumption |].
        rewrite sectionsFrom_done in E by lia. discriminate. }
      change (rangeSize (sectionAt total i) = size /\ sized size (c :: rest)).
      split; [rewrite rangeSize_sectionAt; lia | exact IH].
  - rewrite sectionsFrom_done by lia. exact I.
Qed.

Lemma sectionsFrom_last fuel i c :
  0 < i -> total - i <= Z.of_nat fuel ->
  last (sectionsFrom fuel total i) = Some c -> title c = "Conclusion".
Proof.
  pose proof size_pos as Hs. revert i.
  induction fuel as [| fuel IH]; intros i Hi Hf Hlast; [discriminate |].
  destruct (Z_lt_dec i total) as [Hlt | Hge].
  - rewrite sectionsFrom_step in Hlast by exact Hlt.
    destruct (sectionsFrom fuel total (i + size)) as [| d rest] eqn:E.
    + apply sectionsFrom_nil_inv in E; [| lia].
      simpl in Hlast. injection Hlast as <-.
      unfold sectionAt. simpl. fold size.
      destruct (i + 1 =? 1) eqn:E1; [apply Z.eqb_eq in E1; lia |].
      destruct (Z.min (i + size) total =? total) eqn:E2; [reflexivity |].
      apply Z.eqb_neq in E2. lia.
    + apply (IH (i + size)); [lia | lia |].
      rewrite E. rewrite last_cons_cons in Hlast. exact Hlast.
  - rewrite sectionsFrom_done in Hlast by lia. discriminate.
Qed.

Lemma sectionsFrom_count fuel i :
  len (sectionsFrom fuel total i) * size <= (if Z_lt_dec i total then total - i + size - 1 else 0).
Proof.
  pose proof size_pos as Hs. revert i.
  induction fuel as [| fuel IH]; intros i.
  - unfold len. simpl. destruct (Z_lt_dec i total); lia.
  - destruct (Z_lt_dec i total) as [Hlt | Hge].
    + rewrite sectionsFrom_step by exact Hlt.
      specialize (IH (i + size)). unfold len in *. simpl length.
      rewrite Nat2Z.inj_succ.
      destruct (Z_lt_dec (i + size) total); nia.
    + rewrite sectionsFrom_done by lia. unfold len. simpl. lia.
Qed.

Lemma sectionsFrom_at_most_13 fuel : (length (sectionsFrom fuel total 0) <= 13)%nat.
Proof.
  pose proof (sectionsFrom_count fuel 0) as H. fold size in H.
  assert (Hq : size = Z.max 1 (total / 7)) by reflexivity.
  unfold len in H. destruct (Z_lt_dec 0 total) as [Hpos | Hneg].
  - pose proof (Z.div_mod total 7 ltac:(lia)) as Hdm.
    pose proof (Z.mod_pos_bound total 7 ltac:(lia)) as Hm.
    destruct (Z_lt_dec total 7) as [Hsmall | Hbig].
    + assert (total / 7 = 0) by (apply Z.div_small; lia). nia.
    + assert (1 <= total / 7) by (apply Z.div_le_lower_bound; lia). nia.
  - pose proof size_pos. nia.
Qed.

End CreateChaptersFromPages.

Section PdfChapters.
Import Pdf Reference.

(** C4: for a document of at least one page, [createChaptersFromPages]
    returns (whatever fuel beyond [totalPages] the loop is given) a list
    whose page ranges are non-empty, contiguous, start at page 1 and end at
    [totalPages]; every range has [max 1 (totalPages / 7)] pages except the
    last, which has at most as many; the first chapter is titled
    "Introduction" and, with more than one chapter, the last is titled
    "Conclusion". *)
Theorem createChaptersFromPages_partition (h : PdfHandler) :
  1 <= totalPages h ->
  let cs := createChaptersFromPages h in
  (forall extra, sectionsFrom (Z.to_nat (totalPages h) + extra) (totalPages h) 0 = cs) /\
  tiles 1 (totalPages h) cs /\
  sized (Z.max 1 (totalPages h / 7)) cs /\
  title <$> head cs = Some "Introduction" /\
  ((1 < length cs)%nat -> title <$> last cs = Some "Conclusion").
Proof.
  intros Hpos cs. unfold cs, createChaptersFromPages.
  set (total := totalPages h) in *.
  assert (Hfuel : total - 0 <= Z.of_nat (Z.to_nat total)) by lia.
  split; [intros extra; apply sectionsFrom_fuel; exact Hfuel |].
  split.
  { pose proof (sectionsFrom_tiles total (Z.to_nat total) 0 ltac:(lia) Hfuel) as H.
    replace (Z.min 0 total + 1) with 1 in H by lia. exact H. }
  split; [apply (sectionsFrom_sized total); exact Hfuel |].
  destruct (Z.to_nat total) as [| fuel] eqn:E; [lia |].
  rewrite sectionsFrom_step by lia.
  split; [reflexivity |].
  intros Hlen.
  destruct (sectionsFrom fuel total (0 + chaptersPerSection total)) as [| c rest] eqn:Erest;
    [simpl in Hlen; lia |].
  rewrite last_cons_cons.
  destruct (last (c :: rest)) as [d |] eqn:Elast; [| apply last_None in Elast; discriminate Elast].
  simpl. f_equal.
  apply (sectionsFrom_last total fuel (0 + chaptersPerSection total)).
  - pose proof (size_pos total). lia.
  - pose proof (size_pos total). lia.
  - rewrite Erest. exact Elast.
Qed.

Lemma createChaptersFromPages_partition_witness :
  1 <= totalPages (pdfWithPages 45) /\
  tiles 1 45 (createChaptersFromPages (pdfWithPages 45)) /\
  sized 6 (createChaptersFromPages (pdfWithPages 45)).
Proof.
  assert (H : 1 <= totalPages (pdfWithPages 45)) by (vm_compute; discriminate).
  split; [exact H |].
  pose proof (createChaptersFromPages_partition (pdfWithPages 45) H) as (_ & Ht & Hs & _).
  split; [exact Ht | exact Hs].
Defined.

Example chapters_of_45_pages :
  (fun c => (title c, pageStart c, pageEnd c)) <$> createChaptersFromPages (pdfWithPages 45)
  = [("Introduction", Some 1, Some 6); ("Chapter 2", Some 7, Some 12);
     ("Chapter 3", Some 13, Some 18); ("Chapter 4", Some 19, Some 24);
     ("Chapter 5", Some 25, Some 30); ("Chapter 6", Some 31, Some 36);
     ("Chapter 7", Some 37, Some 42); ("Conclusion", Some 43, Some 45)].
Proof. vm_compute. reflexivity. Qed.

Example chapters_of_13_pages : length (createChaptersFromPages (pdfWithPages 13)) = 13%nat.
Proof. vm_compute. reflexivity. Qed.

Example chapters_of_1_page :
  (fun c => (title c, pageStart c, pageEnd c)) <$> createChaptersFromPages (pdfWithPages 1)
  = [("Introduction", Some 1, Some 1)].
Proof. vm_compute. reflexivity. Qed.

End PdfChapters.

(** ** Range check, text cache and teardown of the adapters *)
Section Adapters.

Lemma chapter_lookup_valid (cs : list Chapter) (i : Z) :
  0 <= i < len cs -> is_Some (cs !! Z.to_nat i).
Proof. unfold len. intros Hi. apply lookup_lt_is_Some. lia. Qed.

Lemma range_guard_false (lo hi i : Z) :
  lo <= i -> i <= hi -> (i <? lo) || (hi <? i) = false.
Proof.
  intros H1 H2. apply orb_false_iff. split; apply Z.ltb_ge; lia.
Qed.

Lemma range_guard_true (lo hi i : Z) :
  i < lo \/ hi < i -> (i <? lo) || (hi <? i) = true.
Proof.
  intros [H | H]; apply orb_true_iff; [left | right]; apply Z.ltb_lt; exact H.
Qed.

Lemma epub_guard_false (h : Epub.EpubHandler) (i : Z) :
  0 <= i < len (Epub.chapters h) ->
  (i <? 0) || (len (Epub.chapters h) <=? i) = false.
Proof.
  intros Hi. apply orb_false_iff. split; [apply Z.ltb_ge | apply Z.leb_gt]; lia.
Qed.

(** A cached entry is returned as it is, without a look at the library. *)
Lemma epub_cache_hit lib (h : Epub.EpubHandler) (i : Z) text :
  0 <= i < len (Epub.chapters h) -> Epub.textContent h !! i = Some text ->
  Epub.getChapterText lib i h = (Ok text, h).
Proof.
  intros Hi Hc. unfold Epub.getChapterText.
  rewrite (epub_guard_false h i Hi), Hc. reflexivity.
Qed.

Lemma pdf_cache_hit lib (h : Pdf.PdfHandler) (n : Z) text :
  1 <= n <= Pdf.totalPages h -> Pdf.textContent h !! n = Some text ->
  Pdf.getPageText lib n h = (Ok text, h).
Proof.
  intros Hn Hc. unfold Pdf.getPageText.
  rewrite range_guard_false by lia. rewrite Hc. reflexivity.
Qed.

(** Every call on a valid index returns a text and leaves it in the cache. *)
Lemma epub_text_cached lib (h : Epub.EpubHandler) (i : Z) :
  0 <= i < len (Epub.chapters h) ->
  exists text h1,
    Epub.getChapterText lib i h = (Ok text, h1) /\
    Epub.textContent h1 !! i = Some text /\
    Epub.chapters h1 = Epub.chapters h.
Proof.
  intros Hi. unfold Epub.getChapterText. rewrite (epub_guard_false h i Hi).
  destruct (Epub.textContent h !! i) as [cached |] eqn:Hc.
  { exists cached, h. auto. }
  destruct (chapter_lookup_valid _ _ Hi) as [chapter ->].
  destruct lib as [text |];
    [destruct (bool_decide (is_Some (Epub.book h)) && Epub.truthy (href chapter)) |];
    eexists _, _; (split; [reflexivity |]); simpl; (split; [apply lookup_insert_eq | reflexivity]).
Qed.

Lemma pdf_text_cached lib (h : Pdf.PdfHandler) (n : Z) :
  1 <= n <= Pdf.totalPages h ->
  exists text h1,
    Pdf.getPageText lib n h = (Ok text, h1) /\
    Pdf.textContent h1 !! n = Some text /\
    Pdf.totalPages h1 = Pdf.totalPages h.
Proof.
  intros Hn. unfold Pdf.getPageText. rewrite range_guard_false by lia.
  destruct (Pdf.textContent h !! n) as [cached |] eqn:Hc.
  { exists cached, h. auto. }
  destruct lib as [items |]; [destruct (Pdf.hasEngine h) |];
    eexists _, _; (split; [reflexivity |]); simpl; (split; [apply lookup_insert_eq | reflexivity]).
Qed.

(** C5: for a valid chapter index of the EPUB adapter and a valid page
    number of the PDF adapter, a first call of [getChapterText] /
    [getPageText] returns a text and stores it in the cache under that
    key; a second call returns that same text whatever the library would
    answer, and leaves the adapter as it was: it is served from the cache
    and extracts nothing. *)
Theorem getUnitText_second_call_cached
    (eh : Epub.EpubHandler) (i : Z) (elib1 elib2 : Epub.ExtractOutcome)
    (ph : Pdf.PdfHandler) (n : Z) (plib1 plib2 : Pdf.TextOutcome) :
  0 <= i < len (Epub.chapters eh) ->
  1 <= n <= Pdf.totalPages ph ->
  (exists text eh1,
     Epub.getChapterText elib1 i eh = (Ok text, eh1) /\
     Epub.textContent eh1 !! i = Some text /\
     Epub.getChapterText elib2 i eh1 = (Ok text, eh1)) /\
  (exists text ph1,
     Pdf.getPageText plib1 n ph = (Ok text, ph1) /\
     Pdf.textContent ph1 !! n = Some text /\
     Pdf.getPageText plib2 n ph1 = (Ok text, ph1)).
Proof.
  intros Hi Hn. split.
  - destruct (epub_text_cached elib1 eh i Hi) as (text & eh1 & Hcall & Hcache & Hcs).
    exists text, eh1. split; [exact Hcall |]. split; [exact Hcache |].
    apply epub_cache_hit; [rewrite Hcs; exact Hi | exact Hcache].
  - destruct (pdf_text_cached plib1 ph n Hn) as (text & ph1 & Hcall & Hcache & Htp).
    exists text, ph1. split; [exact Hcall |]. split; [exact Hcache |].
    apply pdf_cache_hit; [rewrite Htp; exact Hn | exact Hcache].
Qed.

Lemma getUnitText_second_call_cached_witness :
  exists text eh1,
    Epub.getChapterText (Epub.Extracted "  One   two ") 3 (Reference.epubWithToc 5)
      = (Ok text, eh1) /\
    Epub.textContent eh1 !! 3 = Some text /\
    Epub.getChapterText Epub.ExtractionFailed 3 eh1 = (Ok text, eh1).
Proof.
  refine (proj1 (getUnitText_second_call_cached
            (Reference.epubWithToc 5) 3 (Epub.Extracted "  One   two ") Epub.ExtractionFailed
            (Reference.pdfWithPages 45) 7 (Pdf.TextItems ["a"; "b"]) Pdf.TextRejected _ _)).
  - vm_compute. split; [discriminate | reflexivity].
  - vm_compute. split; discriminate.
Defined.

(** C7: for a page number below 1 or above [totalPages], [renderPage] and
    [getPageText] throw "Invalid page number" and leave the adapter, and
    so the text cache, as it was. *)
Theorem pdf_out_of_range_throws
    (h : Pdf.PdfHandler) (n : Z) (r : Pdf.RenderOutcome) (t : Pdf.TextOutcome) :
  n < 1 \/ Pdf.totalPages h < n ->
  Pdf.renderPage r n h = (Throw "Invalid page number", h) /\
  Pdf.getPageText t n h = (Throw "Invalid page number", h) /\
  Pdf.textContent (snd (Pdf.renderPage r n h)) = Pdf.textContent h /\
  Pdf.textContent (snd (Pdf.getPageText t n h)) = Pdf.textContent h.
Proof.
  intros Hn. unfold Pdf.renderPage, Pdf.getPageText.
  rewrite (range_guard_true 1 (Pdf.totalPages h) n Hn). repeat split.
Qed.

Lemma pdf_out_of_range_throws_witness :
  Pdf.renderPage Pdf.DrawFailed 46 (Reference.pdfWithPages 45)
    = (Throw "Invalid page number", Reference.pdfWithPages 45) /\
  Pdf.getPageText Pdf.TextRejected 0 (Reference.pdfWithPages 45)
    = (Throw "Invalid page number", Reference.pdfWithPages 45).
Proof.
  split.
  - apply (pdf_out_of_range_throws (Reference.pdfWithPages 45) 46 Pdf.DrawFailed Pdf.TextRejected).
    right. vm_compute. reflexivity.
  - apply (pdf_out_of_range_throws (Reference.pdfWithPages 45) 0 Pdf.DrawFailed Pdf.TextRejected).
    left. lia.
Defined.

Lemma revoke_all (w : Browser) (urls : gset string) :
  set_fold revokeObjectURL w urls
  = {| liveUrls := liveUrls w ∖ urls; closedDocs := closedDocs w |}.
Proof.
  apply (set_fold_ind_L
           (fun r X => r = {| liveUrls := liveUrls w ∖ X; closedDocs := closedDocs w |})).
  - destruct w as [live closed]. simpl. rewrite difference_empty_L. reflexivity.
  - intros x X r _ ->. unfold revokeObjectURL. simpl.
    rewrite difference_difference_l_L, (union_comm_L X {[x]}). reflexivity.
Qed.

(** C8: [destroy] of the EPUB adapter empties the text cache and the set
    of tracked blob URLs and revokes every URL that was tracked; [destroy]
    of the PDF adapter empties the text cache; on either adapter a second
    [destroy] changes nothing more, neither in the adapter nor in the
    browser: no URL is revoked and no library document is closed again. *)
Theorem destroy_clears_and_repeats (w : Browser) (eh : Epub.EpubHandler) (ph : Pdf.PdfHandler) :
  (Epub.textContent (snd (Epub.destroy (w, eh))) = ∅ /\
   Epub.imageBlobUrls (snd (Epub.destroy (w, eh))) = ∅ /\
   liveUrls (fst (Epub.destroy (w, eh))) = liveUrls w ∖ Epub.imageBlobUrls eh /\
   Epub.destroy (Epub.destroy (w, eh)) = Epub.destroy (w, eh)) /\
  (Pdf.textContent (snd (Pdf.destroy (w, ph))) = ∅ /\
   Pdf.destroy (Pdf.destroy (w, ph)) = Pdf.destroy (w, ph)).
Proof.
  split.
  - unfold Epub.destroy. rewrite revoke_all. simpl.
    split; [reflexivity |]. split; [reflexivity |].
    split; [destruct (Epub.book eh); reflexivity |].
    rewrite revoke_all.
    destruct (Epub.book eh); unfold libDestroy; simpl;
      rewrite difference_empty_L; reflexivity.
  - unfold Pdf.destroy. simpl. split; [reflexivity |].
    destruct (Pdf.pdfDocument ph); reflexivity.
Qed.

End Adapters.

(** ** The application controller *)
Section Controller.
Import App Reference.

(** *** Replacing a document *)

Lemma loadEpub_calls (bd : BookData) (r : Rendering) (app : App) (old : nat) :
  epubHandler app = Some old ->
  exists rest,
    calls (stateOf (loadEpub bd r app))
    = calls app ++ DestroyCall old :: NewEpubHandler (nextObject app)
                :: LoadBookCall (nextObject app) :: rest.
Proof.
  intros Hold. unfold loadEpub, renderCurrentChapter. rewrite Hold. simpl.
  match goal with
  | |- context [chapterAt ?a ?i] => destruct (chapterAt a i)
  end.
  - destruct r; simpl; eexists; rewrite <- !app_assoc; simpl; reflexivity.
  - simpl. eexists. rewrite <- !app_assoc. simpl. reflexivity.
Qed.

Lemma loadPdf_calls (bd : BookData) (r : Rendering) (app : App) :
  calls (stateOf (loadPdf bd r app))
  = calls app ++ [NewPdfHandler (nextObject app); LoadBookCall (nextObject app);
                  RenderPageCall (nextObject app) 1].
Proof.
  unfold loadPdf, renderCurrentPage. simpl.
  destruct r; simpl; rewrite <- !app_assoc; reflexivity.
Qed.

(** C2 (the code at the failing input): two PDF files opened in a row.
    The first load makes adapter 0 the active one; the second load creates
    and loads adapter 1 and no [destroy] is called, on adapter 0 or on any
    other; likewise when a PDF replaces an EPUB.  When an EPUB replaces an
    EPUB, [destroy] is called on the previous adapter before the [new]. *)
Theorem loadPdf_skips_destroy :
  activeHandler afterFirstPdf = Some O /\
  activeHandler afterSecondPdf = Some 1%nat /\
  calls afterSecondPdf
  = [NewPdfHandler 0; LoadBookCall 0; RenderPageCall 0 1;
     NewPdfHandler 1; LoadBookCall 1; RenderPageCall 1 1] /\
  calls afterEpubThenPdf
  = [NewEpubHandler 0; LoadBookCall 0; RenderChapterCall 0 0;
     NewPdfHandler 1; LoadBookCall 1; RenderPageCall 1 1] /\
  calls afterTwoEpubs
  = [NewEpubHandler 0; LoadBookCall 0; RenderChapterCall 0 0;
     DestroyCall 0; NewEpubHandler 1; LoadBookCall 1; RenderChapterCall 1 0].
Proof. repeat split; vm_compute; reflexivity. Qed.

(** *** The chapter list *)

Lemma window_app (l1 l2 : list ListItem) : window (l1 ++ l2) = window l1 ++ window l2.
Proof. unfold window. apply omap_app. Qed.

Lemma window_chapterItems (app : App) (l : list Z) : window (chapterItem app <$> l) = l.
Proof. induction l as [| i l IH]; [reflexivity |]. simpl. f_equal. exact IH. Qed.

Lemma leading_chapterItems (app : App) (l : list Z) (rest : list ListItem) :
  leading ((chapterItem app <$> l) ++ rest) = leading rest.
Proof. induction l as [| i l IH]; [reflexivity |]. exact IH. Qed.

Lemma trailing_chapterItems (app : App) (l : list Z) (rest : list ListItem) :
  trailing ((chapterItem app <$> l) ++ rest) = trailing rest.
Proof. induction l as [| i l IH]; [reflexivity |]. exact IH. Qed.

Lemma trailing_after_jumpStart (t : string) (o : Z * Z) (rest : list ListItem) :
  trailing ([JumpStart t o] ++ rest) = trailing rest.
Proof. reflexivity. Qed.

(** What [showChapterRange] displays, and where its two affordances lead:
    back to the 50 chapters that end at [start], on to the chapters that
    begin at [end_]. *)
Lemma showChapterRange_view (start end_ : Z) (app : App) :
  0 <= start ->
  exists items,
    showChapterRange start end_ app = Ok items /\
    window items = seqZ start (Z.min end_ (len (chapters app)) - start) /\
    (0 < start ->
       leading items = Some (JumpStart (beforeText start) (Z.max 0 (start - 50), start))) /\
    (end_ < len (chapters app) ->
       trailing items
       = Some (JumpEnd (afterText (len (chapters app) - end_))
                       (end_, Z.min (len (chapters app)) (end_ + 50)))).
Proof.
  intros Hs. unfold showChapterRange.
  replace (start <? 0) with false by (symmetry; apply Z.ltb_ge; lia). simpl.
  eexists. split; [reflexivity |]. split; [| split].
  - rewrite !window_app, window_chapterItems.
    destruct (0 <? start), (end_ <? len (chapters app)); simpl;
      rewrite ?app_nil_r; reflexivity.
  - intros Hpos. apply Z.ltb_lt in Hpos. rewrite Hpos. reflexivity.
  - intros He. apply Z.ltb_lt in He. rewrite He.
    destruct (0 <? start);
      [rewrite trailing_after_jumpStart | rewrite app_nil_l];
      rewrite trailing_chapterItems; reflexivity.
Qed.

(** The list [updateChaptersList] builds for a virtualized document that
    stands beyond chapter 25: its leading affordance leads to chapters
    0 to 49 wherever the window starts. *)
Lemma updateChaptersList_leading (app : App) :
  virtualized app = true -> 25 < currentChapter app ->
  leading (updateChaptersList app)
  = Some (JumpStart (beforeText (currentChapter app - 25)) (0, 50)).
Proof.
  intros Hv Hc. unfold updateChaptersList. rewrite Hv.
  replace (Z.max 0 (currentChapter app - 25)) with (currentChapter app - 25) by lia.
  replace (0 <? currentChapter app - 25) with true by (symmetry; apply Z.ltb_lt; lia).
  reflexivity.
Qed.

(** C3 (the code at the failing input): an EPUB of 300 chapters standing
    at chapter 150.  The list shows chapters 125 to 174 with both
    affordances.  The trailing one displays chapters 175 to 224, the window
    that begins where the displayed one ends; the leading one displays
    chapters 0 to 49, not the 50 chapters 75 to 124 that end where the
    displayed window starts.  In the list that [showChapterRange] builds the
    leading affordance does lead to the 50 chapters before the window. *)
Theorem updateChaptersList_jumpStart_shows_first_50 :
  virtualized longEpubAt150 = true /\
  len (chapters longEpubAt150) = 300 /\
  currentChapter longEpubAt150 = 150 /\
  window (chaptersList longEpubAt150) = seqZ 125 50 /\
  leading (chaptersList longEpubAt150)
  = Some (JumpStart "... (125 chapters before)" (0, 50)) /\
  clickWindow (leading (chaptersList longEpubAt150)) longEpubAt150 = Some (seqZ 0 50) /\
  clickWindow (leading (chaptersList longEpubAt150)) longEpubAt150 <> Some (seqZ 75 50) /\
  clickWindow (trailing (chaptersList longEpubAt150)) longEpubAt150 = Some (seqZ 175 50) /\
  (exists items,
     showChapterRange 175 225 longEpubAt150 = Ok items /\
     clickWindow (leading items) longEpubAt150 = Some (seqZ 125 50)).
Proof.
  split; [vm_compute; reflexivity |].
  split; [vm_compute; reflexivity |].
  split; [vm_compute; reflexivity |].
  split; [vm_compute; reflexivity |].
  split; [vm_compute; reflexivity |].
  split; [vm_compute; reflexivity |].
  split; [vm_compute; discriminate |].
  split; [vm_compute; reflexivity |].
  eexists. split; vm_compute; reflexivity.
Qed.

(** *** Descriptors carry 1-based page numbers *)

Lemma sectionsFrom_pageStartValid (fuel : nat) (total i : Z) :
  0 <= i -> Forall pageStartValid (Pdf.sectionsFrom fuel total i).
Proof.
  revert i. induction fuel as [| fuel IH]; intros i Hi; [constructor |].
  simpl. destruct (i <? total); [| constructor].
  constructor.
  - unfold pageStartValid. simpl. lia.
  - apply IH. pose proof (size_pos total). lia.
Qed.

Lemma pdf_descriptor_pageStartValid (o : Pdf.LoadOutcome) (h : Pdf.PdfHandler) :
  Forall pageStartValid (bdChapters (fst (Pdf.loadBook o h))).
Proof.
  destruct o as [| | doc numPages]; simpl.
  - repeat constructor; unfold pageStartValid; simpl; lia.
  - repeat constructor; unfold pageStartValid; simpl; lia.
  - apply sectionsFrom_pageStartValid. lia.
Qed.

Lemma imap_pageStartValid {A} (f : nat -> A -> Chapter) (l : list A) :
  (forall i x, pageStartValid (f i x)) -> Forall pageStartValid (imap f l).
Proof.
  revert f. induction l as [| x l IH]; intros f Hf; [constructor |].
  simpl. constructor; [apply Hf |]. apply IH. intros i y. apply Hf.
Qed.

Lemma epub_descriptor_pageStartValid (o : Epub.LoadOutcome) (h : Epub.EpubHandler) :
  Forall pageStartValid (bdChapters (fst (Epub.loadBook o h))).
Proof.
  destruct o as [| b | b nav]; simpl.
  - repeat constructor.
  - repeat constructor.
  - destruct nav as [[| entry toc] [spineItems |] |]; simpl;
      try (repeat constructor; fail);
      try (constructor; [exact I |]);
      apply imap_pageStartValid; intros; exact I.
Qed.

(** *** Navigation *)

Lemma renderCurrentContent_position (r : Rendering) (app : App) :
  currentChapter (stateOf (renderCurrentContent r app)) = currentChapter app /\
  currentPage (stateOf (renderCurrentContent r app)) = currentPage app /\
  chapters (stateOf (renderCurrentContent r app)) = chapters app.
Proof.
  unfold renderCurrentContent, renderCurrentChapter, renderCurrentPage.
  destruct (currentBook app) as [file |]; [| auto].
  destruct (String.eqb (extension file) ".epub").
  - destruct (epubHandler app), (chapterAt app (currentChapter app)), r; auto.
  - destruct (String.eqb (extension file) ".pdf"); [| auto].
    destruct (pdfHandler app), r; auto.
Qed.

Lemma goToChapter_in_range (r : Rendering) (i : Z) (app : App) (c : Chapter) :
  0 <= i < len (chapters app) -> chapterAt app i = Some c ->
  currentChapter (stateOf (goToChapter r i app)) = i /\
  currentPage (stateOf (goToChapter r i app))
  = match pageStart c with
    | Some p => if p =? 0 then currentPage app else p
    | None => currentPage app
    end.
Proof.
  intros Hi Hc. unfold goToChapter.
  replace ((0 <=? i) && (i <? len (chapters app))) with true
    by (symmetry; apply andb_true_iff; split; [apply Z.leb_le | apply Z.ltb_lt]; lia).
  change (chapterAt (setPosition i (currentPage app) app) i) with (chapterAt app i).
  rewrite Hc.
  match goal with
  | |- context [renderCurrentContent r ?a] =>
      pose proof (renderCurrentContent_position r a) as (H1 & H2 & _);
      destruct (renderCurrentContent r a) as [app3 | app3]
  end; simpl in *; rewrite H1, H2;
    destruct (pageStart c) as [p |]; [destruct (p =? 0) | | destruct (p =? 0) |]; auto.
Qed.

(** C6: on a chapter list whose page numbers are 1-based, [goToChapter]
    with an index inside the list sets [currentChapter] to it and, when
    that chapter has a [pageStart], sets [currentPage] to it (and leaves
    [currentPage] alone when it has none), whether or not the rendering
    that follows succeeds; with an index outside the list it leaves
    [currentChapter] and [currentPage] as they were. *)
Theorem goToChapter_position (r : Rendering) (i : Z) (app : App) :
  Forall pageStartValid (chapters app) ->
  (0 <= i < len (chapters app) ->
     exists c, chapterAt app i = Some c /\
       currentChapter (stateOf (goToChapter r i app)) = i /\
       currentPage (stateOf (goToChapter r i app)) = default (currentPage app) (pageStart c)) /\
  (~ 0 <= i < len (chapters app) ->
     currentChapter (stateOf (goToChapter r i app)) = currentChapter app /\
     currentPage (stateOf (goToChapter r i app)) = currentPage app).
Proof.
  intros Hvalid. split.
  - intros Hi.
    destruct (chapter_lookup_valid (chapters app) i Hi) as [c Hc].
    assert (Hat : chapterAt app i = Some c).
    { unfold chapterAt. replace (i <? 0) with false by (symmetry; apply Z.ltb_ge; lia).
      exact Hc. }
    exists c. split; [exact Hat |].
    destruct (goToChapter_in_range r i app c Hi Hat) as [H1 H2].
    split; [exact H1 |]. rewrite H2.
    assert (Hv : pageStartValid c).
    { rewrite Forall_forall in Hvalid. apply Hvalid.
      apply list_elem_of_lookup. eexists. exact Hc. }
    unfold pageStartValid in Hv. destruct (pageStart c) as [p |]; [| reflexivity].
    simpl. replace (p =? 0) with false by (symmetry; apply Z.eqb_neq; lia). reflexivity.
  - intros Hout. unfold goToChapter.
    replace ((0 <=? i) && (i <? len (chapters app))) with false; [split; reflexivity |].
    symmetry. apply andb_false_iff.
    destruct (Z_le_dec 0 i); [right; apply Z.ltb_ge; lia | left; apply Z.leb_gt; lia].
Qed.

Lemma goToChapter_position_witness :
  Forall pageStartValid (chapters afterFirstPdf) /\
  currentChapter (stateOf (goToChapter (Painted "page") 3 afterFirstPdf)) = 3 /\
  currentPage (stateOf (goToChapter (Painted "page") 3 afterFirstPdf)) = 19 /\
  currentChapter (stateOf (goToChapter (Painted "page") 8 afterFirstPdf)) = 0.
Proof.
  assert (Hv : Forall pageStartValid (chapters afterFirstPdf)).
  { refine (bool_decide_unpack _ _). vm_compute. exact I. }
  assert (Hin : 0 <= 3 < len (chapters afterFirstPdf))
    by (vm_compute; split; [discriminate | reflexivity]).
  assert (Hout : ~ 0 <= 8 < len (chapters afterFirstPdf))
    by (vm_compute; intros [_ H]; discriminate H).
  split; [exact Hv |].
  destruct (proj1 (goToChapter_position (Painted "page") 3 afterFirstPdf Hv) Hin)
    as (c & Hc & H1 & H2).
  split; [exact H1 |].
  split; [rewrite H2; vm_compute in Hc; injection Hc as <-; reflexivity |].
  destruct (proj2 (goToChapter_position (Painted "page") 8 afterFirstPdf Hv) Hout) as [H3 _].
  rewrite H3. reflexivity.
Defined.

(** *** PDF documents and the virtualized list *)

Lemma pdf_descriptor_at_most_13 (o : Pdf.LoadOutcome) (h : Pdf.PdfHandler) :
  (length (bdChapters (fst (Pdf.loadBook o h))) <= 13)%nat.
Proof.
  destruct o as [| | doc numPages]; simpl; [lia | lia |].
  apply sectionsFrom_at_most_13.
Qed.

Lemma loadPdf_fields (bd : BookData) (r : Rendering) (app : App) :
  chapters (stateOf (loadPdf bd r app)) = bdChapters bd /\
  isLargeFile (stateOf (loadPdf bd r app)) = isLargeFile app.
Proof. unfold loadPdf, renderCurrentPage. simpl. destruct r; auto. Qed.

Lemma short_list_shown_in_full (app : App) :
  len (chapters app) <= 100 ->
  virtualized app = false /\
  updateChaptersList app = chapterItem app <$> seqZ 0 (len (chapters app)) /\
  window (updateChaptersList app) = seqZ 0 (len (chapters app)).
Proof.
  intros Hlen.
  assert (Hv : virtualized app = false).
  { unfold virtualized. replace (100 <? len (chapters app)) with false
      by (symmetry; apply Z.ltb_ge; lia). apply andb_false_r. }
  split; [exact Hv |]. unfold updateChaptersList. rewrite Hv.
  split; [reflexivity | apply window_chapterItems].
Qed.

(** C10: whatever the outcome of loading (real or mock path) and whatever
    state the adapter and the application were in, the descriptor of
    [PdfHandler.loadBook] has no [isLargeFile], its chapter list has at most
    13 entries, [loadPdf] leaves the application's [isLargeFile] as it was,
    the condition of the virtualized list is false afterwards, and
    [updateChaptersList] lists every chapter, in order, without window. *)
Theorem pdf_never_virtualized
    (o : Pdf.LoadOutcome) (h : Pdf.PdfHandler) (r : Rendering) (app : App) :
  let bd := fst (Pdf.loadBook o h) in
  let app' := stateOf (loadPdf bd r app) in
  bdIsLargeFile bd = None /\
  (length (bdChapters bd) <= 13)%nat /\
  isLargeFile app' = isLargeFile app /\
  virtualized app' = false /\
  updateChaptersList app' = chapterItem app' <$> seqZ 0 (len (chapters app')) /\
  window (updateChaptersList app') = seqZ 0 (len (chapters app')).
Proof.
  intros bd app'.
  pose proof (pdf_descriptor_at_most_13 o h) as H13. fold bd in H13.
  destruct (loadPdf_fields bd r app) as [Hcs Hflag]. fold app' in Hcs, Hflag.
  split; [destruct o; reflexivity |].
  split; [exact H13 |]. split; [exact Hflag |].
  apply short_list_shown_in_full. rewrite Hcs. unfold len. lia.
Qed.

End Controller.

(** ** Markup cleaning of the EPUB adapter *)
Section Markup.
Import JsString Reference.

Lemma string_app_cons (c : ascii) (s r : string) : String c s +:+ r = String c (s +:+ r).
Proof. reflexivity. Qed.

Lemma string_app_nil (r : string) : EmptyString +:+ r = r.
Proof. reflexivity. Qed.

Lemma string_app_nil_r (s : string) : s +:+ EmptyString = s.
Proof. induction s as [| c s IH]; [reflexivity |]. rewrite string_app_cons, IH. reflexivity. Qed.

Lemma string_app_assoc (a b c : string) : (a +:+ b) +:+ c = a +:+ b +:+ c.
Proof.
  induction a as [| x a IH]; [reflexivity |].
  rewrite !string_app_cons, IH. reflexivity.
Qed.

Lemma string_length_app (a b : string) :
  String.length (a +:+ b) = (String.length a + String.length b)%nat.
Proof.
  induction a as [| x a IH]; [reflexivity |].
  rewrite string_app_cons. simpl. rewrite IH. reflexivity.
Qed.

Lemma ciEq_nil_inv (m : string) : ciEq m EmptyString -> m = EmptyString.
Proof. destruct m; [reflexivity | discriminate]. Qed.

Lemma ciEq_cons_inv (m : string) (a : ascii) (p : string) :
  ciEq m (String a p) ->
  exists b m', m = String b m' /\ lower b = lower a /\ ciEq m' p.
Proof.
  destruct m as [| b m']; [discriminate |].
  unfold ciEq. simpl. intros H. injection H as H1 H2.
  exists b, m'. auto.
Qed.

(** *** The three parts of the pattern against their description *)

Lemma literal_sound (p s r : string) :
  literal p s = Some r -> exists m, s = m +:+ r /\ ciEq m p.
Proof.
  revert s. induction p as [| a p IH]; intros s H.
  - destruct s; injection H as <-; exists EmptyString; split; reflexivity.
  - destruct s as [| b s]; [discriminate |]. simpl in H.
    destruct (Ascii.eqb (lower a) (lower b)) eqn:E; [| discriminate].
    apply Ascii.eqb_eq in E.
    destruct (IH s H) as (m & -> & Hm).
    exists (String b m). split; [reflexivity |].
    unfold ciEq in *. simpl. rewrite E, Hm. reflexivity.
Qed.

Lemma literal_complete (p m r : string) : ciEq m p -> literal p (m +:+ r) = Some r.
Proof.
  revert m. induction p as [| a p IH]; intros m H.
  - apply ciEq_nil_inv in H as ->. rewrite string_app_nil. destruct r; reflexivity.
  - apply ciEq_cons_inv in H as (b & m' & -> & Hb & Hm).
    rewrite string_app_cons. simpl. rewrite Hb, Ascii.eqb_refl. apply IH, Hm.
Qed.

Lemma attrsThenGt_sound (s r : string) :
  attrsThenGt s = Some r -> exists attrs, s = attrs +:+ ">" +:+ r /\ noGt attrs = true.
Proof.
  induction s as [| c s IH]; intros H; [discriminate |]. simpl in H.
  destruct (Ascii.eqb c ">") eqn:E.
  - apply Ascii.eqb_eq in E as ->. injection H as ->.
    exists EmptyString. split; reflexivity.
  - destruct (IH H) as (attrs & -> & Ha).
    exists (String c attrs). split; [reflexivity |].
    unfold noGt in *. simpl. rewrite E, Ha. reflexivity.
Qed.

Lemma attrsThenGt_complete (attrs r : string) :
  noGt attrs = true -> attrsThenGt (attrs +:+ ">" +:+ r) = Some r.
Proof.
  induction attrs as [| c attrs IH]; intros H; [reflexivity |].
  unfold noGt in H. simpl in H. apply andb_true_iff in H as [Hc Ha].
  rewrite string_app_cons. simpl.
  destruct (Ascii.eqb c ">"); [discriminate |]. apply IH, Ha.
Qed.

Lemma lazyThen_unfold (closer s : string) :
  lazyThen closer s =
    match literal closer s with
    | Some r => Some r
    | None =>
        match s with
        | EmptyString => None
        | String c s' => if isLineTerminator c then None else lazyThen closer s'
        end
    end.
Proof. destruct s; reflexivity. Qed.

Lemma lazyThen_sound (closer s r : string) :
  lazyThen closer s = Some r ->
  exists body cl, s = body +:+ cl +:+ r /\ oneLine body = true /\ ciEq cl closer.
Proof.
  induction s as [| c s IH]; intros H; rewrite lazyThen_unfold in H.
  - destruct (literal closer EmptyString) as [r' |] eqn:E; [| discriminate].
    injection H as ->. apply literal_sound in E as (cl & E & Hcl).
    exists EmptyString, cl. auto.
  - destruct (literal closer (String c s)) as [r' |] eqn:E.
    + injection H as ->. apply literal_sound in E as (cl & E & Hcl).
      exists EmptyString, cl. auto.
    + destruct (isLineTerminator c) eqn:Ec; [discriminate |].
      destruct (IH H) as (body & cl & -> & Hb & Hcl).
      exists (String c body), cl. split; [reflexivity |]. split; [| exact Hcl].
      unfold oneLine in *. simpl. rewrite Ec, Hb. reflexivity.
Qed.

Lemma lazyThen_complete (closer body cl r : string) :
  oneLine body = true -> ciEq cl closer ->
  is_Some (lazyThen closer (body +:+ cl +:+ r)).
Proof.
  intros Hb Hcl. induction body as [| c body IH]; rewrite lazyThen_unfold.
  - rewrite string_app_nil, (literal_complete closer cl r Hcl). eexists; reflexivity.
  - unfold oneLine in Hb. simpl in Hb. apply andb_true_iff in Hb as [Hc Hb].
    destruct (literal closer (String c body +:+ cl +:+ r)); [eexists; reflexivity |].
    rewrite string_app_cons. destruct (isLineTerminator c); [discriminate |].
    apply IH, Hb.
Qed.

Lemma matchElement_sound (tag s r : string) :
  matchElement tag s = Some r -> exists el, s = el +:+ r /\ OneLineElement tag el.
Proof.
  unfold matchElement. intros H.
  destruct (literal (openTag tag) s) as [r1 |] eqn:E1; [| discriminate].
  simpl in H. destruct (attrsThenGt r1) as [r2 |] eqn:E2; [| discriminate].
  simpl in H.
  apply literal_sound in E1 as (opener & -> & Ho).
  apply attrsThenGt_sound in E2 as (attrs & -> & Ha).
  apply lazyThen_sound in H as (body & closer & -> & Hb & Hc).
  exists (opener +:+ attrs +:+ ">" +:+ body +:+ closer).
  split; [| constructor; assumption].
  rewrite !string_app_assoc. reflexivity.
Qed.

Lemma matchElement_complete (tag el rest : string) :
  OneLineElement tag el -> is_Some (matchElement tag (el +:+ rest)).
Proof.
  intros [opener attrs body closer Ho Ha Hb Hc]. unfold matchElement.
  rewrite !string_app_assoc.
  rewrite (literal_complete _ opener _ Ho). simpl.
  rewrite (attrsThenGt_complete attrs _ Ha). simpl.
  apply lazyThen_complete; assumption.
Qed.

Lemma oneLine_is_element (tag el : string) : OneLineElement tag el -> Element tag el.
Proof. intros [opener attrs body closer Ho Ha Hb Hc]. constructor; assumption. Qed.

Lemma oneLine_nonempty (tag el : string) :
  OneLineElement tag el -> exists c el', el = String c el'.
Proof.
  intros [opener attrs body closer Ho Ha Hb Hc].
  change (openTag tag) with (String "<" tag) in Ho.
  apply ciEq_cons_inv in Ho as (b & m & -> & _ & _).
  rewrite string_app_cons. eauto.
Qed.

Lemma ciEq_length (a b : string) : ciEq a b -> String.length a = String.length b.
Proof.
  unfold ciEq. revert b. induction a as [| x a IH]; intros [| y b] H; try discriminate.
  - reflexivity.
  - simpl in H. injection H as _ H. simpl. f_equal. apply IH, H.
Qed.

Lemma literal_length (p s r : string) :
  literal p s = Some r -> String.length s = (String.length p + String.length r)%nat.
Proof.
  intros H. apply literal_sound in H as (m & -> & Hm).
  rewrite string_length_app, (ciEq_length _ _ Hm). reflexivity.
Qed.

(** The lazy star stops at the first closing tag: no other closing tag
    leaves more of the text behind it. *)
Lemma lazyThen_first (closer body cl rest r : string) :
  ciEq cl closer -> lazyThen closer (body +:+ cl +:+ rest) = Some r ->
  (String.length rest <= String.length r)%nat.
Proof.
  intros Hcl. induction body as [| c body IH]; rewrite lazyThen_unfold.
  - rewrite string_app_nil, (literal_complete closer cl rest Hcl). intros [= <-]. lia.
  - rewrite string_app_cons.
    destruct (literal closer (String c (body +:+ cl +:+ rest))) as [r' |] eqn:E.
    + intros [= <-]. apply literal_length in E. simpl in E.
      rewrite !string_length_app, (ciEq_length _ _ Hcl) in E. lia.
    + destruct (isLineTerminator c); [discriminate | exact IH].
Qed.

(** The match at a place is the shortest element that starts there. *)
Lemma matchElement_first (tag el rest r : string) :
  Element tag el -> matchElement tag (el +:+ rest) = Some r ->
  (String.length rest <= String.length r)%nat.
Proof.
  intros [opener attrs body closer Ho Ha Hc]. unfold matchElement.
  rewrite !string_app_assoc.
  rewrite (literal_complete _ opener _ Ho). simpl.
  rewrite (attrsThenGt_complete attrs _ Ha). simpl.
  apply lazyThen_first, Hc.
Qed.


(** *** The global replacement *)

Lemma removeFrom_unfold (tag : string) (c : ascii) (s : string) :
  removeFrom tag O (String c s) =
    match matchLength tag (String c s) with
    | Some (S k) => removeFrom tag k s
    | _ => String c (removeFrom tag O s)
    end.
Proof. reflexivity. Qed.

Lemma removeFrom_skip (tag m s : string) :
  removeFrom tag (String.length m) (m +:+ s) = removeFrom tag O s.
Proof.
  induction m as [| c m IH]; [reflexivity |].
  rewrite string_app_cons. simpl. exact IH.
Qed.



(** *** [trim] *)








(** *** The description determines the output *)

Lemma string_app_inj (a a' b b' : string) :
  a +:+ b = a' +:+ b' -> String.length a = String.length a' -> a = a' /\ b = b'.
Proof.
  revert a'. induction a as [| x a IH]; intros [| y a'] H Hlen; try discriminate.
  - rewrite !string_app_nil in H. auto.
  - rewrite !string_app_cons in H. injection H as -> H. injection Hlen as Hlen.
    destruct (IH a' H Hlen) as [-> ->]. auto.
Qed.

Lemma allChars_app (p : ascii -> bool) (a b : string) :
  allChars p (a +:+ b) = allChars p a && allChars p b.
Proof.
  induction a as [| c a IH]; [reflexivity |].
  rewrite string_app_cons. simpl. rewrite IH. apply andb_assoc.
Qed.

Lemma element_of_one_line (tag el : string) :
  Element tag el -> oneLine el = true -> OneLineElement tag el.
Proof.
  intros [opener attrs body closer Ho Ha Hc] Hl. constructor; try assumption.
  unfold oneLine in *. rewrite !allChars_app in Hl.
  do 3 (apply andb_true_iff in Hl as [_ Hl]). apply andb_true_iff in Hl as [Hl _].
  exact Hl.
Qed.

(** On markup without line terminator the cut leaves no choice: its output
    is the output of the replacement. *)
Lemma Cut_one_line (tag s out : string) :
  oneLine s = true -> Cut tag s out -> out = removeElements tag s.
Proof.
  intros Hl Hcut. induction Hcut as [| c s out Hno Hcut IH | el s out Hel Hmin Hcut IH].
  - reflexivity.
  - unfold removeElements. rewrite removeFrom_unfold. unfold matchLength.
    destruct (matchElement tag (String c s)) as [r |] eqn:E.
    + destruct (matchElement_sound tag _ r E) as (el & Heq & Hone).
      destruct (Hno el r Hone Heq).
    + simpl. f_equal. apply IH.
      unfold oneLine in *. simpl in Hl. apply andb_true_iff in Hl as [_ Hl]. exact Hl.
  - unfold oneLine in Hl. rewrite allChars_app in Hl. apply andb_true_iff in Hl as [Hle Hls].
    pose proof (element_of_one_line tag el Hel Hle) as Hone.
    destruct (matchElement_complete tag el s Hone) as [r E].
    destruct (matchElement_sound tag _ r E) as (el0 & Heq & Hone0).
    assert (Hsame : String.length el = String.length el0).
    { pose proof (Hmin el0 r (oneLine_is_element tag el0 Hone0) Heq).
      pose proof (matchElement_first tag el s r Hel E).
      apply (f_equal String.length) in Heq. rewrite !string_length_app in Heq. lia. }
    destruct (string_app_inj _ _ _ _ Heq Hsame) as [<- <-].
    destruct (oneLine_nonempty tag el Hone) as (c & el' & ->).
    unfold removeElements. rewrite string_app_cons, removeFrom_unfold.
    unfold matchLength. rewrite <- string_app_cons, E. simpl.
    rewrite string_length_app.
    replace (S (String.length el' + String.length s) - String.length s)%nat
      with (S (String.length el')) by lia.
    rewrite removeFrom_skip. apply IH, Hls.
Qed.

Lemma trimStart_blank (b : string) : blank b = true -> trimStart b = EmptyString.
Proof.
  induction b as [| c b IH]; [reflexivity |]. unfold blank. simpl.
  intros H. apply andb_true_iff in H as [-> H]. apply IH, H.
Qed.

Lemma trimEnd_blank (b : string) : blank b = true -> trimEnd b = EmptyString.
Proof.
  induction b as [| c b IH]; [reflexivity |]. unfold blank. simpl.
  intros H. apply andb_true_iff in H as [-> H]. rewrite (IH H). reflexivity.
Qed.

Lemma trimStart_app_blank (b s : string) : blank b = true -> trimStart (b +:+ s) = trimStart s.
Proof.
  induction b as [| c b IH]; [reflexivity |]. intros H.
  unfold blank in H. cbn [allChars] in H. apply andb_true_iff in H as [Hc H].
  rewrite string_app_cons. cbn [trimStart]. rewrite Hc. apply IH, H.
Qed.

Lemma trimEnd_keeps (out after : string) :
  blank after = true ->
  (forall front c, out = front +:+ String c EmptyString -> isSpace c = false) ->
  trimEnd (out +:+ after) = out.
Proof.
  intros Ha. induction out as [| c out IH]; intros Hlast.
  - rewrite string_app_nil. apply trimEnd_blank, Ha.
  - rewrite string_app_cons. simpl. destruct out as [| d out].
    + rewrite string_app_nil, (trimEnd_blank after Ha).
      rewrite (Hlast EmptyString c eq_refl). reflexivity.
    + rewrite IH; [reflexivity |].
      intros front x H. apply (Hlast (String c front) x).
      rewrite string_app_cons, <- H. reflexivity.
Qed.

(** What [Trimmed] describes is the result of [trim], and no other
    string. *)
Lemma Trimmed_trim (s out : string) : Trimmed s out -> out = trim s.
Proof.
  intros (before & after & -> & Hb & Ha & Hfirst & Hlast).
  unfold trim. rewrite (trimStart_app_blank before _ Hb).
  destruct out as [| c out].
  - rewrite string_app_nil, (trimStart_blank after Ha). reflexivity.
  - rewrite string_app_cons. simpl. rewrite (Hfirst c out eq_refl).
    rewrite <- string_app_cons. symmetry. apply trimEnd_keeps; assumption.
Qed.

Lemma removeFrom_allChars (p : ascii -> bool) (tag : string) (skip : nat) (s : string) :
  allChars p s = true -> allChars p (removeFrom tag skip s) = true.
Proof.
  revert skip. induction s as [| c s IH]; intros skip H; [reflexivity |].
  simpl in H. apply andb_true_iff in H as [Hc Hs].
  cbn [removeFrom]. destruct skip as [| k]; [| apply IH, Hs].
  destruct (matchLength tag (String c s)) as [[| k] |];
    try apply IH, Hs; simpl; rewrite Hc; apply IH, Hs.
Qed.

(** On markup without line terminator the cuts and the trimming describe
    one content only: the one the replacements and [trim] compute. *)
Lemma CutEach_one_line (tags : list string) (s kept out : string) :
  oneLine s = true -> CutEach tags s kept -> Trimmed kept out ->
  out = trim (foldl (fun markup tag => removeElements tag markup) s tags).
Proof.
  revert s. induction tags as [| tag tags IH]; intros s Hl Hcut Htrim.
  - simpl in Hcut. subst kept. apply Trimmed_trim, Htrim.
  - destruct Hcut as (mid & Hcut & Hrest).
    apply (Cut_one_line tag s mid Hl) in Hcut. subst mid.
    cbn [foldl]. apply IH; [| exact Hrest | exact Htrim].
    apply removeFrom_allChars, Hl.
Qed.

Example text_between_elements_is_kept (kept out : string) :
  CutEach ["script"; "head"] "<script>a</script><p>KEEP</p><script>b</script> " kept ->
  Trimmed kept out -> out = "<p>KEEP</p>".
Proof.
  intros Hcut Htrim.
  assert (Hl : oneLine "<script>a</script><p>KEEP</p><script>b</script> " = true)
    by reflexivity.
  rewrite (CutEach_one_line _ _ kept out Hl Hcut Htrim). vm_compute. reflexivity.
Qed.



(** Without a processed image [processHtmlContentWithDirectLoad] hands the
    markup it was given to [processImagesFromManifest], and markup without
    an [img] tag comes back from there as it was given: nothing has been
    cut out of it and nothing trimmed. *)
Lemma directLoad_returns_markup_uncleaned
    (dom : Epub.DomOutcome) (m : Epub.ManifestOutcome) (htmlContent : string)
    (st : Epub.State) :
  includes "blob:" (fst (Epub.processHtmlContent dom htmlContent st)) = false ->
  includes "data:image" (fst (Epub.processHtmlContent dom htmlContent st)) = false ->
  includes "<img" (toLowerCase htmlContent) = false ->
  fst (Epub.processHtmlContentWithDirectLoad dom m htmlContent st) = htmlContent.
Proof.
  unfold Epub.processHtmlContentWithDirectLoad.
  destruct (Epub.processHtmlContent dom htmlContent st) as [normalResult st'].
  cbn [fst]. intros -> -> Himg. cbn [negb andb].
  unfold Epub.processImagesFromManifest. rewrite Himg.
  destruct (Epub.book (snd st')), m; reflexivity.
Qed.

Example directLoad_keeps_one_line_script :
  fst (Epub.processHtmlContentWithDirectLoad Epub.DomThrows Epub.ManifestThrows
         " <p>a</p><script>alert(1)</script>" freshEpub)
  = " <p>a</p><script>alert(1)</script>" /\
  fst (Epub.processHtmlContent Epub.DomThrows
         " <p>a</p><script>alert(1)</script>" freshEpub)
  = "<p>a</p>".
Proof. split; vm_compute; reflexivity. Qed.

Example one_line_script_removed :
  Epub.cleanHtmlContentBasic " <p>a</p><SCRIPT type='x'>alert(1)</script><b>c</b> "
  = "<p>a</p><b>c</b>".
Proof. vm_compute. reflexivity. Qed.

(** Cutting can join what stood on either side of an element: the scan
    does not look at its own output again. *)
Example removal_is_one_pass :
  removeElements "script" "<scr<script>x</script>ipt>y</script>" = "<script>y</script>".
Proof. vm_compute. reflexivity. Qed.

End Markup.

(** ** Strings as lists of code units *)
Section Strings.
Import JsString.

Lemma chars_app (a b : string) : chars (a +:+ b) = chars a ++ chars b.
Proof.
  induction a as [| c a IH]; [reflexivity |].
  rewrite string_app_cons. unfold chars in *. simpl. rewrite IH. reflexivity.
Qed.

Lemma chars_inj (a b : string) : chars a = chars b -> a = b.
Proof.
  intros H. rewrite <- (string_of_list_ascii_of_string a), <- (string_of_list_ascii_of_string b).
  unfold chars in H. rewrite H. reflexivity.
Qed.

Lemma chars_length (s : string) : length (chars s) = String.length s.
Proof. induction s as [| c s IH]; [reflexivity |]. unfold chars in *. simpl. rewrite IH. reflexivity. Qed.

Lemma chars_take (n : nat) (s : string) : chars (takeChars n s) = take n (chars s).
Proof.
  revert s. induction n as [| n IH]; intros s; [destruct s; reflexivity |].
  destruct s as [| c s]; [reflexivity |]. unfold chars in *. simpl. rewrite IH. reflexivity.
Qed.

Lemma chars_drop (n : nat) (s : string) : chars (dropChars n s) = drop n (chars s).
Proof.
  revert s. induction n as [| n IH]; intros s; [destruct s; reflexivity |].
  destruct s as [| c s]; [reflexivity |]. unfold chars in *. simpl. apply IH.
Qed.

Lemma chars_map (f : ascii -> ascii) (s : string) : chars (mapChars f s) = f <$> chars s.
Proof. induction s as [| c s IH]; [reflexivity |]. unfold chars in *. simpl. rewrite IH. reflexivity. Qed.

Lemma mapChars_length (f : ascii -> ascii) (s : string) :
  String.length (mapChars f s) = String.length s.
Proof. rewrite <- !chars_length, chars_map. apply length_fmap. Qed.

Lemma chars_nil (s : string) : chars s = [] -> s = EmptyString.
Proof. destruct s; [reflexivity | discriminate]. Qed.

(** [String.prefix] is "starts with". *)
Lemma prefix_true (p s : string) : String.prefix p s = true <-> exists r, s = p +:+ r.
Proof.
  revert s. induction p as [| a p IH]; intros s.
  - split; [intros _; exists s; reflexivity | intros _; destruct s; reflexivity].
  - destruct s as [| b s]; simpl.
    + split; [discriminate | intros [r H]; discriminate H].
    + destruct (ascii_dec a b) as [-> | Hne].
      * rewrite IH. split; intros [r H]; exists r.
        -- rewrite H. reflexivity.
        -- rewrite string_app_cons in H. injection H as H. exact H.
      * split; [discriminate |]. intros [r H]. rewrite string_app_cons in H.
        injection H as H1 _. congruence.
Qed.

Lemma indexOf_unfold (needle s : string) :
  indexOf needle s =
    if String.prefix needle s then Some O
    else match s with
         | EmptyString => None
         | String _ s' => S <$> indexOf needle s'
         end.
Proof. destruct s; reflexivity. Qed.

(** [includes] tells whether [indexOf] finds a position. *)
Lemma includes_indexOf (needle s : string) :
  includes needle s = true <-> is_Some (indexOf needle s).
Proof.
  induction s as [| c s IH]; rewrite indexOf_unfold; cbn [includes].
  - destruct (String.prefix needle EmptyString); simpl.
    + split; [eauto | reflexivity].
    + split; [discriminate | intros [x H]; discriminate H].
  - destruct (String.prefix needle (String c s)); simpl.
    + split; [eauto | reflexivity].
    + rewrite IH. destruct (indexOf needle s); simpl; split; intros [x H]; eauto; discriminate.
Qed.

(** A position found by [indexOf] is one where the needle stands. *)
Lemma indexOf_found (needle s : string) (i : nat) :
  indexOf needle s = Some i ->
  (i + String.length needle <= String.length s)%nat /\
  takeChars (String.length needle) (dropChars i s) = needle.
Proof.
  revert i. induction s as [| c s IH]; intros i H; rewrite indexOf_unfold in H.
  - destruct (String.prefix needle EmptyString) eqn:E; [| discriminate].
    injection H as <-. apply prefix_true in E as [r E].
    destruct needle; [split; reflexivity | discriminate].
  - destruct (String.prefix needle (String c s)) eqn:E.
    + injection H as <-. apply prefix_true in E as [r E]. rewrite E.
      split.
      * rewrite <- !chars_length, chars_app, length_app. lia.
      * apply chars_inj. rewrite chars_take, chars_drop, chars_app, drop_0.
        apply take_app_length'. symmetry. apply chars_length.
    + destruct (indexOf needle s) as [j |] eqn:Ej; [| discriminate].
      injection H as <-. destruct (IH j eq_refl) as [Hlen Htake].
      split; [simpl; lia | exact Htake].
Qed.

End Strings.

(** ** Search excerpts *)
Section Excerpts.
Import JsString Excerpt.

Lemma segment_rest {A} (a b : nat) (l : list A) :
  (a <= b)%nat -> take (b - a) (drop a l) ++ drop b l = drop a l.
Proof.
  intros Hab. replace (drop b l) with (drop (b - a) (drop a l)).
  - apply take_drop.
  - rewrite drop_drop. f_equal. lia.
Qed.

Lemma segment_split {A} (a b c : nat) (l : list A) :
  (a <= b <= c)%nat ->
  take (c - a) (drop a l) = take (b - a) (drop a l) ++ take (c - b) (drop b l).
Proof.
  intros Habc.
  replace (drop b l) with (drop (b - a) (drop a l)) by (rewrite drop_drop; f_equal; lia).
  rewrite take_take_drop. f_equal. lia.
Qed.

Lemma string_nonempty_length (s : string) : s <> EmptyString <-> (0 < String.length s)%nat.
Proof. destruct s; simpl; split; intros H; try lia; congruence. Qed.

Lemma substring_ordered (a b : nat) (s : string) :
  (a <= b <= String.length s)%nat ->
  chars (substring a b s) = take (b - a) (drop a (chars s)).
Proof.
  intros Hab. unfold substring.
  replace (Nat.min a (String.length s)) with a by lia.
  replace (Nat.min b (String.length s)) with b by lia.
  replace (Nat.max a b) with b by lia. replace (Nat.min a b) with a by lia.
  rewrite chars_take, chars_drop. reflexivity.
Qed.

(** X1: for a text and a query of code units below 256, where
    [toLowerCase] maps unit by unit, [extractExcerpt] returns the empty
    string when the query does not occur in the text
    (case-insensitively).  When it occurs, the text
    splits into five consecutive parts, a cut part, at most [contextLength]
    code units of context, the first occurrence of the query (equal to it
    up to case), at most [contextLength] code units of context and a cut
    part, and the excerpt is the three middle parts, with an ellipsis in
    front exactly when the first cut part is not empty and an ellipsis
    behind exactly when the last one is not empty. *)
Theorem extractExcerpt_shape (text query : string) (contextLength : nat) :
  match indexOf (toLowerCase query) (toLowerCase text) with
  | None => extractExcerpt text query contextLength = EmptyString
  | Some index =>
      exists cutBefore before hit after cutAfter,
        text = cutBefore +:+ before +:+ hit +:+ after +:+ cutAfter /\
        String.length (cutBefore +:+ before) = index /\
        toLowerCase hit = toLowerCase query /\
        (String.length before <= contextLength)%nat /\
        (String.length after <= contextLength)%nat /\
        extractExcerpt text query contextLength
        = (if bool_decide (cutBefore = EmptyString) then EmptyString else "...")
          +:+ before +:+ hit +:+ after
          +:+ (if bool_decide (cutAfter = EmptyString) then EmptyString else "...")
  end.
Proof.
  unfold extractExcerpt.
  destruct (indexOf (toLowerCase query) (toLowerCase text)) as [i |] eqn:E; [| reflexivity].
  apply indexOf_found in E as [Hlen Hhit].
  unfold toLowerCase in Hlen, Hhit.
  rewrite (mapChars_length _ query) in Hlen, Hhit.
  rewrite (mapChars_length _ text) in Hlen.
  set (q := String.length query) in *. set (L := String.length text) in *.
  set (st := (i - contextLength)%nat).
  set (e := Nat.min L (i + q + contextLength)).
  assert (Hst : (st <= i)%nat) by (unfold st; lia).
  assert (He : (i + q <= e <= L)%nat) by (unfold e; lia).
  exists (takeChars st text), (takeChars (i - st) (dropChars st text)),
         (takeChars q (dropChars i text)),
         (takeChars (e - (i + q)) (dropChars (i + q) text)), (dropChars e text).
  assert (HL : length (chars text) = L) by apply chars_length.
  split; [| split; [| split; [| split; [| split]]]].
  - apply chars_inj. rewrite !chars_app, !chars_take, !chars_drop.
    rewrite (segment_rest (i + q) e) by lia.
    replace q with (i + q - i)%nat at 1 by lia.
    rewrite (segment_rest i (i + q)) by lia.
    rewrite (segment_rest st i) by lia.
    symmetry. apply take_drop.
  - rewrite <- chars_length, chars_app, chars_take, chars_take, chars_drop, length_app.
    rewrite !length_take, length_drop. lia.
  - apply chars_inj. unfold toLowerCase. rewrite chars_map, chars_take, chars_drop.
    rewrite fmap_take, fmap_drop, <- chars_map, <- chars_drop, <- chars_take.
    f_equal. exact Hhit.
  - rewrite <- chars_length, chars_take, length_take. unfold st. lia.
  - rewrite <- chars_length, chars_take, length_take. unfold e. lia.
  - assert (Hcore : substring st e text
                    = takeChars (i - st) (dropChars st text) +:+ takeChars q (dropChars i text)
                      +:+ takeChars (e - (i + q)) (dropChars (i + q) text)).
    { apply chars_inj. rewrite substring_ordered by lia.
      rewrite !chars_app, !chars_take, !chars_drop.
      rewrite (segment_split st i e) by lia. f_equal.
      rewrite (segment_split i (i + q) e) by lia. f_equal. f_equal. lia. }
    fold L. rewrite Hcore.
    assert (Hpre : bool_decide (takeChars st text = EmptyString) = negb (0 <? st)%nat).
    { destruct (0 <? st)%nat eqn:E0.
      - apply Nat.ltb_lt in E0. apply bool_decide_eq_false.
        apply string_nonempty_length.
        rewrite <- chars_length, chars_take, length_take. lia.
      - apply Nat.ltb_ge in E0. replace st with O by lia.
        destruct text; reflexivity. }
    assert (Hpost : bool_decide (dropChars e text = EmptyString) = negb (e <? L)%nat).
    { destruct (e <? L)%nat eqn:E0.
      - apply Nat.ltb_lt in E0. apply bool_decide_eq_false.
        apply string_nonempty_length.
        rewrite <- chars_length, chars_drop, length_drop. lia.
      - apply Nat.ltb_ge in E0. apply bool_decide_eq_true.
        apply chars_nil. rewrite chars_drop. apply drop_ge. lia. }
    rewrite Hpre, Hpost.
    destruct (0 <? st)%nat, (e <? L)%nat; simpl;
      rewrite ?string_app_nil, ?string_app_nil_r, ?string_app_assoc; reflexivity.
Qed.

Example excerpt_in_the_middle :
  extractExcerpt "one two THREE four five" "three" 4 = "...two THREE fou...".
Proof. vm_compute. reflexivity. Qed.

Example excerpt_of_short_text : extractExcerpt "A needle" "NEEDLE" 100 = "A needle".
Proof. vm_compute. reflexivity. Qed.

End Excerpts.

(** ** Normalisation of extracted text *)
Section Normalisation.
Import JsString Props.

Lemma onlyPlain_cons (c : ascii) (s : string) :
  onlyPlainSpaces (String c s) = (negb (isSpace c) || Ascii.eqb c " ") && onlyPlainSpaces s.
Proof. reflexivity. Qed.

Lemma noDoubleSpace_tail (c : ascii) (s : string) :
  noDoubleSpace (String c s) = true -> noDoubleSpace s = true.
Proof. simpl. intros H. apply andb_true_iff in H as [_ H]. exact H. Qed.

Lemma noDoubleSpace_head (c : ascii) (s : string) :
  noDoubleSpace (String c s) = true -> isSpace c && startsWithSpace s = false.
Proof.
  simpl. intros H. apply andb_true_iff in H as [H _]. apply negb_true_iff in H. exact H.
Qed.

Lemma noDoubleSpace_intro (c : ascii) (s : string) :
  isSpace c && startsWithSpace s = false -> noDoubleSpace s = true ->
  noDoubleSpace (String c s) = true.
Proof. intros H1 H2. simpl. rewrite H1, H2. reflexivity. Qed.

(** *** [replace(/\s+/g, ' ')] *)

Lemma collapseSpaces_normal (inRun : bool) (s : string) :
  onlyPlainSpaces (collapseSpaces inRun s) = true /\
  noDoubleSpace (collapseSpaces inRun s) = true /\
  (inRun = true -> startsWithSpace (collapseSpaces inRun s) = false).
Proof.
  revert inRun. induction s as [| c s IH]; intros inRun; [auto |].
  simpl. destruct (isSpace c) eqn:Ec.
  - destruct inRun.
    + apply IH.
    + destruct (IH true) as (H1 & H2 & H3).
      split; [rewrite onlyPlain_cons, H1; reflexivity |].
      split; [| discriminate].
      apply noDoubleSpace_intro; [rewrite (H3 eq_refl); apply andb_false_r | exact H2].
  - destruct (IH false) as (H1 & H2 & _).
    split; [rewrite onlyPlain_cons, Ec, H1; reflexivity |].
    split; [| intros _; simpl; exact Ec].
    apply noDoubleSpace_intro; [rewrite Ec; reflexivity | exact H2].
Qed.

(** *** [replace(/(.)\1{3,}/g, '$1')] *)

Lemma squeezeRuns_unfold (c : ascii) (s : string) :
  squeezeRuns O (String c s)
  = String c (squeezeRuns (if isLineTerminator c then O
                           else if (3 <=? runLength c s)%nat then runLength c s else O) s).
Proof.
  cbn -[Nat.leb]. destruct (isLineTerminator c); [reflexivity |].
  destruct (3 <=? runLength c s)%nat; reflexivity.
Qed.

Lemma squeezeRuns_starts (k : nat) (s : string) :
  startsWithSpace (squeezeRuns k s) = true -> startsWithSpace (dropChars k s) = true.
Proof.
  revert k. induction s as [| c s IH]; intros k H.
  - destruct k; discriminate H.
  - destruct k as [| k]; [rewrite squeezeRuns_unfold in H; exact H |].
    simpl in *. apply IH, H.
Qed.

Lemma squeezeRuns_onlyPlain (k : nat) (s : string) :
  onlyPlainSpaces s = true -> onlyPlainSpaces (squeezeRuns k s) = true.
Proof.
  revert k. induction s as [| c s IH]; intros k H; [destruct k; exact H |].
  rewrite onlyPlain_cons in H. apply andb_true_iff in H as [Hc Hs].
  destruct k as [| k]; [| simpl; apply IH, Hs].
  rewrite squeezeRuns_unfold, onlyPlain_cons, Hc. simpl. apply IH, Hs.
Qed.

Lemma run_then_no_space (c : ascii) (r : nat) (s : string) :
  noDoubleSpace (String c s) = true -> (r <= runLength c s)%nat ->
  isSpace c && startsWithSpace (dropChars r s) = false.
Proof.
  revert s. induction r as [| r IH]; intros s H Hr.
  - replace (dropChars 0 s) with s by (destruct s; reflexivity).
    apply noDoubleSpace_head, H.
  - destruct s as [| d s]; [simpl in Hr; lia |].
    simpl in Hr. destruct (Ascii.eqb c d) eqn:E; [| lia].
    apply Ascii.eqb_eq in E as <-. simpl dropChars.
    apply IH; [apply noDoubleSpace_tail in H; exact H | lia].
Qed.

Lemma squeezeRuns_noDoubleSpace (k : nat) (s : string) :
  noDoubleSpace s = true -> noDoubleSpace (squeezeRuns k s) = true.
Proof.
  revert k. induction s as [| c s IH]; intros k H; [destruct k; reflexivity |].
  pose proof (noDoubleSpace_tail c s H) as Hs.
  destruct k as [| k]; [| simpl; apply IH, Hs].
  rewrite squeezeRuns_unfold.
  set (r := if isLineTerminator c then O
            else if (3 <=? runLength c s)%nat then runLength c s else O).
  assert (Hr : (r <= runLength c s)%nat).
  { unfold r. destruct (isLineTerminator c); [lia |].
    destruct (3 <=? runLength c s)%nat; lia. }
  apply noDoubleSpace_intro; [| apply IH, Hs].
  destruct (startsWithSpace (squeezeRuns r s)) eqn:E; [| apply andb_false_r].
  apply squeezeRuns_starts in E.
  pose proof (run_then_no_space c r s H Hr) as Hc. rewrite E in Hc. exact Hc.
Qed.

(** *** [trim] *)

Lemma trimStart_normal (s : string) :
  (onlyPlainSpaces s = true -> onlyPlainSpaces (trimStart s) = true) /\
  (noDoubleSpace s = true -> noDoubleSpace (trimStart s) = true) /\
  startsWithSpace (trimStart s) = false.
Proof.
  induction s as [| c s (IH1 & IH2 & IH3)]; [auto |].
  cbn [trimStart]. destruct (isSpace c) eqn:Ec.
  - split; [| split; [| exact IH3]].
    + rewrite onlyPlain_cons. intros H. apply andb_true_iff in H as [_ H]. auto.
    + intros H. apply IH2. apply (noDoubleSpace_tail c s H).
  - split; [auto | split; [auto | exact Ec]].
Qed.

Lemma trimEnd_head (s : string) (d : ascii) (r : string) :
  trimEnd s = String d r -> exists t, s = String d t.
Proof.
  destruct s as [| c s]; [discriminate |]. simpl.
  destruct (trimEnd s); [destruct (isSpace c) |]; intros H; try discriminate;
    injection H as -> _; eauto.
Qed.

Lemma trimEnd_starts (s : string) :
  startsWithSpace (trimEnd s) = true -> startsWithSpace s = true.
Proof.
  destruct (trimEnd s) as [| d r] eqn:E; [discriminate |].
  apply trimEnd_head in E as [t ->]. auto.
Qed.

Lemma trimEnd_normal (s : string) :
  (onlyPlainSpaces s = true -> onlyPlainSpaces (trimEnd s) = true) /\
  (noDoubleSpace s = true -> noDoubleSpace (trimEnd s) = true) /\
  endsWithSpace (trimEnd s) = false.
Proof.
  induction s as [| c s (IH1 & IH2 & IH3)]; [auto |].
  pose proof (trimEnd_starts s) as Hstart.
  cbn [trimEnd]. destruct (trimEnd s) as [| d r] eqn:E.
  - destruct (isSpace c) eqn:Ec; [auto |].
    split; [| split; [intros _; simpl; rewrite andb_false_r; reflexivity | exact Ec]].
    rewrite !onlyPlain_cons. intros H. apply andb_true_iff in H as [-> _]. reflexivity.
  - split; [| split; [| exact IH3]].
    + rewrite (onlyPlain_cons c s), (onlyPlain_cons c (String d r)).
      intros H. apply andb_true_iff in H as [-> H]. rewrite (IH1 H). reflexivity.
    + intros H. apply noDoubleSpace_intro; [| apply IH2, (noDoubleSpace_tail c s H)].
      apply noDoubleSpace_head in H.
      destruct (isSpace c); [| reflexivity]. cbn [andb] in *.
      destruct (startsWithSpace (String d r)) eqn:Ed; [| reflexivity].
      rewrite (Hstart eq_refl) in H. discriminate H.
Qed.

Lemma trim_normalised (s : string) :
  onlyPlainSpaces s = true -> noDoubleSpace s = true -> normalised (trim s) = true.
Proof.
  intros H1 H2. unfold normalised, trim.
  destruct (trimStart_normal s) as (S1 & S2 & S3).
  destruct (trimEnd_normal (trimStart s)) as (E1 & E2 & E3).
  rewrite (E1 (S1 H1)), (E2 (S2 H2)), E3. simpl.
  destruct (startsWithSpace (trimEnd (trimStart s))) eqn:E; [| reflexivity].
  apply trimEnd_starts in E. congruence.
Qed.

(** X2: on the real path and a cache miss, the text [getPageText] returns
    for a valid page, and stores, is normalised: its white space is single
    space characters between other code units, none at either end. *)
Theorem getPageText_normalised (h : Pdf.PdfHandler) (n : Z) (items : list string) :
  1 <= n <= Pdf.totalPages h -> Pdf.textContent h !! n = None -> Pdf.hasEngine h = true ->
  exists text,
    Pdf.getPageText (Pdf.TextItems items) n h = (Ok text, Pdf.cacheText n text h) /\
    normalised text = true.
Proof.
  intros Hn Hmiss Hengine. unfold Pdf.getPageText.
  rewrite range_guard_false by lia. rewrite Hmiss, Hengine.
  eexists. split; [reflexivity |].
  destruct (collapseSpaces_normal false
              (Pdf.join " " (filter (fun str => Pdf.nonBlank str = true) items)))
    as (H1 & H2 & _).
  apply trim_normalised.
  - apply squeezeRuns_onlyPlain, H1.
  - apply squeezeRuns_noDoubleSpace, H2.
Qed.

End Normalisation.

(** ** Full-document search *)
Section SearchPdf.
Import JsString Props.

Variable lib : Z -> Pdf.TextOutcome.
Variable query : string.

Lemma pdf_text_step (o : Pdf.TextOutcome) (h : Pdf.PdfHandler) (n : Z) :
  1 <= n <= Pdf.totalPages h ->
  exists text h1,
    Pdf.getPageText o n h = (Ok text, h1) /\
    Pdf.textContent h1 !! n = Some text /\
    Pdf.totalPages h1 = Pdf.totalPages h /\
    Pdf.textContent h ⊆ Pdf.textContent h1.
Proof.
  intros Hn. unfold Pdf.getPageText. rewrite range_guard_false by lia.
  destruct (Pdf.textContent h !! n) as [cached |] eqn:Hc.
  { exists cached, h. auto. }
  destruct o as [items |]; [destruct (Pdf.hasEngine h) |];
    eexists _, _; (split; [reflexivity |]); simpl;
    (split; [apply lookup_insert_eq |]); (split; [reflexivity |]);
    apply insert_subseteq; exact Hc.
Qed.

Lemma pageHit_mono (cache cache' : gmap Z string) (n : Z) (text : string) :
  cache !! n = Some text -> cache ⊆ cache' -> pageHit query cache' n = pageHit query cache n.
Proof.
  intros Hn Hsub. unfold pageHit.
  rewrite (lookup_weaken _ _ _ _ Hn Hsub), Hn. reflexivity.
Qed.

Lemma pdf_searchFrom_fills (fuel : nat) (p : Z) (h : Pdf.PdfHandler) :
  1 <= p -> Pdf.totalPages h - p + 1 <= Z.of_nat fuel ->
  exists hits h',
    Pdf.searchFrom lib query fuel p h = (Ok hits, h') /\
    Pdf.totalPages h' = Pdf.totalPages h /\
    Pdf.textContent h ⊆ Pdf.textContent h' /\
    allCached (Pdf.textContent h') (seqZ p (Pdf.totalPages h - p + 1)) /\
    hits = omap (pageHit query (Pdf.textContent h')) (seqZ p (Pdf.totalPages h - p + 1)).
Proof.
  revert p h. induction fuel as [| fuel IH]; intros p h Hp Hfuel.
  - exists [], h. rewrite seqZ_nil by lia. repeat split; [reflexivity | constructor].
  - cbn [Pdf.searchFrom]. destruct (Z_le_dec p (Pdf.totalPages h)) as [Hle | Hgt].
    + replace (p <=? Pdf.totalPages h) with true by (symmetry; apply Z.leb_le; exact Hle).
      destruct (pdf_text_step (lib p) h p ltac:(lia)) as (text & h1 & -> & Hc & Ht & Hsub).
      destruct (IH (p + 1) h1 ltac:(lia) ltac:(lia)) as (rest & h2 & -> & Ht2 & Hsub2 & Hall & Hrest).
      rewrite Ht in *.
      replace (Pdf.totalPages h - (p + 1) + 1) with (Z.pred (Pdf.totalPages h - p + 1)) in * by lia.
      change (p + 1) with (Z.succ p) in *.
      eexists _, h2. split; [reflexivity |].
      split; [lia |]. split; [etransitivity; eassumption |].
      rewrite (seqZ_cons p) by lia.
      pose proof (lookup_weaken _ _ _ _ Hc Hsub2) as Hc2.
      split; [constructor; [rewrite Hc2; eauto | exact Hall] |].
      cbn [omap list_omap]. unfold pageHit at 1. rewrite Hc2, Hrest.
      destruct (includes (toLowerCase query) (toLowerCase text)); reflexivity.
    + replace (p <=? Pdf.totalPages h) with false by (symmetry; apply Z.leb_gt; lia).
      exists [], h. rewrite seqZ_nil by lia. repeat split; [reflexivity | constructor].
Qed.

Lemma pdf_searchFrom_cached (lib2 : Z -> Pdf.TextOutcome) (query2 : string)
    (fuel : nat) (p : Z) (h : Pdf.PdfHandler) :
  1 <= p -> Pdf.totalPages h - p + 1 <= Z.of_nat fuel ->
  allCached (Pdf.textContent h) (seqZ p (Pdf.totalPages h - p + 1)) ->
  Pdf.searchFrom lib2 query2 fuel p h
  = (Ok (omap (pageHit query2 (Pdf.textContent h)) (seqZ p (Pdf.totalPages h - p + 1))), h).
Proof.
  revert p. induction fuel as [| fuel IH]; intros p Hp Hfuel Hall.
  - rewrite seqZ_nil by lia. reflexivity.
  - cbn [Pdf.searchFrom]. destruct (Z_le_dec p (Pdf.totalPages h)) as [Hle | Hgt].
    + replace (p <=? Pdf.totalPages h) with true by (symmetry; apply Z.leb_le; exact Hle).
      rewrite (seqZ_cons p) in * by lia.
      apply Forall_cons in Hall as [[text Hc] Hall].
      rewrite (pdf_cache_hit (lib2 p) h p text ltac:(lia) Hc).
      replace (Z.pred (Pdf.totalPages h - p + 1)) with (Pdf.totalPages h - Z.succ p + 1) in * by lia.
      change (p + 1) with (Z.succ p).
      rewrite (IH (Z.succ p)) by (try lia; exact Hall).
      cbn [omap list_omap]. unfold pageHit at 2. rewrite Hc.
      destruct (includes (toLowerCase query2) (toLowerCase text)); reflexivity.
    + replace (p <=? Pdf.totalPages h) with false by (symmetry; apply Z.leb_gt; lia).
      rewrite seqZ_nil by lia. reflexivity.
Qed.

End SearchPdf.

Section SearchEpub.
Import JsString Props.

Variable lib : Z -> Epub.ExtractOutcome.
Variable query : string.

Lemma epub_text_step (o : Epub.ExtractOutcome) (h : Epub.EpubHandler) (i : Z) :
  0 <= i < len (Epub.chapters h) ->
  exists text h1,
    Epub.getChapterText o i h = (Ok text, h1) /\
    Epub.textContent h1 !! i = Some text /\
    Epub.chapters h1 = Epub.chapters h /\
    Epub.textContent h ⊆ Epub.textContent h1.
Proof.
  intros Hi. unfold Epub.getChapterText. rewrite (epub_guard_false h i Hi).
  destruct (Epub.textContent h !! i) as [cached |] eqn:Hc.
  { exists cached, h. auto. }
  destruct (chapter_lookup_valid _ _ Hi) as [chapter ->].
  destruct o as [text |];
    [destruct (bool_decide (is_Some (Epub.book h)) && Epub.truthy (href chapter)) |];
    eexists _, _; (split; [reflexivity |]); simpl;
    (split; [apply lookup_insert_eq |]); (split; [reflexivity |]);
    apply insert_subseteq; exact Hc.
Qed.

Lemma epub_searchFrom_fills (fuel : nat) (i : Z) (h : Epub.EpubHandler) :
  0 <= i -> len (Epub.chapters h) - i <= Z.of_nat fuel ->
  exists hits h',
    Epub.searchFrom lib query fuel i h = (Ok hits, h') /\
    Epub.chapters h' = Epub.chapters h /\
    Epub.textContent h ⊆ Epub.textContent h' /\
    allCached (Epub.textContent h') (seqZ i (len (Epub.chapters h) - i)) /\
    hits = omap (chapterHit query (Epub.chapters h) (Epub.textContent h'))
                (seqZ i (len (Epub.chapters h) - i)).
Proof.
  revert i h. induction fuel as [| fuel IH]; intros i h Hi Hfuel.
  - exists [], h. rewrite seqZ_nil by lia. repeat split; [reflexivity | constructor].
  - cbn [Epub.searchFrom]. destruct (Z_lt_dec i (len (Epub.chapters h))) as [Hlt | Hge].
    + replace (i <? len (Epub.chapters h)) with true by (symmetry; apply Z.ltb_lt; exact Hlt).
      destruct (epub_text_step (lib i) h i ltac:(lia)) as (text & h1 & -> & Hc & Hcs & Hsub).
      assert (Hfuel1 : len (Epub.chapters h1) - (i + 1) <= Z.of_nat fuel) by (rewrite Hcs; lia).
      destruct (IH (i + 1) h1 ltac:(lia) Hfuel1) as (rest & h2 & -> & Hcs2 & Hsub2 & Hall & Hrest).
      rewrite Hcs in *.
      replace (len (Epub.chapters h) - (i + 1)) with (Z.pred (len (Epub.chapters h) - i)) in * by lia.
      change (i + 1) with (Z.succ i) in *.
      eexists _, h2. split; [reflexivity |].
      split; [exact Hcs2 |]. split; [etransitivity; eassumption |].
      rewrite (seqZ_cons i) by lia.
      pose proof (lookup_weaken _ _ _ _ Hc Hsub2) as Hc2.
      split; [constructor; [rewrite Hc2; eauto | exact Hall] |].
      cbn [omap list_omap]. unfold chapterHit at 1. rewrite Hc2, Hrest.
      destruct (includes (toLowerCase query) (toLowerCase text)); reflexivity.
    + replace (i <? len (Epub.chapters h)) with false by (symmetry; apply Z.ltb_ge; lia).
      exists [], h. rewrite seqZ_nil by lia. repeat split; [reflexivity | constructor].
Qed.

Lemma epub_searchFrom_cached (lib2 : Z -> Epub.ExtractOutcome) (query2 : string)
    (fuel : nat) (i : Z) (h : Epub.EpubHandler) :
  0 <= i -> len (Epub.chapters h) - i <= Z.of_nat fuel ->
  allCached (Epub.textContent h) (seqZ i (len (Epub.chapters h) - i)) ->
  Epub.searchFrom lib2 query2 fuel i h
  = (Ok (omap (chapterHit query2 (Epub.chapters h) (Epub.textContent h))
              (seqZ i (len (Epub.chapters h) - i))), h).
Proof.
  revert i. induction fuel as [| fuel IH]; intros i Hi Hfuel Hall.
  - rewrite seqZ_nil by lia. reflexivity.
  - cbn [Epub.searchFrom]. destruct (Z_lt_dec i (len (Epub.chapters h))) as [Hlt | Hge].
    + replace (i <? len (Epub.chapters h)) with true by (symmetry; apply Z.ltb_lt; exact Hlt).
      rewrite (seqZ_cons i) in * by lia.
      apply Forall_cons in Hall as [[text Hc] Hall].
      rewrite (epub_cache_hit (lib2 i) h i text ltac:(lia) Hc).
      replace (Z.pred (len (Epub.chapters h) - i)) with (len (Epub.chapters h) - Z.succ i) in * by lia.
      change (i + 1) with (Z.succ i).
      rewrite (IH (Z.succ i)) by (try lia; exact Hall).
      cbn [omap list_omap]. unfold chapterHit at 2. rewrite Hc.
      destruct (includes (toLowerCase query2) (toLowerCase text)); reflexivity.
    + replace (i <? len (Epub.chapters h)) with false by (symmetry; apply Z.ltb_ge; lia).
      rewrite seqZ_nil by lia. reflexivity.
Qed.

End SearchEpub.

Section Search.
Import JsString Props.

Lemma omap_pages_sublist {A} (f : Z -> option A) (page : A -> Z) (l : list Z) :
  (forall n a, f n = Some a -> page a = n) -> sublist (page <$> omap f l) l.
Proof.
  intros Hf. induction l as [| n l IH]; [constructor |].
  cbn [omap list_omap]. destruct (f n) as [a |] eqn:E.
  - cbn [fmap list_fmap]. rewrite (Hf n a E). constructor. exact IH.
  - constructor. exact IH.
Qed.

Lemma pageHit_page (query : string) (cache : gmap Z string) (n : Z) (hit : Pdf.PageHit) :
  pageHit query cache n = Some hit -> Pdf.hitPage hit = n.
Proof.
  unfold pageHit. destruct (cache !! n); [| discriminate].
  destruct (includes _ _); [| discriminate]. intros H. injection H as <-. reflexivity.
Qed.

Lemma chapterHit_chapter (query : string) (cs : list Chapter) (cache : gmap Z string) (i : Z)
    (hit : Epub.ChapterHit) :
  chapterHit query cs cache i = Some hit -> Epub.hitChapter hit = i.
Proof.
  unfold chapterHit. destruct (cache !! i); [| discriminate].
  destruct (includes _ _); [| discriminate]. intros H. injection H as <-. reflexivity.
Qed.

Lemma search_fills_cache_aux
    (plib : Z -> Pdf.TextOutcome) (ph : Pdf.PdfHandler)
    (elib : Z -> Epub.ExtractOutcome) (eh : Epub.EpubHandler) (query : string) :
  (exists hits ph',
     Pdf.search plib query ph = (Ok hits, ph') /\
     Pdf.totalPages ph' = Pdf.totalPages ph /\
     Pdf.textContent ph ⊆ Pdf.textContent ph' /\
     allCached (Pdf.textContent ph') (seqZ 1 (Pdf.totalPages ph)) /\
     hits = pageHits query (Pdf.textContent ph') (Pdf.totalPages ph) /\
     sublist (Pdf.hitPage <$> hits) (seqZ 1 (Pdf.totalPages ph))) /\
  (exists hits eh',
     Epub.search elib query eh = (Ok hits, eh') /\
     Epub.chapters eh' = Epub.chapters eh /\
     Epub.textContent eh ⊆ Epub.textContent eh' /\
     allCached (Epub.textContent eh') (seqZ 0 (len (Epub.chapters eh))) /\
     hits = chapterHits query (Epub.chapters eh) (Epub.textContent eh') /\
     sublist (Epub.hitChapter <$> hits) (seqZ 0 (len (Epub.chapters eh)))).
Proof.
  split.
  - destruct (pdf_searchFrom_fills plib query (Z.to_nat (Pdf.totalPages ph)) 1 ph
                ltac:(lia) ltac:(lia)) as (hits & ph' & Hs & Ht & Hsub & Hall & Hhits).
    replace (Pdf.totalPages ph - 1 + 1) with (Pdf.totalPages ph) in * by lia.
    exists hits, ph'. repeat (split; [assumption |]).
    rewrite Hhits. apply omap_pages_sublist. apply pageHit_page.
  - destruct (epub_searchFrom_fills elib query (length (Epub.chapters eh)) 0 eh
                ltac:(lia) ltac:(unfold len; lia)) as (hits & eh' & Hs & Hc & Hsub & Hall & Hhits).
    replace (len (Epub.chapters eh) - 0) with (len (Epub.chapters eh)) in * by lia.
    exists hits, eh'. repeat (split; [assumption |]).
    rewrite Hhits. apply omap_pages_sublist. apply chapterHit_chapter.
Qed.

(** X3: [search] of either adapter returns without throwing, whatever
    the library answers unit by unit.  Afterwards every page from 1 to
    [totalPages] (every chapter index of the list) has an entry in the text
    cache and the entries that were there are kept; the hits are, in
    ascending order, those units whose cached text holds the query up to
    case, each with the excerpt of that text (and, for a chapter, its
    title). *)
Theorem search_fills_cache
    (plib : Z -> Pdf.TextOutcome) (ph : Pdf.PdfHandler)
    (elib : Z -> Epub.ExtractOutcome) (eh : Epub.EpubHandler) (query : string) :
  (exists hits ph',
     Pdf.search plib query ph = (Ok hits, ph') /\
     Pdf.totalPages ph' = Pdf.totalPages ph /\
     Pdf.textContent ph ⊆ Pdf.textContent ph' /\
     allCached (Pdf.textContent ph') (seqZ 1 (Pdf.totalPages ph)) /\
     hits = pageHits query (Pdf.textContent ph') (Pdf.totalPages ph) /\
     sublist (Pdf.hitPage <$> hits) (seqZ 1 (Pdf.totalPages ph))) /\
  (exists hits eh',
     Epub.search elib query eh = (Ok hits, eh') /\
     Epub.chapters eh' = Epub.chapters eh /\
     Epub.textContent eh ⊆ Epub.textContent eh' /\
     allCached (Epub.textContent eh') (seqZ 0 (len (Epub.chapters eh))) /\
     hits = chapterHits query (Epub.chapters eh) (Epub.textContent eh') /\
     sublist (Epub.hitChapter <$> hits) (seqZ 0 (len (Epub.chapters eh)))).
Proof. apply search_fills_cache_aux. Qed.

(** X4: a search that follows a search is served from the cache: on the
    adapter a first [search] leaves, any second [search], for any query
    and whatever the library would answer, returns the hits read off the
    cached texts and leaves the adapter as it is. *)
Theorem search_again_from_cache
    (plib plib2 : Z -> Pdf.TextOutcome) (ph : Pdf.PdfHandler)
    (elib elib2 : Z -> Epub.ExtractOutcome) (eh : Epub.EpubHandler) (query query2 : string) :
  Pdf.search plib2 query2 (snd (Pdf.search plib query ph))
  = (Ok (pageHits query2 (Pdf.textContent (snd (Pdf.search plib query ph)))
                  (Pdf.totalPages ph)),
     snd (Pdf.search plib query ph)) /\
  Epub.search elib2 query2 (snd (Epub.search elib query eh))
  = (Ok (chapterHits query2 (Epub.chapters eh)
                     (Epub.textContent (snd (Epub.search elib query eh)))),
     snd (Epub.search elib query eh)).
Proof.
  destruct (search_fills_cache_aux plib ph elib eh query)
    as [(phits & ph' & Hp & Hpt & _ & Hpall & _) (ehits & eh' & He & Hec & _ & Heall & _)].
  rewrite Hp, He. cbn [snd]. split.
  - unfold Pdf.search. rewrite Hpt.
    rewrite (pdf_searchFrom_cached plib2 query2 _ 1 ph') by
      (rewrite ?Hpt; try lia; replace (Pdf.totalPages ph - 1 + 1) with (Pdf.totalPages ph) by lia;
       exact Hpall).
    rewrite Hpt. replace (Pdf.totalPages ph - 1 + 1) with (Pdf.totalPages ph) by lia.
    reflexivity.
  - unfold Epub.search. rewrite Hec.
    rewrite (epub_searchFrom_cached elib2 query2 _ 0 eh') by
      (rewrite ?Hec; unfold len; try lia;
       replace (Z.of_nat (length (Epub.chapters eh)) - 0) with (len (Epub.chapters eh))
         by (unfold len; lia);
       exact Heall).
    rewrite Hec. replace (len (Epub.chapters eh) - 0) with (len (Epub.chapters eh)) by lia.
    reflexivity.
Qed.

End Search.

(** ** Adapters after teardown, rendering and the page records *)
Section AdapterLifecycle.
Import Props.

(** X5: an adapter that has been destroyed serves no unit: on the PDF
    adapter [renderPage] and [getPageText] throw "Invalid page number" for
    every page number, on the EPUB adapter [getChapterText] throws "Invalid
    chapter index" for every index, all leaving the adapter as [destroy]
    left it; [search] on either returns an empty list of hits instead of
    throwing. *)
Theorem destroyed_adapter_serves_nothing
    (w : Browser) (ph : Pdf.PdfHandler) (eh : Epub.EpubHandler) (n : Z)
    (r : Pdf.RenderOutcome) (t : Pdf.TextOutcome) (x : Epub.ExtractOutcome)
    (plib : Z -> Pdf.TextOutcome) (elib : Z -> Epub.ExtractOutcome) (query : string) :
  let ph' := snd (Pdf.destroy (w, ph)) in
  let eh' := snd (Epub.destroy (w, eh)) in
  Pdf.renderPage r n ph' = (Throw "Invalid page number", ph') /\
  Pdf.getPageText t n ph' = (Throw "Invalid page number", ph') /\
  Epub.getChapterText x n eh' = (Throw "Invalid chapter index", eh') /\
  Pdf.search plib query ph' = (Ok [], ph') /\
  Epub.search elib query eh' = (Ok [], eh').
Proof.
  intros ph' eh'.
  assert (Hguard : (n <? 1) || (0 <? n) = true).
  { destruct (Z_lt_dec n 1); [rewrite (proj2 (Z.ltb_lt _ _)) by lia; reflexivity |].
    rewrite (proj2 (Z.ltb_lt 0 n)) by lia. apply orb_true_r. }
  assert (Hguard' : (n <? 0) || (0 <=? n) = true).
  { destruct (Z_lt_dec n 0); [rewrite (proj2 (Z.ltb_lt _ _)) by lia; reflexivity |].
    rewrite (proj2 (Z.leb_le 0 n)) by lia. apply orb_true_r. }
  split; [| split; [| split; [| split]]].
  - unfold Pdf.renderPage. change (Pdf.totalPages ph') with 0. rewrite Hguard. reflexivity.
  - unfold Pdf.getPageText. change (Pdf.totalPages ph') with 0. rewrite Hguard. reflexivity.
  - unfold Epub.getChapterText. change (len (Epub.chapters eh')) with 0.
    rewrite Hguard'. reflexivity.
  - reflexivity.
  - reflexivity.
Qed.

Lemma alter_keeps_numbers (w ht : Q) (k : nat) (ps : list Pdf.PageInfo) :
  Pdf.pageNumber <$>
    alter (fun p => {| Pdf.pageNumber := Pdf.pageNumber p; Pdf.width := w; Pdf.height := ht |}) k ps
  = Pdf.pageNumber <$> ps.
Proof.
  revert k. induction ps as [| p ps IH]; intros k; [reflexivity |].
  destruct k as [| k]; simpl; [reflexivity |]. f_equal. apply IH.
Qed.

(** X6: [renderPage] on a valid page number returns markup, never an
    exception, whatever the library does; it leaves the text cache, the page
    count and the document untouched, keeps the page records in number and
    in page numbers, and changes no record but the one of that page. *)
Theorem renderPage_keeps_cache_and_records
    (r : Pdf.RenderOutcome) (n : Z) (h : Pdf.PdfHandler) :
  1 <= n <= Pdf.totalPages h ->
  exists markup h',
    Pdf.renderPage r n h = (Ok markup, h') /\
    Pdf.textContent h' = Pdf.textContent h /\
    Pdf.totalPages h' = Pdf.totalPages h /\
    Pdf.pdfDocument h' = Pdf.pdfDocument h /\
    length (Pdf.pages h') = length (Pdf.pages h) /\
    Pdf.pageNumber <$> Pdf.pages h' = Pdf.pageNumber <$> Pdf.pages h /\
    delete (Z.to_nat (n - 1)) (Pdf.pages h') = delete (Z.to_nat (n - 1)) (Pdf.pages h).
Proof.
  intros Hn. unfold Pdf.renderPage. rewrite range_guard_false by lia.
  destruct r as [w ht canvas |]; [destruct (Pdf.hasEngine h) |];
    eexists _, _; (split; [reflexivity |]); cbn [Pdf.setPages Pdf.textContent Pdf.totalPages
      Pdf.pdfDocument Pdf.pages]; repeat split;
    try apply length_alter; try apply alter_keeps_numbers.
  generalize (Z.to_nat (n - 1)). intros k. generalize (Pdf.pages h). intros ps.
  revert k. induction ps as [| p ps IH]; intros k; [reflexivity |].
  destruct k as [| k]; simpl; [reflexivity |]. f_equal. apply IH.
Qed.

Lemma renderPage_keeps_cache_and_records_witness :
  exists markup h',
    Pdf.renderPage (Pdf.Drawn 918 1188 "<canvas></canvas>") 7 (Reference.pdfWithPages 45)
    = (Ok markup, h') /\
    Pdf.textContent h' = Pdf.textContent (Reference.pdfWithPages 45) /\
    Pdf.width <$> Pdf.pages h' !! 6%nat = Some 918%Q.
Proof.
  destruct (renderPage_keeps_cache_and_records (Pdf.Drawn 918 1188 "<canvas></canvas>") 7
              (Reference.pdfWithPages 45))
    as (markup & h' & Hr & Hc & _); [vm_compute; split; discriminate |].
  exists markup, h'. split; [exact Hr |]. split; [exact Hc |].
  vm_compute in Hr. injection Hr as _ <-. reflexivity.
Defined.

Lemma getPageText_normalised_witness :
  exists text,
    Pdf.getPageText (Pdf.TextItems ["  Chapter   1 "; " "; "-------- end"]) 3
                    (Reference.pdfWithPages 45)
    = (Ok text, Pdf.cacheText 3 text (Reference.pdfWithPages 45)) /\
    normalised text = true.
Proof.
  apply (getPageText_normalised (Reference.pdfWithPages 45) 3).
  - vm_compute. split; discriminate.
  - reflexivity.
  - reflexivity.
Defined.

End AdapterLifecycle.

(** ** Loading an EPUB *)
Section EpubLoading.
Import Epub.

Lemma fmap_imap_indep {A B C} (f : B -> C) (g : nat -> A -> B) (k : A -> C) (l : list A) :
  (forall i x, f (g i x) = k x) -> f <$> imap g l = k <$> l.
Proof.
  revert g. induction l as [| x l IH]; intros g Hg; [reflexivity |].
  simpl. rewrite Hg. f_equal. apply IH. intros i y. apply Hg.
Qed.

Lemma take_min_length {A} (n : nat) (l : list A) : take (Nat.min (length l) n) l = take n l.
Proof.
  destruct (Nat.le_gt_cases (length l) n) as [Hle | Hgt].
  - rewrite Nat.min_l by exact Hle. rewrite !take_ge by lia. reflexivity.
  - rewrite Nat.min_r by lia. reflexivity.
Qed.

(** X7: the chapters of a loaded EPUB follow their source in order.
    With a table of contents there is one chapter per entry, with the
    entry's [href], however many entries there are; without one the
    chapters are the first 200 items of the spine, with their [href]s, and
    the items beyond are left out; when neither can be read there is the
    single chapter "Chapter 1" with an empty [href]. *)
Theorem extractChaptersLazy_follows_source
    (b : nat) (h : EpubHandler) (entry : TocEntry) (toc : list TocEntry)
    (spine : option (list SpineItem)) (items : list SpineItem) :
  href <$> chapters (snd (loadBook (Opened b (NavLoaded (entry :: toc) spine)) h))
  = tocHref <$> entry :: toc /\
  href <$> chapters (snd (loadBook (Opened b (NavLoaded [] (Some items))) h))
  = (fun item => Some (itemHref item)) <$> take 200 items /\
  (length (chapters (snd (loadBook (Opened b (NavLoaded [] (Some items))) h))) <= 200)%nat /\
  (fun c => (title c, href c)) <$> chapters (snd (loadBook (Opened b (NavLoaded [] None)) h))
  = [("Chapter 1", Some EmptyString)] /\
  (fun c => (title c, href c)) <$> chapters (snd (loadBook (Opened b NavRejected) h))
  = [("Chapter 1", Some EmptyString)].
Proof.
  split; [| split; [| split; [| split]]]; cbn [loadBook extractChaptersLazy setBook book snd
                                               setChapters chapters].
  - apply (fmap_imap_indep href tocChapter tocHref). reflexivity.
  - rewrite take_min_length.
    apply (fmap_imap_indep href spineChapter (fun item => Some (itemHref item))). reflexivity.
  - rewrite length_imap, length_take. lia.
  - reflexivity.
  - reflexivity.
Qed.

Lemma estimate_at_least_one (h : EpubHandler) : (1 <= estimateTotalPages h)%Q.
Proof.
  unfold estimateTotalPages. pose proof (len_nonneg (chapters h)) as Hn.
  destruct (negb (bool_decide (is_Some (book h))) || (len (chapters h) =? 0)) eqn:E;
    [apply Qle_refl |].
  apply orb_false_iff in E as [_ E]. apply Z.eqb_neq in E.
  assert (Hbase : (1 <= inject_Z (len (chapters h)) * 2)%Q) by (unfold Qle; simpl; lia).
  cbv zeta.
  destruct (100 <? len (chapters h)); [| destruct (50 <? len (chapters h))];
    (eapply Qle_trans; [exact Hbase | apply Q.le_max_l]).
Qed.

Lemma estimate_small (h : EpubHandler) :
  len (chapters h) <= 50 -> (estimateTotalPages h <= 500)%Q.
Proof.
  intros Hle. unfold estimateTotalPages. pose proof (len_nonneg (chapters h)) as Hn.
  destruct (negb (bool_decide (is_Some (book h))) || (len (chapters h) =? 0));
    [unfold Qle; simpl; lia |].
  cbv zeta.
  replace (100 <? len (chapters h)) with false by (symmetry; apply Z.ltb_ge; lia).
  replace (50 <? len (chapters h)) with false by (symmetry; apply Z.ltb_ge; lia).
  apply Q.max_lub; unfold Qle; simpl; lia.
Qed.

Lemma epub_descriptor_size_aux (o : LoadOutcome) (h : EpubHandler) :
  (1 <= bdTotalPages (fst (loadBook o h)))%Q /\
  match o with
  | Opened _ _ =>
      bdIsLargeFile (fst (loadBook o h))
      = Some (50 <? len (bdChapters (fst (loadBook o h))))
  | _ =>
      bdIsLargeFile (fst (loadBook o h)) = None /\
      bdTotalPages (fst (loadBook o h)) = 90%Q /\
      length (bdChapters (fst (loadBook o h))) = 5%nat
  end.
Proof.
  destruct o as [| b | b nav]; cbn [loadBook mockLoadBook fst bdTotalPages bdIsLargeFile bdChapters].
  - split; [vm_compute; discriminate | repeat split].
  - split; [vm_compute; discriminate | repeat split].
  - split; [apply estimate_at_least_one |]. f_equal.
    set (h' := extractChaptersLazy nav (setBook (Some b) h)).
    destruct (50 <? len (chapters h')) eqn:E; [reflexivity |].
    apply Z.ltb_ge in E. simpl.
    apply negb_false_iff, Qle_bool_iff, estimate_small, E.
Qed.

(** X8: the descriptor of an EPUB always counts at least one page.  On
    the real path its [isLargeFile] is exactly "more than 50 chapters": the
    estimated page count never decides it.  On the mock path it has five
    chapters, 90 pages and no [isLargeFile]. *)
Theorem epub_descriptor_size (o : LoadOutcome) (h : EpubHandler) :
  (1 <= bdTotalPages (fst (loadBook o h)))%Q /\
  match o with
  | Opened _ _ =>
      bdIsLargeFile (fst (loadBook o h))
      = Some (50 <? len (bdChapters (fst (loadBook o h))))
  | _ =>
      bdIsLargeFile (fst (loadBook o h)) = None /\
      bdTotalPages (fst (loadBook o h)) = 90%Q /\
      length (bdChapters (fst (loadBook o h))) = 5%nat
  end.
Proof. apply epub_descriptor_size_aux. Qed.

Lemma loadEpub_fields (bd : BookData) (r : App.Rendering) (app : App.App) :
  App.chapters (App.stateOf (App.loadEpub bd r app)) = bdChapters bd /\
  App.isLargeFile (App.stateOf (App.loadEpub bd r app)) = bdIsLargeFile bd /\
  App.totalPages (App.stateOf (App.loadEpub bd r app)) = bdTotalPages bd /\
  App.currentChapter (App.stateOf (App.loadEpub bd r app)) = 0 /\
  App.currentPage (App.stateOf (App.loadEpub bd r app)) = 1.
Proof.
  unfold App.loadEpub, App.renderCurrentChapter.
  cbn [App.epubHandler App.currentChapter].
  match goal with
  | |- context [App.chapterAt ?a ?i] => destruct (App.chapterAt a i)
  end; [destruct r |]; repeat split.
Qed.

(** X9: after an EPUB has been opened the chapter list is windowed
    exactly when the book was loaded on the real path and has more than 100
    chapters; the fallback book of the mock path is always listed in full. *)
Theorem epub_windowed_above_100
    (o : LoadOutcome) (h : EpubHandler) (r : App.Rendering) (app : App.App) :
  let app' := App.stateOf (App.loadEpub (fst (loadBook o h)) r app) in
  App.virtualized app'
  = match o with
    | Opened _ _ => 100 <? len (App.chapters app')
    | _ => false
    end.
Proof.
  intros app'. unfold App.virtualized.
  destruct (loadEpub_fields (fst (loadBook o h)) r app) as (Hcs & Hflag & _).
  fold app' in Hcs, Hflag. rewrite Hflag.
  pose proof (epub_descriptor_size_aux o h) as [_ Hd].
  destruct o as [| b | b nav].
  - destruct Hd as [-> _]. reflexivity.
  - destruct Hd as [-> _]. reflexivity.
  - rewrite Hd, Hcs.
    set (n := len (bdChapters (fst (loadBook (Opened b nav) h)))).
    change (default false (Some (50 <? n))) with (50 <? n).
    destruct (100 <? n) eqn:E; [| apply andb_false_r].
    apply Z.ltb_lt in E. rewrite (proj2 (Z.ltb_lt 50 n)) by lia. reflexivity.
Qed.

End EpubLoading.

(** ** The windowed chapter list *)
Section ChapterWindow.
Import App Props.

Lemma activeItems_app (l1 l2 : list ListItem) :
  activeItems (l1 ++ l2) = activeItems l1 ++ activeItems l2.
Proof. unfold activeItems. apply omap_app. Qed.

Lemma activeItems_others (app : App) (l : list Z) :
  Forall (fun i => i <> currentChapter app) l -> activeItems (chapterItem app <$> l) = [].
Proof.
  induction 1 as [| i l Hi _ IH]; [reflexivity |].
  cbn [fmap list_fmap]. unfold activeItems, chapterItem at 1. cbn [omap list_omap].
  replace (i =? currentChapter app) with false by (symmetry; apply Z.eqb_neq; exact Hi).
  exact IH.
Qed.

Lemma activeItems_current (app : App) (l : list ListItem) :
  activeItems (chapterItem app (currentChapter app) :: l)
  = currentChapter app :: activeItems l.
Proof.
  unfold activeItems, chapterItem. cbn [omap list_omap]. rewrite Z.eqb_refl. reflexivity.
Qed.

Lemma activeItems_range (app : App) (a k : Z) :
  a <= currentChapter app < a + k ->
  activeItems (chapterItem app <$> seqZ a k) = [currentChapter app].
Proof.
  intros Hc. set (c := currentChapter app) in *.
  replace k with ((c - a) + (k - (c - a))) by lia.
  rewrite seqZ_app by lia. replace (a + (c - a)) with c by lia.
  rewrite (seqZ_cons c) by lia.
  rewrite fmap_app, fmap_cons, activeItems_app.
  rewrite activeItems_others, activeItems_current, activeItems_others; [reflexivity | |].
  - apply Forall_forall. intros i Hi. apply elem_of_seqZ in Hi. fold c. lia.
  - apply Forall_forall. intros i Hi. apply elem_of_seqZ in Hi. fold c. lia.
Qed.

(** X10: for a windowed list and a current chapter inside the book,
    [updateChaptersList] shows the chapters from [max 0 (current - 25)] on,
    at least 26 and at most 50 of them, always including the current
    chapter, and marks the current chapter, and no other, as active. *)
Theorem updateChaptersList_window (app : App) :
  virtualized app = true -> 0 <= currentChapter app < len (chapters app) ->
  let start := Z.max 0 (currentChapter app - 25) in
  let shown := Z.min (len (chapters app)) (start + 50) - start in
  window (updateChaptersList app) = seqZ start shown /\
  26 <= shown <= 50 /\
  start <= currentChapter app < start + shown /\
  activeItems (updateChaptersList app) = [currentChapter app].
Proof.
  intros Hv Hc start shown.
  assert (Hlen : 100 < len (chapters app)).
  { unfold virtualized in Hv. apply andb_true_iff in Hv as [_ Hv]. apply Z.ltb_lt, Hv. }
  assert (Hshown : 26 <= shown <= 50) by (unfold shown, start; lia).
  assert (Hin : start <= currentChapter app < start + shown) by (unfold shown, start; lia).
  unfold updateChaptersList. rewrite Hv. fold start. fold shown.
  split; [| split; [exact Hshown | split; [exact Hin |]]].
  - rewrite !window_app, window_chapterItems.
    destruct (0 <? start), (Z.min (len (chapters app)) (start + 50) <? len (chapters app));
      cbn [window omap list_omap List.app]; rewrite ?app_nil_r; reflexivity.
  - rewrite !activeItems_app, (activeItems_range app start shown Hin).
    destruct (0 <? start), (Z.min (len (chapters app)) (start + 50) <? len (chapters app));
      reflexivity.
Qed.

Lemma updateChaptersList_window_witness :
  window (updateChaptersList Reference.longEpubAt150) = seqZ 125 50 /\
  activeItems (updateChaptersList Reference.longEpubAt150) = [150].
Proof.
  assert (Hv : virtualized Reference.longEpubAt150 = true) by (vm_compute; reflexivity).
  assert (Hc : 0 <= currentChapter Reference.longEpubAt150
               < len (chapters Reference.longEpubAt150))
    by (vm_compute; split; [discriminate | reflexivity]).
  destruct (updateChaptersList_window Reference.longEpubAt150 Hv Hc) as (Hw & _ & _ & Ha).
  split; [exact Hw | exact Ha].
Defined.

Lemma clickWindow_jump (item : ListItem) (a b : Z) (app : App) (items : list ListItem) :
  activate item app = Some (showChapterRange a b app) ->
  showChapterRange a b app = Ok items ->
  clickWindow (Some item) app = Some (window items).
Proof. intros Ha Hs. unfold clickWindow. cbn [mbind option_bind]. rewrite Ha, Hs. reflexivity. Qed.

(** X11: in the list [showChapterRange] builds for a full window of 50
    chapters that does not reach the end, the trailing affordance shows the
    chapters that follow, up to 50 of them, and the leading affordance of
    that next list shows the first window again: forward and back is a
    round trip. *)
Theorem jump_forward_and_back (start : Z) (app : App) :
  0 <= start -> start + 50 < len (chapters app) ->
  exists items ahead,
    showChapterRange start (start + 50) app = Ok items /\
    window items = seqZ start 50 /\
    showChapterRange (start + 50) (Z.min (len (chapters app)) (start + 100)) app = Ok ahead /\
    clickWindow (trailing items) app = Some (window ahead) /\
    window ahead
    = seqZ (start + 50) (Z.min (len (chapters app)) (start + 100) - (start + 50)) /\
    clickWindow (leading ahead) app = Some (window items).
Proof.
  intros Hs He. set (n := len (chapters app)) in *.
  destruct (showChapterRange_view start (start + 50) app Hs) as (items & Hitems & Hw & _ & Ht).
  fold n in Hw, Ht. specialize (Ht He).
  destruct (showChapterRange_view (start + 50) (Z.min n (start + 100)) app ltac:(lia))
    as (ahead & Hahead & Hwa & Hl & _).
  fold n in Hwa. specialize (Hl ltac:(lia)).
  exists items, ahead.
  replace (Z.min (start + 50) n - start) with 50 in Hw by lia.
  replace (start + 50 + 50) with (start + 100) in Ht by lia.
  replace (Z.min (Z.min n (start + 100)) n) with (Z.min n (start + 100)) in Hwa by lia.
  replace (Z.max 0 (start + 50 - 50)) with start in Hl by lia.
  split; [exact Hitems |]. split; [exact Hw |]. split; [exact Hahead |].
  split; [| split; [exact Hwa |]].
  - rewrite Ht. eapply clickWindow_jump; [reflexivity | exact Hahead].
  - rewrite Hl. eapply clickWindow_jump; [reflexivity | exact Hitems].
Qed.

Lemma jump_forward_and_back_witness :
  exists items ahead,
    showChapterRange 125 175 Reference.longEpubAt150 = Ok items /\
    window ahead = seqZ 175 50 /\
    clickWindow (leading ahead) Reference.longEpubAt150 = Some (seqZ 125 50).
Proof.
  destruct (jump_forward_and_back 125 Reference.longEpubAt150)
    as (items & ahead & H1 & H2 & _ & _ & H5 & H6);
    [lia | vm_compute; reflexivity |].
  exists items, ahead. split; [exact H1 |].
  split; [rewrite H5; vm_compute; reflexivity | rewrite H6, H2; reflexivity].
Defined.

End ChapterWindow.

(** ** Navigation keeps the position inside the document *)
Section Navigation.
Import App Props.

Lemma chapterAt_Some (app : App) (i : Z) (c : Chapter) :
  chapterAt app i = Some c -> 0 <= i < len (chapters app).
Proof.
  unfold chapterAt. destruct (i <? 0) eqn:E; [discriminate |].
  apply Z.ltb_ge in E. intros H. apply lookup_lt_Some in H. unfold len. lia.
Qed.

Local Ltac frame_with new :=
  cbn; do 5 (split; [reflexivity |]); exists new;
  split; [rewrite ?app_nil_r; reflexivity |].

(** What a rendering of the current unit changes: nothing of the position
    or the document, and at most one call, for the current page or for the
    current chapter, the latter only when it is a chapter of the list. *)
Lemma renderCurrentContent_frame (r : Rendering) (app : App) :
  let app' := stateOf (renderCurrentContent r app) in
  currentChapter app' = currentChapter app /\
  currentPage app' = currentPage app /\
  chapters app' = chapters app /\
  totalPages app' = totalPages app /\
  chaptersList app' = chaptersList app /\
  exists new,
    calls app' = calls app ++ new /\
    Forall (fun c =>
              (exists obj, c = RenderPageCall obj (currentPage app)) \/
              ((exists obj, c = RenderChapterCall obj (currentChapter app)) /\
               0 <= currentChapter app < len (chapters app))) new.
Proof.
  unfold renderCurrentContent, renderCurrentChapter, renderCurrentPage.
  destruct (currentBook app) as [file |]; [| frame_with (@nil Call); constructor].
  destruct (String.eqb (extension file) ".epub").
  - destruct (epubHandler app) as [obj |]; [| frame_with (@nil Call); constructor].
    destruct (chapterAt app (currentChapter app)) as [c |] eqn:E;
      [| frame_with (@nil Call); constructor].
    apply chapterAt_Some in E.
    destruct r; frame_with [RenderChapterCall obj (currentChapter app)];
      (apply Forall_cons; split; [right; eauto | constructor]).
  - destruct (String.eqb (extension file) ".pdf"); [| frame_with (@nil Call); constructor].
    destruct (pdfHandler app) as [obj |]; [| frame_with (@nil Call); constructor].
    destruct r; frame_with [RenderPageCall obj (currentPage app)];
      (apply Forall_cons; split; [left; eauto | constructor]).
Qed.

Lemma render_step (total : Z) (r : Rendering) (app0 app : App) :
  navReady total app -> chapters app = chapters app0 -> totalPages app = totalPages app0 ->
  calls app = calls app0 ->
  stepOutcome total app0 (stateOf (renderCurrentContent r app)).
Proof.
  intros (Ht & Hp & Hc & Hs) Hcs Htp Hcalls.
  destruct (renderCurrentContent_frame r app) as (H1 & H2 & H3 & H4 & _ & new & Hnew & Hall).
  unfold stepOutcome, navReady. rewrite H1, H2, H3, H4.
  split; [auto |]. split; [exact Hcs |]. split; [exact Htp |].
  exists new. split; [rewrite Hnew, Hcalls; reflexivity |].
  eapply Forall_impl; [exact Hall |].
  intros c [[obj ->] | [[obj ->] Hr]]; cbn; [lia | rewrite <- Hcs; lia].
Qed.

Lemma stepOutcome_refl (total : Z) (app : App) : navReady total app -> stepOutcome total app app.
Proof.
  intros H. split; [exact H |]. split; [reflexivity |]. split; [reflexivity |].
  exists []. rewrite app_nil_r. auto.
Qed.

Lemma stepOutcome_list (total : Z) (app0 app : App) (items : list ListItem) :
  stepOutcome total app0 app -> stepOutcome total app0 (setChaptersList items app).
Proof. intros H. exact H. Qed.

Lemma goToChapter_step (total : Z) (r : Rendering) (i : Z) (app0 app : App) :
  Forall (pageStartWithin total) (chapters app) ->
  (totalPages app == inject_Z total)%Q -> 1 <= currentPage app <= total ->
  0 <= i < len (chapters app) ->
  chapters app = chapters app0 -> totalPages app = totalPages app0 -> calls app = calls app0 ->
  stepOutcome total app0 (stateOf (goToChapter r i app)).
Proof.
  intros Hs Ht Hp Hi Hcs Htp Hcalls. unfold goToChapter.
  replace ((0 <=? i) && (i <? len (chapters app))) with true
    by (symmetry; apply andb_true_iff; split; [apply Z.leb_le | apply Z.ltb_lt]; lia).
  match goal with
  | |- context [renderCurrentContent r ?a] =>
      assert (Hready : navReady total a /\ chapters a = chapters app0 /\
                       totalPages a = totalPages app0 /\ calls a = calls app0);
      [| destruct Hready as (Hr & Hc1 & Hc2 & Hc3);
         pose proof (render_step total r app0 a Hr Hc1 Hc2 Hc3) as Hstep;
         destruct (renderCurrentContent r a); exact Hstep]
  end.
  change (chapterAt (setPosition i (currentPage app) app) i) with (chapterAt app i).
  destruct (chapter_lookup_valid (chapters app) i Hi) as [c Hc].
  assert (Hat : chapterAt app i = Some c).
  { unfold chapterAt. replace (i <? 0) with false by (symmetry; apply Z.ltb_ge; lia). exact Hc. }
  rewrite Hat.
  assert (Hv : pageStartWithin total c).
  { rewrite Forall_forall in Hs. apply Hs. apply list_elem_of_lookup. eauto. }
  unfold pageStartWithin in Hv.
  destruct (pageStart c) as [p |]; [destruct (p =? 0) |];
    unfold navReady; cbn; repeat split; try assumption; try lia.
Qed.

Lemma navigate_step (total : Z) (step : NavStep) (app : App) :
  navReady total app -> stepOutcome total app (navigate step app).
Proof.
  intros Hready. pose proof Hready as (Ht & Hp & Hc & Hs).
  destruct step as [r | r | r | r | r i]; unfold navigate.
  - unfold previousPage. destruct (1 <? currentPage app) eqn:E;
      [| apply stepOutcome_refl, Hready].
    apply Z.ltb_lt in E. apply render_step; try reflexivity.
    unfold navReady. cbn. repeat split; try assumption; lia.
  - unfold nextPage. destruct (beforeLastPage app) eqn:E;
      [| apply stepOutcome_refl, Hready].
    assert (Hlt : currentPage app < total).
    { unfold beforeLastPage in E. apply negb_true_iff in E.
      destruct (Z_lt_dec (currentPage app) total) as [? | Hge]; [assumption |].
      assert (Hq : Qle_bool (totalPages app) (inject_Z (currentPage app)) = true).
      { apply Qle_bool_iff. rewrite Ht. rewrite <- Zle_Qle. lia. }
      congruence. }
    apply render_step; try reflexivity.
    unfold navReady. cbn. repeat split; try assumption; lia.
  - unfold previousChapter. destruct (0 <? currentChapter app) eqn:E;
      [| apply stepOutcome_refl, Hready].
    apply Z.ltb_lt in E. apply goToChapter_step; cbn; try assumption; try reflexivity; lia.
  - unfold nextChapter. destruct (currentChapter app <? len (chapters app) - 1) eqn:E;
      [| apply stepOutcome_refl, Hready].
    apply Z.ltb_lt in E. apply goToChapter_step; cbn; try assumption; try reflexivity; lia.
  - destruct (Z_le_dec 0 i) as [H0 | H0]; [destruct (Z_lt_dec i (len (chapters app))) as [H1 | H1] |].
    + apply goToChapter_step; try assumption; try reflexivity; lia.
    + unfold goToChapter.
      replace ((0 <=? i) && (i <? len (chapters app))) with false
        by (symmetry; apply andb_false_iff; right; apply Z.ltb_ge; lia).
      apply stepOutcome_refl, Hready.
    + unfold goToChapter.
      replace ((0 <=? i) && (i <? len (chapters app))) with false
        by (symmetry; apply andb_false_iff; left; apply Z.leb_gt; lia).
      apply stepOutcome_refl, Hready.
Qed.

(** X12: navigation never leaves the document.  From a state in which
    the current page is a page of the document, the current chapter a
    chapter of the list and every [pageStart] a page of the document, any
    sequence of page steps, chapter steps and jumps to a chapter (of any
    index), with renderings that succeed or throw, ends in such a state,
    leaves the chapter list and the page count as they were, and every
    rendering it asked an adapter for was for a page between 1 and the page
    count or for a chapter of the list. *)
Theorem navigation_stays_in_range (total : Z) (steps : list NavStep) (app : App) :
  navReady total app ->
  navReady total (navigateAll steps app) /\
  chapters (navigateAll steps app) = chapters app /\
  totalPages (navigateAll steps app) = totalPages app /\
  exists new,
    calls (navigateAll steps app) = calls app ++ new /\ Forall (callInRange total app) new.
Proof.
  revert app. induction steps as [| step steps IH]; intros app Hready.
  - apply (stepOutcome_refl total app Hready).
  - destruct (navigate_step total step app Hready) as (Hr1 & Hc1 & Ht1 & new1 & Hn1 & Ha1).
    destruct (IH (navigate step app) Hr1) as (Hr2 & Hc2 & Ht2 & new2 & Hn2 & Ha2).
    change (navigateAll (step :: steps) app) with (navigateAll steps (navigate step app)).
    split; [exact Hr2 |]. split; [congruence |]. split; [congruence |].
    exists (new1 ++ new2). split; [rewrite Hn2, Hn1, app_assoc; reflexivity |].
    apply Forall_app. split; [exact Ha1 |].
    eapply Forall_impl; [exact Ha2 |].
    intros c Hc. destruct c; cbn in *; try exact Hc. rewrite <- Hc1. exact Hc.
Qed.

End Navigation.

(** ** Opening a document sets up the navigation state *)
Section Opening.
Import App Props.

Lemma sectionsFrom_pageStartWithin (fuel : nat) (total i : Z) :
  0 <= i -> Forall (pageStartWithin total) (Pdf.sectionsFrom fuel total i).
Proof.
  revert i. induction fuel as [| fuel IH]; intros i Hi; [constructor |].
  simpl. destruct (i <? total) eqn:E; [| constructor].
  apply Z.ltb_lt in E. constructor.
  - unfold pageStartWithin. simpl. lia.
  - apply IH. pose proof (size_pos total). lia.
Qed.

Lemma loadPdf_position (bd : BookData) (r : Rendering) (app : App) :
  totalPages (stateOf (loadPdf bd r app)) = bdTotalPages bd /\
  currentChapter (stateOf (loadPdf bd r app)) = 0 /\
  currentPage (stateOf (loadPdf bd r app)) = 1.
Proof. unfold loadPdf, renderCurrentPage. simpl. destruct r; auto. Qed.

Lemma loadPdf_ready (o : Pdf.LoadOutcome) (h : Pdf.PdfHandler) (r : Rendering) (app : App) :
  match o with
  | Pdf.Opened _ numPages => 1 <= numPages
  | _ => True
  end ->
  navReady (Pdf.totalPages (snd (Pdf.loadBook o h)))
           (stateOf (loadPdf (fst (Pdf.loadBook o h)) r app)).
Proof.
  intros Ho. unfold navReady.
  destruct (loadPdf_fields (fst (Pdf.loadBook o h)) r app) as [-> _].
  destruct (loadPdf_position (fst (Pdf.loadBook o h)) r app) as (-> & -> & ->).
  destruct o as [| | doc numPages];
    cbn [Pdf.loadBook Pdf.mockLoadPdf fst snd bdTotalPages bdChapters Pdf.totalPages].
  - split; [reflexivity |]. split; [lia |]. split; [unfold len; simpl; lia |].
    repeat constructor; unfold pageStartWithin; simpl; lia.
  - split; [reflexivity |]. split; [lia |]. split; [unfold len; simpl; lia |].
    repeat constructor; unfold pageStartWithin; simpl; lia.
  - split; [reflexivity |]. split; [lia |].
    split; [| apply sectionsFrom_pageStartWithin; lia].
    unfold Pdf.createChaptersFromPages. cbn [Pdf.totalPages].
    destruct (Z.to_nat numPages) as [| fuel] eqn:E; [lia |].
    rewrite sectionsFrom_step by lia. unfold len. simpl. lia.
Qed.

Lemma estimate_integer (h : Epub.EpubHandler) :
  exists t, 1 <= t /\ (Epub.estimateTotalPages h == inject_Z t)%Q.
Proof.
  unfold Epub.estimateTotalPages. pose proof (len_nonneg (Epub.chapters h)) as Hn.
  set (n := len (Epub.chapters h)) in *.
  destruct (negb (bool_decide (is_Some (Epub.book h))) || (n =? 0)) eqn:E.
  - exists 1. split; [lia | reflexivity].
  - apply orb_false_iff in E as [_ E]. apply Z.eqb_neq in E. cbv zeta.
    destruct (100 <? n) eqn:E1; [| destruct (50 <? n) eqn:E2].
    + exists (n * 2). split; [lia |].
      rewrite Q.max_l by (unfold Qle; simpl; lia). unfold Qeq. simpl. lia.
    + exists (n * 2). split; [lia |].
      rewrite Q.max_l by apply Qle_refl. unfold Qeq. simpl. lia.
    + exists (n * 3). split; [lia |].
      rewrite Q.max_r by (unfold Qle; simpl; lia). unfold Qeq. simpl. lia.
Qed.

Lemma imap_no_pageStart {A} (f : nat -> A -> Chapter) (l : list A) (total : Z) :
  (forall i x, pageStart (f i x) = None) -> Forall (pageStartWithin total) (imap f l).
Proof.
  revert f. induction l as [| x l IH]; intros f Hf; [constructor |].
  simpl. constructor; [unfold pageStartWithin; rewrite Hf; exact I |].
  apply IH. intros i y. apply Hf.
Qed.

Lemma epub_descriptor_no_pageStart (o : Epub.LoadOutcome) (h : Epub.EpubHandler) (total : Z) :
  Forall (pageStartWithin total) (bdChapters (fst (Epub.loadBook o h))).
Proof.
  destruct o as [| b | b nav]; simpl.
  - repeat constructor.
  - repeat constructor.
  - destruct nav as [[| entry toc] [spineItems |] |]; simpl;
      try (repeat constructor; fail);
      try (constructor; [exact I |]);
      apply imap_no_pageStart; reflexivity.
Qed.

Lemma loadEpub_ready (o : Epub.LoadOutcome) (h : Epub.EpubHandler) (r : Rendering) (app : App) :
  bdChapters (fst (Epub.loadBook o h)) <> [] ->
  exists total, navReady total (stateOf (loadEpub (fst (Epub.loadBook o h)) r app)).
Proof.
  intros Hne.
  assert (Htotal : exists t, 1 <= t /\ (bdTotalPages (fst (Epub.loadBook o h)) == inject_Z t)%Q).
  { destruct o as [| b | b nav]; cbn [Epub.loadBook Epub.mockLoadBook fst bdTotalPages].
    - exists 90. split; [lia | reflexivity].
    - exists 90. split; [lia | reflexivity].
    - apply estimate_integer. }
  destruct Htotal as (t & Ht1 & Ht).
  exists t. unfold navReady.
  destruct (loadEpub_fields (fst (Epub.loadBook o h)) r app) as (-> & _ & -> & -> & ->).
  split; [exact Ht |]. split; [lia |].
  split; [| apply epub_descriptor_no_pageStart].
  unfold len. destruct (bdChapters (fst (Epub.loadBook o h))); [congruence | simpl; lia].
Qed.

(** X13: opening a document puts the application in the state that
    navigation keeps: after [loadPdf] of a PDF of at least one page (or of
    the mock document) and after [loadEpub] of an EPUB with at least one
    chapter, the page count is a whole number, the current page is page 1
    of it, the current chapter is chapter 0 of a non-empty list and every
    [pageStart] is a page of the document. *)
Theorem opened_document_ready
    (po : Pdf.LoadOutcome) (ph : Pdf.PdfHandler)
    (eo : Epub.LoadOutcome) (eh : Epub.EpubHandler) (r : Rendering) (app : App) :
  match po with
  | Pdf.Opened _ numPages => 1 <= numPages
  | _ => True
  end ->
  bdChapters (fst (Epub.loadBook eo eh)) <> [] ->
  (currentPage (stateOf (loadPdf (fst (Pdf.loadBook po ph)) r app)) = 1 /\
   currentChapter (stateOf (loadPdf (fst (Pdf.loadBook po ph)) r app)) = 0 /\
   navReady (Pdf.totalPages (snd (Pdf.loadBook po ph)))
            (stateOf (loadPdf (fst (Pdf.loadBook po ph)) r app))) /\
  (currentPage (stateOf (loadEpub (fst (Epub.loadBook eo eh)) r app)) = 1 /\
   currentChapter (stateOf (loadEpub (fst (Epub.loadBook eo eh)) r app)) = 0 /\
   exists total, navReady total (stateOf (loadEpub (fst (Epub.loadBook eo eh)) r app))).
Proof.
  intros Hp He.
  destruct (loadPdf_position (fst (Pdf.loadBook po ph)) r app) as (_ & P2 & P3).
  destruct (loadEpub_fields (fst (Epub.loadBook eo eh)) r app) as (_ & _ & _ & E4 & E5).
  split.
  - split; [exact P3 |]. split; [exact P2 | apply loadPdf_ready, Hp].
  - split; [exact E5 |]. split; [exact E4 | apply loadEpub_ready, He].
Qed.

Lemma opened_document_ready_witness :
  currentPage (stateOf (loadPdf (Reference.pdfDescriptor 45) (Painted "page") constructor)) = 1 /\
  currentChapter (stateOf (loadPdf (Reference.pdfDescriptor 45) (Painted "page") constructor)) = 0 /\
  navReady 45 (stateOf (loadPdf (Reference.pdfDescriptor 45) (Painted "page") constructor)).
Proof.
  refine (proj1 (opened_document_ready (Pdf.Opened 1 45) Pdf.constructor
                   (Epub.Opened 1 Epub.NavRejected) Epub.constructor
                   (Painted "page") constructor _ _)).
  - lia.
  - discriminate.
Defined.

Lemma navigation_stays_in_range_witness :
  navReady 45 Reference.afterFirstPdf /\
  navReady 45
    (navigateAll [StepNextChapter (Painted "p"); StepPreviousPage RenderThrew;
                  StepGoToChapter (Painted "p") 99; StepNextPage (Painted "p")]
       Reference.afterFirstPdf).
Proof.
  assert (H : navReady 45 Reference.afterFirstPdf).
  { unfold navReady. vm_compute.
    split; [reflexivity |]. split; [split; discriminate |].
    split; [split; [discriminate | reflexivity] |].
    repeat (constructor; [split; discriminate |]). constructor. }
  split; [exact H | apply navigation_stays_in_range, H].
Defined.

End Opening.

(** ** Paging *)
Section Paging.
Import App Props.

Lemma nextPage_frame (r : Rendering) (app : App) :
  currentChapter (stateOf (nextPage r app)) = currentChapter app /\
  chaptersList (stateOf (nextPage r app)) = chaptersList app /\
  chapters (stateOf (nextPage r app)) = chapters app /\
  totalPages (stateOf (nextPage r app)) = totalPages app /\
  currentPage (stateOf (nextPage r app))
  = if beforeLastPage app then currentPage app + 1 else currentPage app.
Proof.
  unfold nextPage. destruct (beforeLastPage app); [| auto].
  destruct (renderCurrentContent_frame r (setPosition (currentChapter app) (currentPage app + 1) app))
    as (H1 & H2 & H3 & H4 & H5 & _).
  auto.
Qed.

Lemma previousPage_frame (r : Rendering) (app : App) :
  currentChapter (stateOf (previousPage r app)) = currentChapter app /\
  chaptersList (stateOf (previousPage r app)) = chaptersList app /\
  chapters (stateOf (previousPage r app)) = chapters app /\
  totalPages (stateOf (previousPage r app)) = totalPages app /\
  currentPage (stateOf (previousPage r app))
  = if 1 <? currentPage app then currentPage app - 1 else currentPage app.
Proof.
  unfold previousPage. destruct (1 <? currentPage app); [| auto].
  destruct (renderCurrentContent_frame r (setPosition (currentChapter app) (currentPage app - 1) app))
    as (H1 & H2 & H3 & H4 & H5 & _).
  auto.
Qed.

(** X14: paging moves the page counter only.  [nextPage] and
    [previousPage] leave the current chapter and the chapter list on screen
    as they were, whether the rendering succeeds or throws; and from a page
    that is at least 1 and before the last, [nextPage] followed by
    [previousPage] comes back to the same page. *)
Theorem paging_round_trip (r1 r2 : Rendering) (app : App) :
  (currentChapter (stateOf (nextPage r1 app)) = currentChapter app /\
   chaptersList (stateOf (nextPage r1 app)) = chaptersList app /\
   currentChapter (stateOf (previousPage r2 app)) = currentChapter app /\
   chaptersList (stateOf (previousPage r2 app)) = chaptersList app) /\
  (1 <= currentPage app -> beforeLastPage app = true ->
   currentPage (stateOf (nextPage r1 app)) = currentPage app + 1 /\
   currentPage (stateOf (previousPage r2 (stateOf (nextPage r1 app)))) = currentPage app).
Proof.
  destruct (nextPage_frame r1 app) as (N1 & N2 & _ & _ & N5).
  destruct (previousPage_frame r2 app) as (Q1 & Q2 & _).
  split; [auto |]. intros Hp Hlast. rewrite Hlast in N5.
  destruct (previousPage_frame r2 (stateOf (nextPage r1 app))) as (_ & _ & _ & _ & P5).
  rewrite N5 in P5.
  replace (1 <? currentPage app + 1) with true in P5 by (symmetry; apply Z.ltb_lt; lia).
  split; [exact N5 |]. rewrite P5. lia.
Qed.

Lemma paging_round_trip_witness :
  currentPage (stateOf (nextPage (Painted "p") Reference.afterFirstPdf)) = 2 /\
  currentPage (stateOf (previousPage RenderThrew
                          (stateOf (nextPage (Painted "p") Reference.afterFirstPdf)))) = 1.
Proof.
  apply (proj2 (paging_round_trip (Painted "p") RenderThrew Reference.afterFirstPdf)).
  - vm_compute. discriminate.
  - vm_compute. reflexivity.
Defined.

End Paging.

(** ** The keyboard *)
Section Keys.
Import Keyboard Props.

(** X15: while the focus is in an input, a text area or an editable
    element, no key is handled: the default action is not prevented and no
    method of the application is called. *)
Theorem typing_disables_keys (focus : Focus) (event : KeyEvent) (s : Session.Session) :
  typing focus -> keydown (Some focus) event s = (false, None).
Proof.
  intros Ht. unfold keydown, shouldHandleKey.
  destruct Ht as [-> | [-> | ->]]; cbn [String.eqb orb];
    [reflexivity | | rewrite !orb_true_r; reflexivity].
  destruct (String.eqb "TEXTAREA" "INPUT"); reflexivity.
Qed.

Lemma typing_disables_keys_witness :
  keydown (Some {| tagName := "TEXTAREA"; contentEditable := false |})
          {| code := "ArrowRight"; key := "ArrowRight"; ctrlKey := false; metaKey := false;
             shiftKey := false |}
          {| Session.app := Reference.afterFirstPdf; Session.settings := ∅;
             Session.keyInput := ""; Session.settingsHidden := true;
             Session.summaryHidden := true; Session.requests := []; Session.alerts := [] |}
  = (false, None).
Proof. apply typing_disables_keys. right. left. reflexivity. Defined.

Lemma handleKeyPress_allowed (event : KeyEvent) (s : Session.Session) (cmd : Command) :
  handleKeyPress event s = Some cmd -> commandAllowed event s cmd.
Proof.
  unfold handleKeyPress, isModalOpen.
  set (selector := match code event with
                   | EmptyString => key event
                   | c => c
                   end).
  destruct (String.eqb selector "ArrowLeft");
    [destruct (hasBook s) eqn:B; intros H; simplify_eq; exact B |].
  destruct (String.eqb selector "ArrowRight");
    [destruct (hasBook s) eqn:B; intros H; simplify_eq; exact B |].
  destruct (String.eqb selector "ArrowUp");
    [destruct (hasBook s) eqn:B; intros H; simplify_eq; exact B |].
  destruct (String.eqb selector "ArrowDown");
    [destruct (hasBook s) eqn:B; intros H; simplify_eq; exact B |].
  destruct (String.eqb selector "KeyS").
  { destruct (ctrlKey event) eqn:C, (metaKey event) eqn:M, (hasBook s) eqn:B,
      (Session.settingsHidden s) eqn:S1, (Session.summaryHidden s) eqn:S2;
      cbn; intros H; simplify_eq. cbn. rewrite C, M, B, S1, S2. auto. }
  destruct (String.eqb selector "Escape").
  { destruct (Session.settingsHidden s) eqn:S1, (Session.summaryHidden s) eqn:S2;
      cbn; intros H; simplify_eq; cbn; rewrite ?S1, ?S2; auto. }
  destruct (String.eqb selector "Enter").
  { destruct (ctrlKey event || metaKey event) eqn:C,
      (Session.settingsHidden s) eqn:S1, (Session.summaryHidden s) eqn:S2;
      cbn; intros H; simplify_eq. cbn. rewrite C, S1, S2. auto. }
  destruct (String.eqb selector "Space"); [| discriminate].
  destruct (Session.settingsHidden s) eqn:S1, (Session.summaryHidden s) eqn:S2,
    (hasBook s) eqn:B, (shiftKey event); cbn; intros H; simplify_eq; exact B.
Qed.

(** X16: a key press ends in a method of the application only under that
    method's conditions: page and chapter steps need an open book; a summary
    needs an open book, no Ctrl or Meta and neither the settings dialog nor
    the summary panel open; opening a file needs Ctrl or Meta and no dialog
    or panel open; the settings dialog is closed only when it is open, the
    summary panel only when it is open and the dialog is not. *)
Theorem key_commands_guarded
    (focus : option Focus) (event : KeyEvent) (s : Session.Session) (cmd : Command) :
  snd (keydown focus event s) = Some cmd -> commandAllowed event s cmd.
Proof.
  unfold keydown. destruct (shouldHandleKey focus event s); [| discriminate].
  apply handleKeyPress_allowed.
Qed.

Lemma key_commands_guarded_witness :
  commandAllowed
    {| code := "Space"; key := " "; ctrlKey := false; metaKey := false; shiftKey := true |}
    {| Session.app := Reference.afterFirstPdf; Session.settings := ∅;
       Session.keyInput := ""; Session.settingsHidden := true;
       Session.summaryHidden := true; Session.requests := []; Session.alerts := [] |}
    PreviousPage.
Proof. apply (key_commands_guarded None). vm_compute. reflexivity. Defined.

Lemma notTyping_test (f : Focus) :
  ~ typing f ->
  String.eqb (tagName f) "INPUT" || String.eqb (tagName f) "TEXTAREA" || contentEditable f
  = false.
Proof.
  intros Hn. unfold typing in Hn.
  destruct (String.eqb (tagName f) "INPUT") eqn:E1;
    [apply String.eqb_eq in E1; tauto |].
  destruct (String.eqb (tagName f) "TEXTAREA") eqn:E2;
    [apply String.eqb_eq in E2; tauto |].
  destruct (contentEditable f); [tauto | reflexivity].
Qed.

(** X17: while the settings dialog is open, a key other than Escape is
    not handled at all; Escape, reported with the code [Escape] or without
    code and with the focus outside a field, is handled and closes the
    dialog. *)
Theorem settings_dialog_takes_escape_only
    (focus : option Focus) (event : KeyEvent) (s : Session.Session) :
  Session.settingsHidden s = false ->
  (key event <> "Escape" -> keydown focus event s = (false, None)) /\
  (key event = "Escape" -> code event = "Escape" \/ code event = EmptyString ->
   notTyping focus -> keydown focus event s = (true, Some CloseSettings)).
Proof.
  intros Hopen. unfold keydown. split.
  - intros Hkey. apply String.eqb_neq in Hkey.
    unfold shouldHandleKey. rewrite Hopen, Hkey. cbn [negb andb].
    destruct focus as [f |]; [| reflexivity].
    destruct (String.eqb (tagName f) "INPUT" || String.eqb (tagName f) "TEXTAREA"
              || contentEditable f); reflexivity.
  - intros Hkey Hcode Hfocus.
    assert (Hshould : shouldHandleKey focus event s = true).
    { unfold shouldHandleKey. rewrite Hopen, Hkey, String.eqb_refl. cbn [negb andb].
      replace (bool_decide (code event ∈ handledKeys) || bool_decide ("Escape" ∈ handledKeys))
        with true by (symmetry; apply orb_true_iff; right; vm_compute; reflexivity).
      destruct focus as [f |]; [| reflexivity].
      rewrite (notTyping_test f Hfocus). reflexivity. }
    rewrite Hshould. unfold handleKeyPress. rewrite Hkey, Hopen.
    destruct Hcode as [-> | ->]; reflexivity.
Qed.

Lemma settings_dialog_takes_escape_only_witness :
  keydown None
    {| code := "ArrowRight"; key := "ArrowRight"; ctrlKey := false; metaKey := false;
       shiftKey := false |}
    {| Session.app := Reference.afterFirstPdf; Session.settings := ∅;
       Session.keyInput := ""; Session.settingsHidden := false;
       Session.summaryHidden := true; Session.requests := []; Session.alerts := [] |}
  = (false, None).
Proof.
  apply (settings_dialog_takes_escape_only None); [reflexivity | discriminate].
Defined.

End Keys.

(** ** API keys, settings and summaries *)
Section Summaries.
Import JsString Props.

Lemma trimStart_id (t : string) : startsWithSpace t = false -> trimStart t = t.
Proof. destruct t as [| c t]; [reflexivity |]. simpl. intros ->. reflexivity. Qed.

Lemma trimEnd_id (t : string) : endsWithSpace t = false -> trimEnd t = t.
Proof.
  induction t as [| c t IH]; [reflexivity |].
  destruct t as [| d t].
  - simpl. intros ->. reflexivity.
  - intros H. change (endsWithSpace (String c (String d t))) with (endsWithSpace (String d t)) in H.
    cbn [trimEnd] in *. rewrite (IH H). reflexivity.
Qed.

(** Trimming twice is trimming once. *)
Lemma trim_idempotent (s : string) : trim (trim s) = trim s.
Proof.
  unfold trim at 1.
  destruct (trimStart_normal s) as (_ & _ & Hs).
  destruct (trimEnd_normal (trimStart s)) as (_ & _ & He).
  assert (Hstart : startsWithSpace (trim s) = false).
  { destruct (startsWithSpace (trim s)) eqn:E; [| reflexivity].
    apply trimEnd_starts in E. congruence. }
  rewrite (trimStart_id _ Hstart). apply trimEnd_id. exact He.
Qed.

Lemma key_error_message :
  Main.errorMessage None "OpenAI API key is required" = "OpenAI API key is required".
Proof. vm_compute. reflexivity. Qed.

Lemma blankKey_test (key : string) :
  String.eqb key EmptyString || String.eqb (trim key) EmptyString = true <-> blankKey (Some key).
Proof.
  unfold blankKey. split.
  - intros H. apply orb_true_iff in H as [H | H]; apply String.eqb_eq in H.
    + subst key. reflexivity.
    + exact H.
  - intros H. apply orb_true_iff. right. apply String.eqb_eq. exact H.
Qed.

(** X18: the handler of [generate-summary] answers a request without key,
    or with a key of white space only, with the failure "OpenAI API key is
    required", whatever the OpenAI package would do; with any other key a
    completion that returns always gives a success; and the summary of a
    success is never the empty string. *)
Theorem summary_needs_key (api : Main.ApiOutcome) (text : string) (apiKey : option string) :
  (blankKey apiKey ->
   Main.generateSummary api text apiKey = Main.Failure "OpenAI API key is required") /\
  (~ blankKey apiKey ->
   forall content, exists summary,
     Main.generateSummary (Main.Completed content) text apiKey = Main.Success summary) /\
  (forall summary,
     Main.generateSummary api text apiKey = Main.Success summary ->
     summary <> EmptyString /\ ~ blankKey apiKey).
Proof.
  unfold Main.generateSummary. destruct apiKey as [key |].
  - destruct (String.eqb key EmptyString || String.eqb (trim key) EmptyString) eqn:E.
    + apply blankKey_test in E. rewrite key_error_message.
      split; [reflexivity |]. split; [intros Hn; contradiction |]. discriminate.
    + assert (Hn : ~ blankKey (Some key)).
      { intros Hb. apply blankKey_test in Hb. congruence. }
      split; [intros Hb; contradiction |]. split.
      * intros _ [[| c rest] |]; eexists; reflexivity.
      * intros summary H. split; [| exact Hn].
        destruct api as [| [[| c rest] |] | errorCode message]; simplify_eq; discriminate.
  - rewrite key_error_message. split; [reflexivity |].
    split; [intros Hn; exfalso; apply Hn; exact I | discriminate].
Qed.

Lemma summary_needs_key_witness :
  Main.generateSummary (Main.Completed (Some "A summary.")) "Chapter text" (Some "   ")
  = Main.Failure "OpenAI API key is required" /\
  exists summary,
    Main.generateSummary (Main.Completed None) "Chapter text" (Some " sk-1 ")
    = Main.Success summary.
Proof.
  split.
  - apply summary_needs_key. vm_compute. reflexivity.
  - apply (proj1 (proj2 (summary_needs_key Main.PackageMissing "Chapter text" (Some " sk-1 ")))).
    vm_compute. discriminate.
Defined.

Lemma saveSettings_key (ipcOk : bool) (s : Session.Session) (us : gmap string string) :
  Session.settings (fst (Session.saveSettings ipcOk (s, us))) !! "openaiApiKey"
  = Some (trim (Session.keyInput s)) /\
  Session.requests (fst (Session.saveSettings ipcOk (s, us))) = Session.requests s.
Proof.
  unfold Session.saveSettings. destruct ipcOk; cbn; (split; [apply lookup_insert_eq | reflexivity]).
Qed.

(** X19: the key saved from the settings dialog is the typed key without
    its surrounding white space, in the renderer and, when the call
    returns, in the settings of the main process, and the dialog then
    closes.  A following [generateSummary] sends at most one request, with
    that key, and only when the key is not blank, so that the main process
    never rejects it for a missing key; when the typed key is blank it
    sends nothing and reopens the settings dialog. *)
Theorem saved_key_is_trimmed
    (ipcOk : bool) (s : Session.Session) (us : gmap string string) (text : Outcome string) :
  let s1 := fst (Session.saveSettings ipcOk (s, us)) in
  let s2 := Session.generateSummary text s1 in
  Session.storedKey s1 = trim (Session.keyInput s) /\
  (if ipcOk
   then snd (Session.saveSettings ipcOk (s, us)) !! "openaiApiKey"
        = Some (trim (Session.keyInput s)) /\ Session.settingsHidden s1 = true
   else snd (Session.saveSettings ipcOk (s, us)) = us) /\
  (Session.requests s2 = Session.requests s \/
   exists content,
     Session.requests s2
     = Session.requests s ++ [(content, Some (trim (Session.keyInput s)))] /\
     ~ blankKey (Some (trim (Session.keyInput s)))) /\
  (blankKey (Some (Session.keyInput s)) ->
   Session.requests s2 = Session.requests s /\ Session.settingsHidden s2 = false).
Proof.
  intros s1 s2.
  destruct (saveSettings_key ipcOk s us) as [Hkey Hreq]. fold s1 in Hkey, Hreq.
  split; [unfold Session.storedKey; rewrite Hkey; reflexivity |].
  split.
  { unfold s1, Session.saveSettings, Main.saveSettings. destruct ipcOk; cbn; [| reflexivity].
    split; [| reflexivity]. apply lookup_union_Some_l, lookup_insert_eq. }
  unfold s2, Session.generateSummary. rewrite Hkey.
  destruct (trim (Session.keyInput s)) as [| c key] eqn:E.
  - split; [left; exact Hreq |]. intros _. split; [exact Hreq | reflexivity].
  - assert (Hn : ~ blankKey (Some (String c key))).
    { unfold blankKey. rewrite <- E, trim_idempotent, E. discriminate. }
    split; [| intros Hb; unfold blankKey in Hb; congruence].
    destruct (bool_decide (App.currentBook (Session.app s1) = None)
              || (len (App.chapters (Session.app s1)) =? 0)); [left; exact Hreq |].
    destruct (Session.chapterContent text (Session.withPanel false s1)) as [content | message];
      [| left; exact Hreq].
    right. exists content. cbn. rewrite Hreq. split; [reflexivity | exact Hn].
Qed.

Lemma saved_key_is_trimmed_witness :
  Session.requests
    (Session.generateSummary (Ok "text")
       (fst (Session.saveSettings true
               ({| Session.app := Reference.afterFirstPdf; Session.settings := ∅;
                   Session.keyInput := "  "; Session.settingsHidden := false;
                   Session.summaryHidden := true; Session.requests := [];
                   Session.alerts := [] |}, Main.initialSettings))))
  = [].
Proof.
  apply (proj2 (proj2 (proj2 (saved_key_is_trimmed true
           {| Session.app := Reference.afterFirstPdf; Session.settings := ∅;
              Session.keyInput := "  "; Session.settingsHidden := false;
              Session.summaryHidden := true; Session.requests := [];
              Session.alerts := [] |} Main.initialSettings (Ok "text"))))).
  vm_compute. reflexivity.
Defined.

End Summaries.

(** ** Images: candidate paths and the manifest *)
Section Images.
Import JsString Epub.

Lemma take_drop_chars (n : nat) (s : string) : takeChars n s +:+ dropChars n s = s.
Proof.
  revert s. induction n as [| n IH]; intros s; [reflexivity |].
  destruct s as [| c s]; [reflexivity |].
  cbn [takeChars dropChars]. rewrite string_app_cons, IH. reflexivity.
Qed.

Lemma basename_suffix (s : string) : exists front, s = front +:+ basename s.
Proof. exists (takeChars (afterLastSlash s) s). symmetry. apply take_drop_chars. Qed.

Lemma basename_cons (c : ascii) (s : string) :
  Ascii.eqb c "/" = true \/ afterLastSlash s <> O -> basename (String c s) = basename s.
Proof.
  unfold basename. cbn [afterLastSlash].
  destruct (afterLastSlash s) as [| k] eqn:E.
  - intros [-> | H]; [reflexivity | contradiction].
  - intros _. reflexivity.
Qed.

Lemma basename_dropSlashes (s : string) : basename (dropSlashes s) = basename s.
Proof.
  induction s as [| c s IH]; [reflexivity |].
  cbn [dropSlashes]. destruct (Ascii.eqb c "/") eqn:E; [| reflexivity].
  rewrite IH. symmetry. apply basename_cons. left. exact E.
Qed.

Lemma afterLastSlash_slash (s : string) : afterLastSlash (String "/" s) <> O.
Proof. cbn [afterLastSlash]. destruct (afterLastSlash s); discriminate. Qed.

(** Taking [../] and the slashes after it away keeps the name of the file. *)
Lemma basename_stripParent (s : string) : basename (stripParent s) = basename s.
Proof.
  unfold stripParent. destruct (String.prefix "../" s) eqn:E; [| reflexivity].
  apply prefix_true in E as [r ->].
  change ("../" +:+ r) with (String "." (String "." (String "/" r))).
  cbn [dropChars]. rewrite basename_dropSlashes.
  rewrite (basename_cons "." (String "." (String "/" r))).
  - rewrite (basename_cons "." (String "/" r)); [reflexivity |].
    right. apply afterLastSlash_slash.
  - right. cbn [afterLastSlash]. destruct (afterLastSlash r); discriminate.
Qed.

Lemma firstOccurrences_from (paths seen : list string) :
  let result :=
    foldl (fun seen path => if bool_decide (path ∈ seen) then seen else seen ++ [path])
          seen paths in
  (NoDup seen -> NoDup result) /\
  (forall path, path ∈ result <-> path ∈ seen \/ path ∈ paths) /\
  (exists rest, result = seen ++ rest) /\
  (length result <= length seen + length paths)%nat.
Proof.
  revert seen. induction paths as [| p paths IH]; intros seen; cbn [foldl].
  - split; [tauto |]. split; [intros path; rewrite elem_of_nil; tauto |].
    split; [exists []; rewrite app_nil_r; reflexivity | cbn; lia].
  - destruct (IH (if bool_decide (p ∈ seen) then seen else seen ++ [p]))
      as (Hnd & Hin & [rest Hrest] & Hlen).
    case_bool_decide as Hp.
    + split; [exact Hnd |]. split.
      * intros path. rewrite Hin, elem_of_cons. split; [tauto |].
        intros [H | [-> | H]]; tauto.
      * split; [exists rest; exact Hrest | cbn; lia].
    + split.
      * intros Hs. apply Hnd. apply NoDup_app. split; [exact Hs |]. split.
        -- intros x Hx Hx'. apply list_elem_of_singleton in Hx'. subst x. contradiction.
        -- apply NoDup_singleton.
      * split.
        -- intros path. rewrite Hin, elem_of_app, list_elem_of_singleton, elem_of_cons. tauto.
        -- split; [exists (p :: rest); rewrite Hrest, <- app_assoc; reflexivity |].
           rewrite length_app in Hlen. cbn in *. lia.
Qed.

Lemma firstOccurrences_head (path : string) (paths : list string) :
  head (firstOccurrences (path :: paths)) = Some path.
Proof.
  unfold firstOccurrences. cbn [foldl].
  case_bool_decide as H; [apply elem_of_nil in H; contradiction |].
  destruct (firstOccurrences_from paths ([] ++ [path])) as (_ & _ & [rest Hrest] & _).
  cbn zeta in Hrest. rewrite Hrest. reflexivity.
Qed.

Lemma candidatePaths_length (imagePath : string) (sectionHref : option string) :
  (length (candidatePaths imagePath sectionHref) <= 20)%nat.
Proof.
  unfold candidatePaths.
  set (fromSection := if truthy sectionHref then _ else _).
  set (fromDirs := if includes "image" _ then _ else _).
  assert (Hs : (length fromSection <= 2)%nat).
  { unfold fromSection. destruct (truthy sectionHref); [| cbn; lia].
    destruct (String.prefix "../" imagePath), (String.prefix "/" imagePath),
      (String.prefix "http" imagePath); cbn; lia. }
  assert (Hd : (length fromDirs <= 17)%nat).
  { unfold fromDirs. destruct (includes "image" _).
    - cbn. lia.
    - rewrite length_fmap. etransitivity; [apply length_filter |]. cbn. lia. }
  rewrite !length_app. cbn [length]. lia.
Qed.

Lemma candidatePaths_basename (imagePath : string) (sectionHref : option string) (path : string) :
  path ∈ candidatePaths imagePath sectionHref ->
  exists front, path = front +:+ basename imagePath.
Proof.
  assert (Hdir : forall (dir : string), exists front, dir +:+ basename imagePath
                                                 = front +:+ basename imagePath)
    by (intros dir; exists dir; reflexivity).
  assert (Hpre : forall (dir target : string),
             basename target = basename imagePath ->
             exists front, dir +:+ target = front +:+ basename imagePath).
  { intros dir target Hb. destruct (basename_suffix target) as [front Hf].
    exists (dir +:+ front). rewrite string_app_assoc, <- Hb, <- Hf. reflexivity. }
  unfold candidatePaths. rewrite !elem_of_app, list_elem_of_singleton.
  intros [-> | [H | H]].
  - apply basename_suffix.
  - destruct (truthy sectionHref); [| apply elem_of_nil in H; contradiction].
    apply elem_of_app in H as [H | H].
    + destruct (_ && _ && _); [| apply elem_of_nil in H; contradiction].
      apply list_elem_of_singleton in H. subst path. apply Hpre. reflexivity.
    + destruct (String.prefix "../" imagePath); [| apply elem_of_nil in H; contradiction].
      apply elem_of_cons in H as [-> | H].
      * apply (Hpre EmptyString). apply basename_stripParent.
      * apply list_elem_of_singleton in H. subst path. apply Hpre, basename_stripParent.
  - destruct (includes "image" _);
      apply list_elem_of_fmap in H as (dir & -> & _); apply Hdir.
Qed.

(** X20: the candidate paths of an image hold no path twice, begin with the
    path as it was written, are at most twenty, and every one of them ends
    with the file name of the image (what follows its last slash): only the
    directory is guessed. *)
Theorem resolveImagePaths_candidates (imagePath : string) (sectionHref : option string) :
  let paths := resolveImagePaths imagePath sectionHref in
  NoDup paths /\
  head paths = Some imagePath /\
  (length paths <= 20)%nat /\
  forall path, path ∈ paths -> exists front, path = front +:+ basename imagePath.
Proof.
  intros paths.
  destruct (firstOccurrences_from (candidatePaths imagePath sectionHref) [])
    as (Hnd & Hin & _ & Hlen).
  fold (firstOccurrences (candidatePaths imagePath sectionHref)) in Hnd, Hin, Hlen.
  fold (resolveImagePaths imagePath sectionHref) in Hnd, Hin, Hlen. fold paths in Hnd, Hin, Hlen.
  split; [apply Hnd, NoDup_nil_2 |]. split.
  - unfold paths, resolveImagePaths, candidatePaths. apply firstOccurrences_head.
  - split.
    + etransitivity; [exact Hlen | exact (candidatePaths_length imagePath sectionHref)].
    + intros path Hp. apply Hin in Hp as [Hp | Hp]; [apply elem_of_nil in Hp; contradiction |].
      exact (candidatePaths_basename _ _ _ Hp).
Qed.

Lemma resolveImagePaths_candidates_witness :
  exists front, "Text/img/a.png" = front +:+ basename "..//img/a.png".
Proof.
  apply (proj2 (proj2 (proj2
           (resolveImagePaths_candidates "..//img/a.png" (Some "Text/ch1.xhtml"))))).
  apply (bool_decide_unpack _). vm_compute. exact I.
Defined.

Example resolveImagePaths_of_parent_path :
  take 4 (resolveImagePaths "..//img/a.png" (Some "Text/ch1.xhtml"))
  = ["..//img/a.png"; "img/a.png"; "Text/img/a.png"; "images/a.png"].
Proof. vm_compute. reflexivity. Qed.

Lemma firstItem_Some (test : ManifestItem -> bool) (manifest : list ManifestItem)
    (item : ManifestItem) :
  firstItem test manifest = Some item -> item ∈ manifest /\ test item = true.
Proof.
  induction manifest as [| x manifest IH]; [discriminate |].
  cbn [firstItem]. destruct (test x) eqn:E.
  - intros [= ->]. split; [apply elem_of_cons; left; reflexivity | exact E].
  - intros H. destruct (IH H) as [Hin Ht]. split; [apply elem_of_cons; right; exact Hin | exact Ht].
Qed.

Lemma firstItem_None (test : ManifestItem -> bool) (manifest : list ManifestItem) :
  firstItem test manifest = None ->
  forall item, item ∈ manifest -> test item = false.
Proof.
  induction manifest as [| x manifest IH]; intros H item Hin.
  - apply elem_of_nil in Hin. contradiction.
  - cbn [firstItem] in H. destruct (test x) eqn:E; [discriminate |].
    apply elem_of_cons in Hin as [-> | Hin]; [exact E | exact (IH H item Hin)].
Qed.

Lemma includes_suffix (n : nat) (s : string) : includes (dropChars n s) s = true.
Proof.
  revert n. induction s as [| c s IH]; intros n.
  - destruct n; reflexivity.
  - destruct n as [| n].
    + cbn [dropChars includes]. apply orb_true_iff. left.
      apply prefix_true. exists EmptyString. symmetry. apply string_app_nil_r.
    + cbn [dropChars includes]. rewrite IH. apply orb_true_r.
Qed.

Lemma mapChars_drop (f : ascii -> ascii) (n : nat) (s : string) :
  mapChars f (dropChars n s) = dropChars n (mapChars f s).
Proof.
  apply chars_inj. rewrite chars_map, !chars_drop, chars_map. apply fmap_drop.
Qed.

(** The lower-case name of a file occurs in its lower-case path. *)
Lemma lower_basename_included (href : string) :
  includes (toLowerCase (basename href)) (toLowerCase href) = true.
Proof. unfold toLowerCase, basename. rewrite mapChars_drop. apply includes_suffix. Qed.

(** X21: [findImageInManifest] answers with the [href] of an entry of the
    manifest whose type starts with [image/] and whose path holds, case
    apart, the file name of the wanted image; when some image entry has
    exactly that file name, the answer has it too; and the answer is
    [null] only when no image entry holds the file name. *)
Theorem findImageInManifest_finds_image (manifest : list ManifestItem) (imagePath : string) :
  let wanted := toLowerCase (basename imagePath) in
  match findImageInManifest manifest imagePath with
  | Some href =>
      (exists item, item ∈ manifest /\ manifestHref item = href /\ isImageItem item = true) /\
      includes wanted (toLowerCase href) = true /\
      ((exists other, other ∈ manifest /\ isImageItem other = true /\
                      toLowerCase (basename (manifestHref other)) = wanted) ->
       toLowerCase (basename href) = wanted)
  | None =>
      forall item, item ∈ manifest -> isImageItem item = true ->
                   includes wanted (toLowerCase (manifestHref item)) = false
  end.
Proof.
  intros wanted. unfold findImageInManifest. fold wanted.
  destruct (firstItem (fun item => isImageItem item
              && String.eqb (toLowerCase (basename (manifestHref item))) wanted) manifest)
    as [exact |] eqn:Eexact.
  - apply firstItem_Some in Eexact as [Hin Ht].
    apply andb_true_iff in Ht as [Himg Heq]. apply String.eqb_eq in Heq.
    split; [exists exact; auto |]. split; [| intros _; exact Heq].
    rewrite <- Heq. apply lower_basename_included.
  - pose proof (firstItem_None _ _ Eexact) as Hnone.
    destruct (firstItem (fun item => isImageItem item
                && includes wanted (toLowerCase (manifestHref item))) manifest)
      as [partial |] eqn:Epartial.
    + apply firstItem_Some in Epartial as [Hin Ht].
      apply andb_true_iff in Ht as [Himg Hinc].
      split; [exists partial; auto |]. split; [exact Hinc |].
      intros (other & Hother & Hoimg & Hoeq). specialize (Hnone other Hother).
      cbn beta in Hnone. rewrite Hoimg, Hoeq, String.eqb_refl in Hnone. discriminate.
    + intros item Hitem Himg. pose proof (firstItem_None _ _ Epartial item Hitem) as H.
      cbn beta in H. rewrite Himg in H. exact H.
Qed.

Lemma findImageInManifest_finds_image_witness :
  toLowerCase (basename "Images/Cover.JPG") = toLowerCase (basename "../images/cover.jpg").
Proof.
  pose proof (findImageInManifest_finds_image
                [ mkManifestItem (Some "text/css") "style/cover.jpg.css";
                  mkManifestItem (Some "image/jpeg") "Images/old-cover.jpg";
                  mkManifestItem (Some "image/jpeg") "Images/Cover.JPG" ]
                "../images/cover.jpg") as H.
  cbv zeta in H. vm_compute (findImageInManifest _ _) in H.
  destruct H as (_ & _ & H). apply H.
  exists (mkManifestItem (Some "image/jpeg") "Images/Cover.JPG").
  split; [apply (list_elem_of_lookup_2 _ 2%nat); reflexivity |].
  split; vm_compute; reflexivity.
Defined.

Example findImageInManifest_prefers_exact_name :
  findImageInManifest
    [ mkManifestItem (Some "text/css") "style/cover.jpg.css";
      mkManifestItem (Some "image/jpeg") "Images/old-cover.jpg";
      mkManifestItem (Some "image/jpeg") "Images/Cover.JPG" ]
    "../images/cover.jpg"
  = Some "Images/Cover.JPG".
Proof. vm_compute. reflexivity. Qed.

End Images.
